(** * Risk results of gs_quant: composition, indexing and addition

    A shallow embedding of [gs_quant/risk/results.py]: the composition of
    result values ([_compose]), the futures that hold them
    ([PricingFuture], [MultipleRiskMeasureFuture], [HistoricalPricingFuture])
    and the result tree of a portfolio ([PortfolioRiskResult]).

    Conventions of the embedding.
    - A Python call either returns or raises: [res A] with [Ok] and [Raise].
    - A [dict] is an association list in insertion order, written to with
      [dict_set]; a [tuple] or [list] is a [list].
    - A float is a rational or [NaN]: rounding is not modelled, the missing
      value of pandas is.
    - A table ([DataFrameWithInfo]) is a list of rows, each with its
      [value] and the cells of its other columns, under an index of dates
      or of positions.
    - The [unit] of a result, index keys that are names, slices or
      collections of dates, and the resolution of instruments are outside
      the embedding.
    - A [MultipleRiskMeasureResult] is the one object of the module that is
      written to after its creation ([set_value]).  One that exists before
      the modelled call lives in the [store] and is named by its address
      ([Shared]); one that the modelled call creates is written in place at
      its only owner ([Own]). *)

From Stdlib Require Import List ZArith QArith Bool String Lia Permutation Sorted.
Import ListNotations.
Local Close Scope Q_scope.
Local Open Scope list_scope.

Set Implicit Arguments.
Set Warnings "-register-all".

(** ** Exceptions and results *)

Inductive exn : Type :=
| KeyError
| IndexError
| StopIteration
| AttributeError
| TypeError
| InvalidStateError
| CancelledError
| TimeoutError
| RuntimeError (msg : string)
| ValueError (msg : string)
| OutOfFuel.                     (* the bound of a recursion of the embedding
                                    was reached: no outcome of the program *)

Inductive res (A : Type) : Type :=
| Ok (a : A)
| Raise (e : exn).

Arguments Ok {A} a.
Arguments Raise {A} e.

Definition bind {A B : Type} (c : res A) (k : A -> res B) : res B :=
  match c with
  | Ok a => k a
  | Raise e => Raise e
  end.

Notation "x <- c ;; k" := (bind c (fun x => k))
  (at level 61, c at next level, right associativity).

Fixpoint mapM {A B : Type} (f : A -> res B) (l : list A) : res (list B) :=
  match l with
  | [] => Ok []
  | x :: t => y <- f x ;; ys <- mapM f t ;; Ok (y :: ys)
  end.

Definition is_ok {A : Type} (c : res A) : bool :=
  match c with Ok _ => true | Raise _ => false end.

(** The messages of the module. *)
Definition msg_overlap : string :=
  "Results overlap on risk measures, instruments or dates".
Definition msg_multiply : string := "Can only multiply by an int or float".
Definition msg_matching : string :=
  "Results must have matching scenario and location".
Definition msg_historical : string :=
  "Can only index by date on historical results".
Definition msg_not_computed : string := "not computed".
Definition msg_add_multi : string :=
  "Can only add instances of MultipleRiskMeasureResult or int, float".
Definition msg_add_tree : string :=
  "Can only add instances of PortfolioRiskResult or int, float".
Definition msg_add_future : string := "Cannot add".
Definition msg_cannot_compose : string := "cannot be composed".
Definition msg_same_context : string :=
  "Cannot evaluate results under the same pricing context being used to produce them".

(** ** Numbers, dates, keys *)

Inductive num : Type :=
| NaN
| Num (q : Q).

Definition notna (x : num) : bool :=
  match x with NaN => false | Num _ => true end.

Definition num_mul (x y : num) : num :=
  match x, y with
  | Num a, Num b => Num (Qmult a b)
  | _, _ => NaN
  end.

Definition num_add (x y : num) : num :=
  match x, y with
  | Num a, Num b => Num (Qplus a b)
  | _, _ => NaN
  end.

Definition date := Z.
Definition RiskMeasure := nat.

Inductive Market : Type :=
| CloseMarket (date : option date) (location : option nat)
| LocationOnlyMarket (location : option nat)
| OtherMarket (tag : nat) (location : option nat).

Definition market_location (m : Market) : option nat :=
  match m with
  | CloseMarket _ l => l
  | LocationOnlyMarket l => l
  | OtherMarket _ l => l
  end.

Record RiskKey : Type := mkRiskKey {
  provider : nat;
  rk_date : option date;
  market : Market;
  params : nat;
  scenario : option nat;
  risk_measure : option RiskMeasure
}.

(** Modelled from the spec: [RiskKey.ex_measure] of gs_quant.base, the key
    "excluding the risk measure itself". *)
Definition ex_measure (k : RiskKey) : RiskKey :=
  mkRiskKey (provider k) (rk_date k) (market k) (params k) (scenario k) None.

(** Modelled from the spec: [historical_risk_key] of gs_quant.markets, the
    key of a result over many dates: no date, and of the market only its
    location (the provenance compared is "scenario/location"). *)
Definition historical_risk_key (k : RiskKey) : RiskKey :=
  mkRiskKey (provider k) None (LocationOnlyMarket (market_location (market k)))
            (params k) (scenario k) (risk_measure k).

Definition option_eqb {A : Type} (eqb : A -> A -> bool) (x y : option A) : bool :=
  match x, y with
  | None, None => true
  | Some a, Some b => eqb a b
  | _, _ => false
  end.

Definition Market_eqb (m1 m2 : Market) : bool :=
  match m1, m2 with
  | CloseMarket d1 l1, CloseMarket d2 l2 =>
      option_eqb Z.eqb d1 d2 && option_eqb Nat.eqb l1 l2
  | LocationOnlyMarket l1, LocationOnlyMarket l2 => option_eqb Nat.eqb l1 l2
  | OtherMarket t1 l1, OtherMarket t2 l2 =>
      Nat.eqb t1 t2 && option_eqb Nat.eqb l1 l2
  | _, _ => false
  end.

Definition RiskKey_eqb (k1 k2 : RiskKey) : bool :=
  Nat.eqb (provider k1) (provider k2)
  && option_eqb Z.eqb (rk_date k1) (rk_date k2)
  && Market_eqb (market k1) (market k2)
  && Nat.eqb (params k1) (params k2)
  && option_eqb Nat.eqb (scenario k1) (scenario k2)
  && option_eqb Nat.eqb (risk_measure k1) (risk_measure k2).

(** ** Result values held by one future *)

Record ErrorValue : Type := mkErrorValue {
  e_risk_key : RiskKey;
  e_error : string
}.

Record FloatWithInfo : Type := mkFloatWithInfo {
  f_risk_key : RiskKey;
  raw_value : num;
  f_error : list (option date * ErrorValue)
}.

(** A series is an ordered mapping from dates to numbers. *)
Record SeriesWithInfo : Type := mkSeriesWithInfo {
  s_risk_key : RiskKey;
  s_data : list (date * num);
  s_error : list (option date * ErrorValue)
}.

(** A row of a table: its [value] and the cells of its other columns. *)
Record Row : Type := mkRow {
  r_cells : list string;
  r_value : num
}.

(** The rows of a table under its index.  The index of the table of a
    result over several dates is named 'date' and gives each row its date
    ([Dated]; a row has no date when the key it got its date from had
    none); the index of the table of one date counts the rows ([Plain]). *)
Inductive frame : Type :=
| Dated (rows : list (option date * Row))
| Plain (rows : list Row).

Record DataFrameWithInfo : Type := mkDataFrameWithInfo {
  t_risk_key : RiskKey;
  t_frame : frame;
  t_error : list (option date * ErrorValue)
}.

(** A label of an index: a date, the position of a row, or the missing
    date. *)
Inductive label : Type :=
| Day (d : date)
| Position (i : nat)
| NoDay.

(** ** pandas: the operations of a Series that the module calls *)

Definition index (l : list (date * num)) : list date := map fst l.

Fixpoint series_get (l : list (date * num)) (d : date) : option num :=
  match l with
  | [] => None
  | (d', v) :: t => if Z.eqb d' d then Some v else series_get t d
  end.

(** [Series.loc[d]]: the value at a label, [KeyError] without it. *)
Definition loc (l : list (date * num)) (d : date) : res num :=
  match series_get l d with
  | Some v => Ok v
  | None => Raise KeyError
  end.

(** The value at a label after [reindex]: the missing value where the label
    is new. *)
Definition reindexed (l : list (date * num)) (d : date) : num :=
  match series_get l d with
  | Some v => v
  | None => NaN
  end.

(** [Index.union]: every label of both, once. *)
Definition index_union (a b : list date) : list date :=
  nodup Z.eq_dec (a ++ b).

(** [this.combine_first(other)]: over the union of the two indexes,
    [this.where(notna(this), other)]: the value of [this] where it has one
    that is not missing, the value of [other] elsewhere. *)
Definition combine_first (this other : list (date * num)) : list (date * num) :=
  map (fun d => (d, if notna (reindexed this d) then reindexed this d
                    else reindexed other d))
      (index_union (index this) (index other)).

Fixpoint insert_by_date (e : date * num) (l : list (date * num))
  : list (date * num) :=
  match l with
  | [] => [e]
  | h :: t => if Z.leb (fst e) (fst h) then e :: h :: t
              else h :: insert_by_date e t
  end.

(** [sort_index()]: ascending by label, entries with one label keep their
    order. *)
Definition sort_index (l : list (date * num)) : list (date * num) :=
  fold_right insert_by_date [] l.

Definition series_combine_first (this other : SeriesWithInfo) : SeriesWithInfo :=
  mkSeriesWithInfo (s_risk_key this) (combine_first (s_data this) (s_data other))
                   (s_error this).

Definition series_sort_index (s : SeriesWithInfo) : SeriesWithInfo :=
  mkSeriesWithInfo (s_risk_key s) (sort_index (s_data s)) (s_error s).

(** ** pandas: the operations of a DataFrame that the module calls *)

Definition label_of (d : option date) : label :=
  match d with Some x => Day x | None => NoDay end.

(** [frame.index]: the label of each row. *)
Definition frame_index (f : frame) : list label :=
  match f with
  | Dated rows => map (fun e => label_of (fst e)) rows
  | Plain rows => map Position (seq 0 (List.length rows))
  end.

Definition at_date (d : date) (e : option date * Row) : bool :=
  option_eqb Z.eqb (fst e) (Some d).

(** [frame.loc[d]] for a date [d]: the rows under that label, [KeyError]
    without one; the positions of a [Plain] index are no dates. *)
Definition frame_loc (f : frame) (d : date) : res (list Row) :=
  match f with
  | Dated rows =>
      match filter (at_date d) rows with
      | [] => Raise KeyError
      | l => Ok (map snd l)
      end
  | Plain _ => Raise KeyError
  end.

(** The order of [sort_index] on dates: ascending, the missing date last. *)
Definition date_leb (a b : option date) : bool :=
  match a, b with
  | Some x, Some y => Z.leb x y
  | Some _, None => true
  | None, Some _ => false
  | None, None => true
  end.

Fixpoint insert_row (e : option date * Row) (l : list (option date * Row))
  : list (option date * Row) :=
  match l with
  | [] => [e]
  | h :: t => if date_leb (fst e) (fst h) then e :: h :: t
              else h :: insert_row e t
  end.

(** [sort_index()] of a frame: the rows of one date keep their order. *)
Definition sort_rows (l : list (option date * Row)) : list (option date * Row) :=
  fold_right insert_row [] l.

(** The frame with its [value] column through [f]. *)
Definition row_map (f : num -> num) (r : Row) : Row :=
  mkRow (r_cells r) (f (r_value r)).

Definition frame_map (f : num -> num) (fr : frame) : frame :=
  match fr with
  | Dated rows => Dated (map (fun e => (fst e, row_map f (snd e))) rows)
  | Plain rows => Plain (map (row_map f) rows)
  end.

(** [t.assign(date=t.risk_key.date).set_index('date')] unless the index of
    [t] is named 'date' already: every row under the date of the key. *)
Definition dated_rows (t : DataFrameWithInfo) : list (option date * Row) :=
  match t_frame t with
  | Dated rows => rows
  | Plain rows => map (fun r => (rk_date (t_risk_key t), r)) rows
  end.

(** ** Python dictionaries *)

Section Dict.
Variable V : Type.

Fixpoint dict_get (d : list (RiskMeasure * V)) (k : RiskMeasure) : option V :=
  match d with
  | [] => None
  | (k', v) :: t => if Nat.eqb k' k then Some v else dict_get t k
  end.

(** [d[k] = v]: the entry of [k] is replaced where it stands, a new key
    goes last. *)
Fixpoint dict_set (d : list (RiskMeasure * V)) (k : RiskMeasure) (v : V)
  : list (RiskMeasure * V) :=
  match d with
  | [] => [(k, v)]
  | (k', v') :: t => if Nat.eqb k' k then (k', v) :: t
                     else (k', v') :: dict_set t k v
  end.

Definition dict_of (l : list (RiskMeasure * V)) : list (RiskMeasure * V) :=
  fold_left (fun d kv => dict_set d (fst kv) (snd kv)) l [].

Definition keys (d : list (RiskMeasure * V)) : list RiskMeasure := map fst d.
Definition values (d : list (RiskMeasure * V)) : list V := map snd d.

Definition dict_has (d : list (RiskMeasure * V)) (k : RiskMeasure) : bool :=
  match dict_get d k with Some _ => true | None => false end.
End Dict.

Definition mem (k : RiskMeasure) (l : list RiskMeasure) : bool :=
  existsb (Nat.eqb k) l.

Definition memZ (d : date) (l : list date) : bool := existsb (Z.eqb d) l.

(** [set(a).isdisjoint(b)] *)
Definition isdisjoint (a b : list RiskMeasure) : bool :=
  negb (existsb (fun x => mem x b) a).

Definition label_eqb (a b : label) : bool :=
  match a, b with
  | Day x, Day y => Z.eqb x y
  | Position i, Position j => Nat.eqb i j
  | NoDay, NoDay => true
  | _, _ => false
  end.

Definition isdisjoint_labels (a b : list label) : bool :=
  negb (existsb (fun x => existsb (label_eqb x) b) a).

(** ** Portfolios

    The class [Portfolio] of gs_quant.markets.portfolio is used by the
    module through its iteration, [paths], [all_paths], [all_instruments],
    [+] and [==]. *)

Inductive Priceable : Type :=
| Instrument (id : nat)
| Portfolio (priceables : list Priceable).

Definition PortfolioPath := list nat.

Fixpoint Priceable_eqb (a b : Priceable) {struct a} : bool :=
  match a, b with
  | Instrument i, Instrument j => Nat.eqb i j
  | Portfolio ps, Portfolio qs =>
      (fix all2 (l1 l2 : list Priceable) {struct l1} : bool :=
         match l1, l2 with
         | [], [] => true
         | x :: t1, y :: t2 => Priceable_eqb x y && all2 t1 t2
         | _, _ => false
         end) ps qs
  | _, _ => false
  end.

Definition is_portfolio (p : Priceable) : bool :=
  match p with Portfolio _ => true | Instrument _ => false end.

(** The positions of [key] among the entries [ps], counted from [i]. *)
Fixpoint top_matches (key : Priceable) (i : nat) (ps : list Priceable)
  : list PortfolioPath :=
  match ps with
  | [] => []
  | p :: t => if Priceable_eqb p key then [i] :: top_matches key (S i) t
              else top_matches key (S i) t
  end.

(** Modelled from the spec: [Portfolio.paths], "a paths(identifier) lookup
    returning all PathAddress matches": the matching entries of the
    portfolio itself, then the matches inside each nested portfolio, in
    the order of the entries. *)
Fixpoint paths (p : Priceable) (key : Priceable) {struct p} : list PortfolioPath :=
  match p with
  | Instrument _ => []
  | Portfolio ps =>
      top_matches key 0 ps ++
      (fix nested (i : nat) (l : list Priceable) {struct l} : list PortfolioPath :=
         match l with
         | [] => []
         | q :: t => map (cons i) (paths q key) ++ nested (S i) t
         end) 0 ps
  end.

(** Modelled from the spec: [Portfolio.all_paths], the path of every
    instrument, "ordered iteration over (possibly nested) entries". *)
Fixpoint all_paths (p : Priceable) {struct p} : list PortfolioPath :=
  match p with
  | Instrument _ => [[]]
  | Portfolio ps =>
      (fix entries (i : nat) (l : list Priceable) {struct l} : list PortfolioPath :=
         match l with
         | [] => []
         | q :: t => map (cons i) (all_paths q) ++ entries (S i) t
         end) 0 ps
  end.

(** Modelled from the spec: [Portfolio.all_instruments], the instruments
    of the portfolio and of the portfolios nested in it. *)
Fixpoint all_instruments (p : Priceable) {struct p} : list nat :=
  match p with
  | Instrument i => [i]
  | Portfolio ps =>
      (fix entries (l : list Priceable) {struct l} : list nat :=
         match l with
         | [] => []
         | q :: t => all_instruments q ++ entries t
         end) ps
  end.

(** Modelled from the spec: [Portfolio.__add__], "the result's portfolio is
    the concatenation of both". *)
Definition portfolio_add (ps qs : list Priceable) : list Priceable := ps ++ qs.

(** ** Values, futures and trees *)

Inductive value : Type :=
| VFloat (x : FloatWithInfo)
| VSeries (s : SeriesWithInfo)
| VTable (t : DataFrameWithInfo)
| VError (e : ErrorValue)
| VNum (x : num)                 (* a bare int or float *)
| VStr (s : string)              (* a str *)
| VExc (e : exn)                 (* an exception object that was returned *)
| VMulti (o : multi)             (* MultipleRiskMeasureResult *)
| VTree (t : tree)               (* PortfolioRiskResult *)
with multi : Type :=
| Own (instrument : Priceable) (items : list (RiskMeasure * value))
| Shared (address : nat)
with tree : Type :=
| PortfolioRiskResult (portfolio : list Priceable)
                      (risk_measures : list RiskMeasure)
                      (futures : list future)
with future : Type :=
| PricingFuture (result : value)
| MultipleRiskMeasureFuture (instrument : Priceable)
                            (measures_to_futures : list (RiskMeasure * future))
                            (result : value)
| HistoricalPricingFuture (futures : list future) (result : value)
| Nested (t : tree).             (* a PortfolioRiskResult among the futures *)

Definition portfolio_of (t : tree) : list Priceable :=
  match t with PortfolioRiskResult p _ _ => p end.
Definition risk_measures_of (t : tree) : list RiskMeasure :=
  match t with PortfolioRiskResult _ r _ => r end.
Definition futures_of (t : tree) : list future :=
  match t with PortfolioRiskResult _ _ f => f end.

(** The objects that exist before the modelled call: instrument and items
    of each [MultipleRiskMeasureResult], by address. *)
Definition store := list (Priceable * list (RiskMeasure * value)).

Definition contents (h : store) (o : multi)
  : res (Priceable * list (RiskMeasure * value)) :=
  match o with
  | Own i d => Ok (i, d)
  | Shared l => match nth_error h l with
                | Some c => Ok c
                | None => Raise (RuntimeError "no object at this address")
                end
  end.

Fixpoint update {A : Type} (l : list A) (i : nat) (x : A) : list A :=
  match l, i with
  | [], _ => []
  | _ :: t, 0 => x :: t
  | y :: t, S j => y :: update t j x
  end.

(** [future.result()] of a future that is done; a [PortfolioRiskResult]
    answers with itself. *)
Definition result_of (f : future) : value :=
  match f with
  | PricingFuture v => v
  | MultipleRiskMeasureFuture _ _ v => v
  | HistoricalPricingFuture _ v => v
  | Nested t => VTree t
  end.

(** [MultipleRiskMeasureFuture(instrument, measures_to_futures)] with every
    future done: the constructor of [CompositeResultFuture] finds nothing
    pending and calls [_set_result], which zips the keys with the results of
    the futures. *)
Definition new_MultipleRiskMeasureFuture (instrument : Priceable)
    (measures_to_futures : list (RiskMeasure * future)) : future :=
  MultipleRiskMeasureFuture instrument measures_to_futures
    (VMulti (Own instrument
                 (dict_of (map (fun kf => (fst kf, result_of (snd kf)))
                               measures_to_futures)))).

(** ** Index keys *)

Inductive key : Type :=
| KMeasure (m : RiskMeasure)
| KMeasures (ms : list RiskMeasure)
| KDate (d : date)
| KInt (i : nat)
| KPriceable (p : Priceable).

(** ** [_value_for_date] and [_value_for_risk_measure] *)

(** The key that [_value_for_date] gives the value of the date [d]. *)
Definition key_on (d : date) (k : RiskKey) : RiskKey :=
  mkRiskKey (provider k) (Some d)
    (CloseMarket (Some d)
       (match market k with
        | CloseMarket _ l => l
        | _ => None
        end))
    (params k) (scenario k) (risk_measure k).

(** [_value_for_date(result, date)] for one date.  The value of a series
    on the date becomes a scalar.  Modelled from the spec: of a table,
    whose class [DataFrameWithInfo] is defined in gs_quant.risk,
    [result.loc[date]] is to "re-slice the leaf's series/table axis to the
    requested date(s)": the rows of the date, which the function returns as
    the table of one date, the index of dates dropped.  A value of another class has no
    [loc]. *)
Definition _value_for_date (result : value) (d : date) : res value :=
  match result with
  | VSeries s =>
      raw <- loc (s_data s) d ;;
      Ok (VFloat (mkFloatWithInfo (key_on d (s_risk_key s)) raw (s_error s)))
  | VTable t =>
      rows <- frame_loc (t_frame t) d ;;
      Ok (VTable (mkDataFrameWithInfo (key_on d (t_risk_key t)) (Plain rows)
                                      (t_error t)))
  | _ => Raise AttributeError
  end.

Definition _value_for_risk_measure (res : list (RiskMeasure * value)) (item : key)
  : list (RiskMeasure * value) :=
  match item with
  | KMeasures ms => filter (fun kv => mem (fst kv) ms) res
  | KMeasure m => filter (fun kv => Nat.eqb (fst kv) m) res
  | _ => filter (fun _ => false) res
  end.

(** ** Reading: [MultipleRiskMeasureResult.__getitem__], [PortfolioPath],
    [PortfolioRiskResult.__getitem__] *)

Definition is_series (v : value) : bool :=
  match v with VSeries _ => true | _ => false end.

(** [isinstance(v, (DataFrameWithInfo, SeriesWithInfo))] *)
Definition is_historical (v : value) : bool :=
  match v with VSeries _ | VTable _ => true | _ => false end.

(** [MultipleRiskMeasureResult.__getitem__] *)
Definition multi_getitem (h : store) (o : multi) (item : key) : res value :=
  c <- contents h o ;;
  match item with
  | KDate d =>
      if forallb (fun kv => is_historical (snd kv)) (snd c)
      then
        items <- mapM (fun kv => v <- _value_for_date (snd kv) d ;;
                                 Ok (fst kv, v)) (snd c) ;;
        Ok (VMulti (Own (fst c) (dict_of items)))
      else Raise (ValueError msg_historical)
  | KMeasure m =>
      match dict_get (snd c) m with
      | Some v => Ok v
      | None => Raise KeyError
      end
  | _ => Raise KeyError
  end.

(** [v[item]] for a value [v]; [tree_getitem] is [PortfolioRiskResult.__getitem__]. *)
Definition value_getitem (tree_getitem : tree -> key -> res value)
    (h : store) (v : value) (item : key) : res value :=
  match v with
  | VMulti o => multi_getitem h o item
  | VTree t => tree_getitem t item
  | VSeries s =>
      match item with
      | KDate d => x <- loc (s_data s) d ;; Ok (VNum x)
      | KInt i => match nth_error (s_data s) i with
                  | Some dv => Ok (VNum (snd dv))
                  | None => Raise IndexError
                  end
      | _ => Raise KeyError
      end
  | VTable _ => Raise KeyError   (* [table[item]] looks for a column *)
  | _ => Raise TypeError
  end.

(** What [PortfolioPath.__call__] holds in [target]: the tuple of futures it
    starts from, a future, or the result of one. *)
Inductive target : Type :=
| TTuple (fs : list future)
| TFuture (f : future)
| TValue (v : value).

Definition nth_future (fs : list future) (elem : nat) : res target :=
  match nth_error fs elem with
  | Some f => Ok (TFuture f)
  | None => Raise IndexError
  end.

(** One turn of the loop of [PortfolioPath.__call__]: [more] says whether
    the path goes on after [elem]. *)
Definition path_step (tree_getitem : tree -> key -> res value) (h : store)
    (tgt : target) (elem : nat) (more : bool) : res target :=
  next <-
    match tgt with
    | TTuple fs => nth_future fs elem
    | TFuture (Nested t) => nth_future (futures_of t) elem
    | TFuture (MultipleRiskMeasureFuture _ m2f _) => nth_future (values m2f) elem
    | TFuture (HistoricalPricingFuture fs _) => nth_future fs elem
    | TFuture (PricingFuture _) => Raise TypeError
    | TValue (VTree t) => nth_future (futures_of t) elem
    | TValue v => r <- value_getitem tree_getitem h v (KInt elem) ;; Ok (TValue r)
    end ;;
  match next with
  | TFuture f => if more then Ok (TValue (result_of f)) else Ok next
  | _ => Ok next
  end.

Fixpoint path_call (tree_getitem : tree -> key -> res value) (h : store)
    (path : PortfolioPath) (tgt : target) : res target :=
  match path with
  | [] => Ok tgt
  | elem :: rest =>
      next <- path_step tree_getitem h tgt elem
                        (match rest with [] => false | _ => true end) ;;
      path_call tree_getitem h rest next
  end.

(** [path(self.futures).result()] *)
Definition path_result (tree_getitem : tree -> key -> res value) (h : store)
    (t : tree) (path : PortfolioPath) : res value :=
  tgt <- path_call tree_getitem h path (TTuple (futures_of t)) ;;
  match tgt with
  | TFuture f => Ok (result_of f)
  | TValue (VTree t') => Ok (VTree t')
  | _ => Raise AttributeError
  end.

(** [PortfolioRiskResult.__result(path)] *)
Definition tree_result (tree_getitem : tree -> key -> res value) (h : store)
    (t : tree) (path : PortfolioPath) : res value :=
  r <- path_result tree_getitem h t path ;;
  match risk_measures_of t with
  | [risk_measure] =>
      match r with
      | VMulti _ | VTree _ =>
          value_getitem tree_getitem h r (KMeasure risk_measure)
      | _ => Ok r
      end
  | _ => Ok r
  end.

(** [PortfolioRiskResult.__paths(items)] *)
Definition tree_paths (t : tree) (items : key) : res (list PortfolioPath) :=
  match items with
  | KInt i => Ok [[i]]
  | KPriceable p => Ok (paths (Portfolio (portfolio_of t)) p)
  | _ => Raise TypeError
  end.

(** [PortfolioRiskResult.__results(items)] with [items] given *)
Definition tree_results_item (tree_getitem : tree -> key -> res value)
    (h : store) (t : tree) (items : key) : res value :=
  ps <- tree_paths t items ;;
  match ps with
  | [] => Raise KeyError
  | p :: _ => tree_result tree_getitem h t p
  end.

(** The value appended to [futures] has to be a future. *)
Definition as_nested (v : value) : res future :=
  match v with
  | VTree t => Ok (Nested t)
  | _ => Raise AttributeError
  end.

(** [PortfolioRiskResult.__getitem__]; [fuel] bounds the nesting of trees
    that is walked. *)
Fixpoint tree_getitem (fuel : nat) (h : store) (t : tree) (item : key)
  {struct fuel} : res value :=
  match fuel with
  | 0 => Raise OutOfFuel
  | S n =>
      let self_at (p : Priceable) :=
        tree_results_item (tree_getitem n h) h t (KPriceable p) in
      let slice_measures (ms : list RiskMeasure) :=
        if existsb (fun it => negb (mem it (risk_measures_of t))) ms
        then Raise (ValueError msg_not_computed)
        else
          match risk_measures_of t with
          | [_] => Ok (VTree t)
          | _ =>
              fs <- mapM (fun priceable =>
                            v <- self_at priceable ;;
                            match v with
                            | VTree sub =>
                                r <- tree_getitem n h sub item ;; as_nested r
                            | VMulti o =>
                                c <- contents h o ;;
                                Ok (new_MultipleRiskMeasureFuture priceable
                                      (map (fun kv => (fst kv, PricingFuture (snd kv)))
                                           (_value_for_risk_measure (snd c) item)))
                            | VTable _ =>
                                (* the keys of a table are its columns, no
                                   measures: none is kept *)
                                Ok (new_MultipleRiskMeasureFuture priceable [])
                            | VSeries s =>
                                (* [del] of a value of the series, which is
                                   no label of its index *)
                                match s_data s with
                                | [] => Ok (new_MultipleRiskMeasureFuture priceable [])
                                | _ :: _ => Raise KeyError
                                end
                            | _ => Raise TypeError
                            end) (portfolio_of t) ;;
              Ok (VTree (PortfolioRiskResult (portfolio_of t) ms fs))
          end in
      match item with
      | KMeasure m => slice_measures [m]
      | KMeasures ms => slice_measures ms
      | KDate d =>
          fs <- mapM (fun priceable =>
                        v <- self_at priceable ;;
                        match v with
                        | VMulti _ | VTree _ =>
                            r <- value_getitem (tree_getitem n h) h v item ;;
                            Ok (PricingFuture r)
                        | VSeries _ | VTable _ =>
                            r <- _value_for_date v d ;; Ok (PricingFuture r)
                        | _ => Raise (RuntimeError msg_historical)
                        end) (portfolio_of t) ;;
          Ok (VTree (PortfolioRiskResult (portfolio_of t) (risk_measures_of t) fs))
      | KInt _ | KPriceable _ =>
          tree_results_item (tree_getitem n h) h t item
      end
  end.

(** [PortfolioRiskResult.__len__] *)
Definition tree_len (t : tree) : nat := List.length (futures_of t).

(** ** The dates of a result *)

Fixpoint insert_date (d : date) (l : list date) : list date :=
  match l with
  | [] => [d]
  | h :: t => if Z.leb d h then d :: h :: t else h :: insert_date d t
  end.

(** [tuple(sorted(dates))] of a set of dates *)
Definition sorted_dates (l : list date) : list date :=
  fold_right insert_date [] (nodup Z.eq_dec l).

Fixpoint insert_nat (i : nat) (l : list nat) : list nat :=
  match l with
  | [] => [i]
  | h :: t => if Nat.leb i h then i :: h :: t else h :: insert_nat i t
  end.

Definition sorted_positions (l : list nat) : list nat :=
  fold_right insert_nat [] (nodup Nat.eq_dec l).

Definition days_of (l : list label) : list date :=
  flat_map (fun a => match a with Day d => [d] | _ => [] end) l.

Definition positions_of (l : list label) : list nat :=
  flat_map (fun a => match a with Position i => [i] | _ => [] end) l.

Definition is_day (a : label) : bool :=
  match a with Day _ => true | _ => false end.
Definition is_position (a : label) : bool :=
  match a with Position _ => true | _ => false end.
Definition is_noday (a : label) : bool :=
  match a with NoDay => true | _ => false end.

(** [tuple(sorted(labels))] of a set of labels: dates are ordered among
    themselves, positions among themselves; the comparison of a date with a
    position, or of either with the missing date, raises [TypeError]. *)
Definition sorted_labels (l : list label) : res (list label) :=
  if forallb is_day l then Ok (map Day (sorted_dates (days_of l)))
  else if forallb is_position l
       then Ok (map Position (sorted_positions (positions_of l)))
       else if forallb is_noday l then Ok [NoDay]
            else Raise TypeError.

(** [value.index] of a series or a table, for the other values nothing *)
Definition labels_of (v : value) : list label :=
  match v with
  | VSeries s => map Day (index (s_data s))
  | VTable t => frame_index (t_frame t)
  | _ => []
  end.

(** [MultipleRiskMeasureResult.dates] *)
Definition multi_dates (h : store) (o : multi) : res (list label) :=
  c <- contents h o ;;
  sorted_labels (flat_map labels_of (values (snd c))).

(** [PortfolioRiskResult.__results()] without items *)
Definition tree_results (tree_getitem : tree -> key -> res value) (h : store)
    (t : tree) : res (list value) :=
  mapM (tree_result tree_getitem h t) (all_paths (Portfolio (portfolio_of t))).

(** [PortfolioRiskResult.dates] *)
Fixpoint tree_dates (fuel : nat) (h : store) (t : tree) {struct fuel}
  : res (list label) :=
  match fuel with
  | 0 => Raise OutOfFuel
  | S n =>
      rs <- tree_results (tree_getitem n h) h t ;;
      ds <- mapM (fun r => match r with
                           | VMulti o => multi_dates h o
                           | VTree sub => tree_dates n h sub
                           | _ => Ok (labels_of r)
                           end) rs ;;
      match sorted_labels (List.concat ds) with
      | Raise TypeError => Ok []      (* [except TypeError: return tuple()] *)
      | r => r
      end
  end.

(** ** [_risk_keys_compatible] *)

(** [while isinstance(v, MultipleRiskMeasureResult): v = next(iter(v.values()))] *)
Fixpoint first_leaf (fuel : nat) (h : store) (v : value) {struct fuel} : res value :=
  match v with
  | VMulti o =>
      match fuel with
      | 0 => Raise OutOfFuel
      | S n =>
          c <- contents h o ;;
          match values (snd c) with
          | [] => Raise StopIteration
          | x :: _ => first_leaf n h x
          end
      end
  | _ => Ok v
  end.

Definition risk_key_of (v : value) : res RiskKey :=
  match v with
  | VFloat x => Ok (f_risk_key x)
  | VSeries s => Ok (s_risk_key s)
  | VTable t => Ok (t_risk_key t)
  | VError e => Ok (e_risk_key e)
  | _ => Raise AttributeError
  end.

Definition _risk_keys_compatible (fuel : nat) (h : store) (lhs rhs : value)
  : res bool :=
  l <- first_leaf fuel h lhs ;;
  r <- first_leaf fuel h rhs ;;
  kl <- risk_key_of l ;;
  kr <- risk_key_of r ;;
  Ok (RiskKey_eqb (ex_measure (historical_risk_key kl))
                  (ex_measure (historical_risk_key kr))).

(** ** Composition of scalars into a series *)

Definition msg_incompatible : string := "Cannot compose results with different keys".

Definition keys_compatible (k1 k2 : RiskKey) : bool :=
  RiskKey_eqb (ex_measure (historical_risk_key k1))
              (ex_measure (historical_risk_key k2)).

(** The dated values of the components, in their order. *)
Fixpoint composition_info (risk_key : RiskKey) (components : list value)
  : res (list (date * num)) :=
  match components with
  | [] => Ok []
  | c :: rest =>
      k <- risk_key_of c ;;
      if negb (keys_compatible risk_key k)
      then Raise (ValueError msg_incompatible)
      else
        match c with
        | VFloat x =>
            match rk_date k with
            | Some d =>
                r <- composition_info risk_key rest ;;
                Ok ((d, raw_value x) :: r)
            | None => Raise TypeError
            end
        | _ => Raise TypeError
        end
  end.

(** Modelled from the spec: [ScalarWithInfo.compose] of gs_quant.risk, on
    scalars: dated values are made "into a single composed ResultValue
    [...], by concatenating along the date axis", one scalar is promoted
    "to a one-element Series", and "composing two values requires their
    keys to be [...] (same risk-measure-excluded identity) or composition
    fails".  The module calls it on scalars in [_compose]; of what it does
    with components that are no dated scalars the specification says
    nothing, and they are refused here. *)
Definition compose (components : list value) : res SeriesWithInfo :=
  match components with
  | [] => Raise IndexError
  | c :: _ =>
      k <- risk_key_of c ;;
      r <- composition_info k components ;;
      Ok (mkSeriesWithInfo (historical_risk_key k) r [])
  end.

(** ** Arithmetic on values *)

Definition series_map (f : num -> num) (s : SeriesWithInfo) : SeriesWithInfo :=
  mkSeriesWithInfo (s_risk_key s) (map (fun dv => (fst dv, f (snd dv))) (s_data s))
                   (s_error s).

Definition float_map (f : num -> num) (x : FloatWithInfo) : FloatWithInfo :=
  mkFloatWithInfo (f_risk_key x) (f (raw_value x)) (f_error x).

Definition table_map (f : num -> num) (t : DataFrameWithInfo) : DataFrameWithInfo :=
  mkDataFrameWithInfo (t_risk_key t) (frame_map f (t_frame t)) (t_error t).

(** [operator(value, operand)] with a number as operand, for a value that is
    not a tree: the numeric payload goes through [f]; of a table that is
    its [value] column. *)
Fixpoint value_op (fuel : nat) (h : store) (f : num -> num) (v : value)
  {struct fuel} : res value :=
  match v with
  | VFloat x => Ok (VFloat (float_map f x))
  | VSeries s => Ok (VSeries (series_map f s))
  | VTable t => Ok (VTable (table_map f t))
  | VNum y => Ok (VNum (f y))
  | VMulti o =>
      match fuel with
      | 0 => Raise OutOfFuel
      | S n =>
          (* MultipleRiskMeasureResult.__op *)
          c <- contents h o ;;
          items <- mapM (fun kv => v' <- value_op n h f (snd kv) ;;
                                   Ok (fst kv, v')) (snd c) ;;
          Ok (VMulti (Own (fst c) (dict_of items)))
      end
  | _ => Raise TypeError
  end.

(** [MultipleRiskMeasureResult.__mul__] *)
Definition multi_mul (fuel : nat) (h : store) (self : multi) (other : value)
  : res value :=
  match other with
  | VNum x => value_op (S fuel) h (fun y => num_mul y x) (VMulti self)
  | _ => Ok (VExc (ValueError msg_multiply))
  end.

(** ** The interpreter

    Two behaviours of Python that the module does not fix: the order in
    which a [set] is iterated, given the sequence it was built from, and
    whether [Future.set_result] on a future that is done raises
    [InvalidStateError] (it does since Python 3.8) or overwrites. *)

Record Interp : Type := mkInterp {
  set_iter : list RiskMeasure -> list RiskMeasure;
  single_shot : bool
}.

(** ** [_compose] and [MultipleRiskMeasureResult.__add__] *)

Fixpoint merge_keys (compose_rec : value -> value -> res value)
    (result : list (RiskMeasure * value)) (all_keys : list RiskMeasure)
    (results : list (RiskMeasure * value)) : res (list (RiskMeasure * value)) :=
  match all_keys with
  | [] => Ok results
  | k :: rest =>
      match dict_get result k with
      | None => merge_keys compose_rec result rest results
      | Some v =>
          match dict_get results k with
          | Some old =>
              v' <- compose_rec old v ;;
              merge_keys compose_rec result rest (dict_set results k v')
          | None => merge_keys compose_rec result rest (dict_set results k v)
          end
      end
  end.

(** The futures [{k: PricingFuture(r[k]) if k in r else None for k in all_keys}];
    a [None] among them fails the constructor of the future. *)
Definition futures_for_keys (r : list (RiskMeasure * value))
    (all_keys : list RiskMeasure) : res (list (RiskMeasure * future)) :=
  mapM (fun k => match dict_get r k with
                 | Some v => Ok (k, PricingFuture v)
                 | None => Raise AttributeError
                 end) all_keys.

(** [MultipleRiskMeasureResult.__add__] with a result as right operand *)
Definition multi_add_multi (compose_rec : value -> value -> res value)
    (fuel : nat) (py : Interp) (h : store) (self other : multi) : res value :=
  cs <- contents h self ;;
  co <- contents h other ;;
  compatible <- _risk_keys_compatible fuel h (VMulti self) (VMulti other) ;;
  if negb compatible then Raise (ValueError msg_matching)
  else
    let instruments_equal := Priceable_eqb (fst cs) (fst co) in
    overlap <-
      (if negb (isdisjoint (keys (snd cs)) (keys (snd co))) && instruments_equal
       then ds <- multi_dates h self ;;
            do <- multi_dates h other ;;
            Ok (negb (isdisjoint_labels ds do))
       else Ok false) ;;
    if (overlap : bool) then Raise (ValueError msg_overlap)
    else
      let all_keys := set_iter py (keys (snd cs) ++ keys (snd co)) in
      if negb instruments_equal
      then
        f1 <- futures_for_keys (snd cs) all_keys ;;
        f2 <- futures_for_keys (snd co) all_keys ;;
        Ok (VTree (PortfolioRiskResult
                     [fst cs; fst co] all_keys
                     [new_MultipleRiskMeasureFuture (fst cs) f1;
                      new_MultipleRiskMeasureFuture (fst co) f2]))
      else
        r1 <- merge_keys compose_rec (snd cs) all_keys [] ;;
        r2 <- merge_keys compose_rec (snd co) all_keys r1 ;;
        Ok (VMulti (Own (fst cs) r2)).

Fixpoint _compose (fuel : nat) (py : Interp) (h : store) (lhs rhs : value)
  {struct fuel} : res value :=
  match lhs, rhs with
  | VFloat l, VFloat r =>
      if option_eqb Z.eqb (rk_date (f_risk_key l)) (rk_date (f_risk_key r))
      then Ok rhs
      else s <- compose [lhs; rhs] ;; Ok (VSeries s)
  | VFloat l, VSeries r =>
      s <- compose [lhs] ;;
      Ok (VSeries (series_sort_index (series_combine_first s r)))
  | VSeries l, VSeries r =>
      Ok (VSeries (series_sort_index (series_combine_first r l)))
  | VSeries l, VFloat r =>
      s <- compose [rhs] ;;
      Ok (VSeries (series_sort_index (series_combine_first s l)))
  | VTable l, VTable r =>
      Ok (VTable (mkDataFrameWithInfo
                    (t_risk_key l)
                    (Dated (sort_rows
                              (filter (fun e => negb (existsb (option_eqb Z.eqb (fst e))
                                                              (map fst (dated_rows r))))
                                      (dated_rows l)
                               ++ dated_rows r)))
                    (t_error l)))
  | VMulti a, VMulti b =>
      match fuel with
      | 0 => Raise OutOfFuel
      | S n => multi_add_multi (_compose n py h) n py h a b
      end
  | _, _ => Raise (RuntimeError msg_cannot_compose)
  end.

(** [MultipleRiskMeasureResult.__add__] *)
Definition multi_add (fuel : nat) (py : Interp) (h : store) (self : multi)
    (other : value) : res value :=
  match other with
  | VNum x => value_op (S fuel) h (fun y => num_add y x) (VMulti self)
  | VMulti o => multi_add_multi (_compose fuel py h) fuel py h self o
  | _ => Raise (ValueError msg_add_multi)
  end.

(** ** [PricingFuture.__mul__] and [PortfolioRiskResult.__mul__] *)

(** [HistoricalPricingFuture(v)]: the constructor takes [v] for its
    futures. *)
Definition historical_of_value (h : store) (v : value) : res future :=
  match v with
  | VSeries s => match s_data s with [] => Raise IndexError | _ => Raise AttributeError end
  | VTable _ => Raise AttributeError   (* the names of its columns are no futures *)
  | VMulti o => c <- contents h o ;;
                match snd c with [] => Raise IndexError | _ => Raise AttributeError end
  | VTree _ | VStr _ => Raise AttributeError
  | _ => Raise TypeError
  end.

(** [self.__class__(v)]: a [PricingFuture] is built from its result, the
    other classes take other arguments. *)
Definition construct (h : store) (self : future) (v : value) : res future :=
  match self with
  | PricingFuture _ => Ok (PricingFuture v)
  | MultipleRiskMeasureFuture _ _ _ => Raise TypeError
  | HistoricalPricingFuture _ _ => historical_of_value h v
  | Nested _ => Raise TypeError
  end.

(** [r * other] for the result [r] of a future.  Modelled from the spec:
    the product with a number of a scalar, a series or a table, whose
    classes are defined in gs_quant.risk: it "scales a resolved
    Scalar/Series/Table's numeric payload". *)
Definition value_mul (tree_mul_rec : tree -> value -> res value)
    (fuel : nat) (h : store) (r : value) (other : value) : res value :=
  match r, other with
  | VTree t, _ => tree_mul_rec t other
  | VMulti o, _ => multi_mul fuel h o other
  | _, VNum x => value_op fuel h (fun y => num_mul y x) r
  | _, _ => Raise TypeError
  end.

(** [PricingFuture.__mul__] *)
Definition PricingFuture_mul (tree_mul_rec : tree -> value -> res value)
    (fuel : nat) (h : store) (self : future) (other : value) : res future :=
  match other with
  | VNum _ =>
      r <- value_mul tree_mul_rec fuel h (result_of self) other ;;
      construct h self r
  | _ => Raise (ValueError msg_multiply)
  end.

(** [PortfolioRiskResult.__mul__] *)
Fixpoint tree_mul (fuel : nat) (h : store) (self : tree) (other : value)
  {struct fuel} : res value :=
  match fuel with
  | 0 => Raise OutOfFuel
  | S n =>
      match other with
      | VNum _ =>
          fs <- mapM (fun f =>
                        match f with
                        | Nested t' => r <- tree_mul n h t' other ;; as_nested r
                        | _ => PricingFuture_mul (tree_mul n h) n h f other
                        end) (futures_of self) ;;
          Ok (VTree (PortfolioRiskResult (portfolio_of self)
                                         (risk_measures_of self) fs))
      | _ => Ok (VExc (ValueError msg_multiply))
      end
  end.

(** ** Calls that write: a result together with the store they leave *)

Definition M (A : Type) : Type := store -> res A * store.

Definition retS {A : Type} (a : A) : M A := fun h => (Ok a, h).
Definition raiseS {A : Type} (e : exn) : M A := fun h => (Raise e, h).
Definition bindS {A B : Type} (c : M A) (k : A -> M B) : M B :=
  fun h => match c h with
           | (Ok a, h') => k a h'
           | (Raise e, h') => (Raise e, h')
           end.
(** A call that only reads. *)
Definition reading {A : Type} (c : store -> res A) : M A := fun h => (c h, h).

Notation "x <~ c ;; k" := (bindS c (fun x => k))
  (at level 61, c at next level, right associativity).

Fixpoint mapS {A B : Type} (f : A -> M B) (l : list A) : M (list B) :=
  match l with
  | [] => retS []
  | x :: t => y <~ f x ;; ys <~ mapS f t ;; retS (y :: ys)
  end.

Fixpoint zip {A B : Type} (a : list A) (b : list B) : list (A * B) :=
  match a, b with
  | x :: ta, y :: tb => (x, y) :: zip ta tb
  | _, _ => []
  end.

(** ** [PortfolioRiskResult.__add__] *)

(** [as_multiple_result_futures]: a tree of several measures is returned as
    it is, with its own futures; a tree of one measure gets a new future
    around each of its futures. *)
Fixpoint as_multiple_result_futures (fuel : nat) (portfolio_result : tree)
  {struct fuel} : res tree :=
  match fuel with
  | 0 => Raise OutOfFuel
  | S n =>
      match risk_measures_of portfolio_result with
      | _ :: _ :: _ => Ok portfolio_result
      | rms =>
          mr_futures <-
            mapM (fun pf =>
                    match snd pf with
                    | Nested t' =>
                        r <- as_multiple_result_futures n t' ;; Ok (Nested r)
                    | f =>
                        match rms with
                        | m :: _ => Ok (new_MultipleRiskMeasureFuture (fst pf) [(m, f)])
                        | [] => Raise IndexError
                        end
                    end)
                 (zip (portfolio_of portfolio_result) (futures_of portfolio_result)) ;;
          Ok (PortfolioRiskResult (portfolio_of portfolio_result) rms mr_futures)
      end
  end.

(** [future.result()[src_risk_measure] = value]: the object written to is
    the one the future holds; one that the store holds is written there, so
    that every tree that refers to it sees the entry. *)
Definition set_result_item (f : future) (m : RiskMeasure) (v : value) : M future :=
  match result_of f with
  | VMulti (Own i d) =>
      let r := VMulti (Own i (dict_set d m v)) in
      match f with
      | PricingFuture _ => retS (PricingFuture r)
      | MultipleRiskMeasureFuture inst m2f _ =>
          retS (MultipleRiskMeasureFuture inst m2f r)
      | HistoricalPricingFuture fs _ => retS (HistoricalPricingFuture fs r)
      | Nested t => raiseS TypeError
      end
  | VMulti (Shared l) =>
      fun h => match nth_error h l with
               | Some c => (Ok f, update h l (fst c, dict_set (snd c) m v))
               | None => (Raise (RuntimeError "no object at this address"), h)
               end
  | _ => raiseS TypeError
  end.

(** The body of [try: ... except KeyError: pass] in [set_value]. *)
Definition set_value_leaf (fuel : nat) (src_result : tree)
    (src_risk_measure : RiskMeasure) (priceable : Priceable) (f : future)
  : M future :=
  fun h =>
    match tree_getitem fuel h src_result (KPriceable priceable) with
    | Raise KeyError => (Ok f, h)
    | Raise e => (Raise e, h)
    | Ok value0 =>
        let picked :=
          match value0 with
          | VMulti o => multi_getitem h o (KMeasure src_risk_measure)
          | _ => Ok value0
          end in
        match picked with
        | Raise KeyError => (Ok f, h)
        | Raise e => (Raise e, h)
        | Ok v => set_result_item f src_risk_measure v h
        end
    end.

(** [set_value(dest_result, src_result, src_risk_measure)]; what it returns
    here is [dest_result] with the objects it owns written. *)
Fixpoint set_value (fuel : nat) (dest_result : tree) (src_result : tree)
    (src_risk_measure : RiskMeasure) {struct fuel} : M tree :=
  match fuel with
  | 0 => raiseS OutOfFuel
  | S n =>
      let step (pf : Priceable * future) : M future :=
        match snd pf with
        | Nested t' =>
            r <~ set_value n t' src_result src_risk_measure ;; retS (Nested r)
        | f => set_value_leaf n src_result src_risk_measure (fst pf) f
        end in
      (* the futures beyond the length of the portfolio are not visited *)
      let visited := zip (portfolio_of dest_result) (futures_of dest_result) in
      fs <~ mapS step visited ;;
      retS (PortfolioRiskResult (portfolio_of dest_result)
              (risk_measures_of dest_result)
              (fs ++ skipn (List.length visited) (futures_of dest_result)))
  end.

Fixpoint set_values (fuel : nat) (dest_result : tree) (src_result : tree)
    (ms : list RiskMeasure) : M tree :=
  match ms with
  | [] => retS dest_result
  | m :: rest =>
      r <~ set_value fuel dest_result src_result m ;;
      set_values fuel r src_result rest
  end.

(** [first_value(portfolio_result)], which reads the first instrument of
    the portfolio of [self]. *)
Definition first_value (fuel : nat) (h : store) (self : tree)
    (portfolio_result : tree) : res value :=
  match all_instruments (Portfolio (portfolio_of self)) with
  | [] => Raise StopIteration
  | i :: _ => tree_getitem fuel h portfolio_result (KPriceable (Instrument i))
  end.

(** [_risk_keys_compatible(first_value(self), first_value(self))] *)
Definition provenance_check (fuel : nat) (h : store) (self : tree) : res bool :=
  l <- first_value fuel h self self ;;
  r <- first_value fuel h self self ;;
  _risk_keys_compatible fuel h l r.

Definition isdisjoint_nat (a b : list nat) : bool :=
  negb (existsb (fun x => existsb (Nat.eqb x) b) a).

(** The test before [raise ValueError('Results overlap ...')]: the three
    conjuncts are evaluated from the left, as far as needed. *)
Definition results_overlap (fuel : nat) (h : store) (self other : tree)
  : res bool :=
  if negb (isdisjoint (risk_measures_of self) (risk_measures_of other))
  then
    ds <- tree_dates fuel h self ;;
    do <- tree_dates fuel h other ;;
    if negb (isdisjoint_labels ds do)
    then Ok (negb (isdisjoint_nat
                     (all_instruments (Portfolio (portfolio_of self)))
                     (all_instruments (Portfolio (portfolio_of other)))))
    else Ok false
  else Ok false.

(** [MultipleRiskMeasureFuture.__add__] *)
Definition MultipleRiskMeasureFuture_add (fuel : nat) (py : Interp)
    (instrument : Priceable) (self_result : value) (other : future) : M future :=
  match other with
  | MultipleRiskMeasureFuture _ _ other_result =>
      reading (fun h =>
        result <- match self_result with
                  | VMulti o => multi_add fuel py h o other_result
                  | _ => Raise TypeError
                  end ;;
        items <- match result with
                 | VMulti o => c <- contents h o ;; Ok (snd c)
                 | _ => Raise AttributeError
                 end ;;
        let ret := new_MultipleRiskMeasureFuture instrument
                     (map (fun kv => (fst kv, PricingFuture (snd kv))) items) in
        (* ret._set_result(): the constructor has set the result already *)
        if single_shot py then Raise InvalidStateError else Ok ret)
  | _ => raiseS AttributeError
  end.

(** [isinstance(other, self.__class__)]; every class here derives from
    [PricingFuture]. *)
Definition isinstance_class_of (other self : future) : bool :=
  match self, other with
  | PricingFuture _, _ => true
  | MultipleRiskMeasureFuture _ _ _, MultipleRiskMeasureFuture _ _ _ => true
  | HistoricalPricingFuture _ _, HistoricalPricingFuture _ _ => true
  | Nested _, Nested _ => true
  | _, _ => false
  end.

(** [PricingFuture.__add__] with a future as [other]; the message of its
    [ValueError] reads [other.__class__.name], which no class has. *)
Definition PricingFuture_add (fuel : nat) (py : Interp) (self other : future)
  : M future :=
  if isinstance_class_of other self
  then reading (fun h =>
         r <- _compose fuel py h (result_of self) (result_of other) ;;
         construct h self r)
  else raiseS AttributeError.

(** [future + other_future] *)
Definition future_add (tree_add_rec : tree -> value -> M value) (fuel : nat)
    (py : Interp) (f g : future) : M future :=
  match f with
  | Nested t =>
      match g with
      | Nested t' => r <~ tree_add_rec t (VTree t') ;; reading (fun _ => as_nested r)
      | _ => raiseS (ValueError msg_add_tree)
      end
  | MultipleRiskMeasureFuture inst _ r => MultipleRiskMeasureFuture_add fuel py inst r g
  | _ => PricingFuture_add fuel py f g
  end.

(** [future + other] with a number as [other] *)
Definition future_add_num (tree_add_rec : tree -> value -> M value) (fuel : nat)
    (py : Interp) (f : future) (x : num) : M future :=
  match f with
  | Nested t => r <~ tree_add_rec t (VNum x) ;; reading (fun _ => as_nested r)
  | MultipleRiskMeasureFuture _ _ _ => raiseS AttributeError
  | _ => reading (fun h =>
           r <- _compose fuel py h (result_of f) (VNum x) ;; construct h f r)
  end.

Definition same_portfolio (t1 t2 : tree) : bool :=
  Priceable_eqb (Portfolio (portfolio_of t1)) (Portfolio (portfolio_of t2)).

Fixpoint tree_add (fuel : nat) (py : Interp) (self : tree) (other : value)
  {struct fuel} : M value :=
  match fuel with
  | 0 => raiseS OutOfFuel
  | S n =>
      match other with
      | VNum x =>
          fs <~ mapS (fun f => future_add_num (tree_add n py) n py f x)
                     (futures_of self) ;;
          retS (VTree (PortfolioRiskResult (portfolio_of self)
                                           (risk_measures_of self) fs))
      | VTree other_tree =>
          compatible <~ reading (fun h => provenance_check n h self) ;;
          if negb compatible then retS (VExc (ValueError msg_matching))
          else
            overlap <~ reading (fun h => results_overlap n h self other_tree) ;;
            if (overlap : bool) then raiseS (ValueError msg_overlap)
            else
              self_mr <~ reading (fun _ => as_multiple_result_futures n self) ;;
              other_mr <~ reading (fun _ => as_multiple_result_futures n other_tree) ;;
              let self_futures := futures_of self_mr in
              let other_futures := futures_of other_mr in
              let rms := set_iter py (risk_measures_of self
                                      ++ risk_measures_of other_tree) in
              if same_portfolio self other_tree
              then
                fs <~ mapS (fun fg => future_add (tree_add n py) n py (fst fg) (snd fg))
                           (zip self_futures other_futures) ;;
                retS (VTree (PortfolioRiskResult (portfolio_of self) rms fs))
              else
                let ret := PortfolioRiskResult
                             (portfolio_add (portfolio_of self) (portfolio_of other_tree))
                             rms (self_futures ++ other_futures) in
                match rms with
                | _ :: _ :: _ =>
                    (* Now fill in overlapping values *)
                    r1 <~ set_values n ret other_tree (risk_measures_of other_tree) ;;
                    r2 <~ set_values n r1 self
                            (filter (fun m => negb (mem m (risk_measures_of other_tree)))
                                    (risk_measures_of self)) ;;
                    retS (VTree r2)
                | _ => retS (VTree ret)
                end
      | _ => raiseS (ValueError msg_add_tree)
      end
  end.

Definition nodup_measures (l : list RiskMeasure) : list RiskMeasure :=
  nodup Nat.eq_dec l.

(** An interpreter that iterates a set in the order of first insertion. *)
Definition python (single_shot : bool) : Interp :=
  mkInterp nodup_measures single_shot.

(** ** The states of a future *)

Inductive state (A : Type) : Type :=
| PENDING
| CANCELLED
| FINISHED (r : A).

Arguments PENDING {A}.
Arguments CANCELLED {A}.
Arguments FINISHED {A} r.

(** What a call that may wait does: it returns, raises, or waits on. *)
Inductive outcome (A : Type) : Type :=
| Returns (a : A)
| Raises (e : exn)
| Blocks.

Arguments Returns {A} a.
Arguments Raises {A} e.
Arguments Blocks {A}.

Definition done {A : Type} (st : state A) : bool :=
  match st with PENDING => false | _ => true end.

(** [concurrent.futures.Future.result(timeout)] of a future that nobody
    completes meanwhile. *)
Definition Future_result {A : Type} (st : state A) (timeout : option nat)
  : outcome A :=
  match st with
  | FINISHED r => Returns r
  | CANCELLED => Raises CancelledError
  | PENDING => match timeout with
               | Some _ => Raises TimeoutError
               | None => Blocks
               end
  end.

(** [PricingFuture.result]; [is_entered] is
    [PricingContext.current.active_context.is_entered]. *)
Definition PricingFuture_result {A : Type} (is_entered : bool) (st : state A)
    (timeout : option nat) : outcome A :=
  if negb (done st) && is_entered
  then Raises (RuntimeError msg_same_context)
  else Future_result st timeout.

(** A [PortfolioRiskResult] as a future: the tree and the state that
    [CompositeResultFuture] keeps, whose result is the list of the results
    of the futures. *)
Record PortfolioRiskResultFuture : Type := mkPortfolioRiskResultFuture {
  tree_of : tree;
  state_of : state (list value)
}.

(** [CompositeResultFuture._set_result] *)
Definition CompositeResultFuture_set_result (fs : list future) : state (list value) :=
  FINISHED (map result_of fs).

(** [CompositeResultFuture.result], inherited from [PricingFuture] *)
Definition CompositeResultFuture_result (is_entered : bool)
    (self : PortfolioRiskResultFuture) (timeout : option nat)
  : outcome (list value) :=
  PricingFuture_result is_entered (state_of self) timeout.

(** [PortfolioRiskResult.result] *)
Definition PortfolioRiskResult_result (is_entered : bool)
    (self : PortfolioRiskResultFuture) (timeout : option nat)
  : outcome PortfolioRiskResultFuture :=
  match PricingFuture_result is_entered (state_of self) timeout with
  | Returns _ => Returns self
  | Raises e => Raises e
  | Blocks => Blocks
  end.

(** ** [HistoricalPricingFuture._set_result] *)

Definition is_failure (r : value) : bool :=
  match r with VError _ | VExc _ => true | _ => false end.

Definition msg_historical_failed : string := "Historical pricing failed".

Section Historical.

(** [compose_of b components] stands for the call [b.compose(components)],
    the lookup of the method included.  The [compose] methods are those of
    the result classes of gs_quant.risk, which are not part of this
    module, and [_set_result] hands them the results of all the dates, the
    failed ones among them: what they make of those is a parameter here. *)
Variable compose_of : value -> list value -> res value.

(** What [_set_result] leaves: the state of the future, or the exception
    that leaves the call, and the lines written to the logger.  The
    components [r[k] for r in results] are read before the method is
    called. *)
Definition HistoricalPricingFuture_set_result (fuel : nat) (h : store)
    (results : list value) : res (state value) * list string :=
  match find (fun r => negb (is_failure r)) results with
  | None =>
      match results with
      | r0 :: _ => (Ok (FINISHED r0), [msg_historical_failed])
      | [] => (Raise IndexError, [])
      end
  | Some base =>
      (match base with
       | VMulti o =>
           c <- contents h o ;;
           items <- mapM (fun k =>
                            b <- multi_getitem h o (KMeasure k) ;;
                            components <-
                              mapM (fun r => value_getitem (tree_getitem fuel h)
                                                           h r (KMeasure k))
                                   results ;;
                            v <- compose_of b components ;;
                            Ok (k, v)) (keys (snd c)) ;;
           Ok (FINISHED (VMulti (Own (fst c) (dict_of items))))
       | _ => v <- compose_of base results ;; Ok (FINISHED v)
       end, [])
  end.

End Historical.

(** An instance of the parameter: the [compose] of scalars for every
    class. *)
Definition compose_scalars (b : value) (components : list value) : res value :=
  s <- compose components ;; Ok (VSeries s).

(** ** The shape of a tree

    "The tree shape (branching and child count at each level) exactly
    mirrors the nested portfolio it was built from": an instrument has a
    future of its own, a nested portfolio has the tree of that portfolio,
    either among the futures or as the result of one. *)

Fixpoint mirrors_entry (p : Priceable) (f : future) {struct p} : bool :=
  match p with
  | Instrument _ =>
      match f with
      | Nested _ | PricingFuture (VTree _) => false
      | _ => true
      end
  | Portfolio qs =>
      match f with
      | Nested (PortfolioRiskResult qs' _ fs)
      | PricingFuture (VTree (PortfolioRiskResult qs' _ fs)) =>
          Priceable_eqb (Portfolio qs) (Portfolio qs')
          && (fix all2 (l1 : list Priceable) (l2 : list future) {struct l1} : bool :=
                match l1, l2 with
                | [], [] => true
                | q :: t1, g :: t2 => mirrors_entry q g && all2 t1 t2
                | _, _ => false
                end) qs fs
      | _ => false
      end
  end.

Fixpoint mirrors_entries (ps : list Priceable) (fs : list future) : bool :=
  match ps, fs with
  | [], [] => true
  | p :: t1, f :: t2 => mirrors_entry p f && mirrors_entries t1 t2
  | _, _ => false
  end.

Definition mirrors (t : tree) : bool :=
  mirrors_entries (portfolio_of t) (futures_of t).

(** ** Sample data *)

Definition ex_key (d : option date) (m : RiskMeasure) : RiskKey :=
  mkRiskKey 0 d (CloseMarket d (Some 1)) 0 None (Some m).

Definition ex_float (d : date) (m : RiskMeasure) (q : Z) : FloatWithInfo :=
  mkFloatWithInfo (ex_key (Some d) m) (Num (inject_Z q)) [].

Arguments ex_float d%_Z m%_nat q%_Z.

Definition ex_series (m : RiskMeasure) (l : list (date * num)) : SeriesWithInfo :=
  mkSeriesWithInfo (historical_risk_key (ex_key None m)) l [].

Definition ex_error (d : date) (m : RiskMeasure) : ErrorValue :=
  mkErrorValue (ex_key (Some d) m) "pricing failed".

Arguments ex_error d%_Z m%_nat.

Definition DollarPrice : RiskMeasure := 1.
Definition IRDelta : RiskMeasure := 2.
Definition Price : RiskMeasure := 3.

Definition swap1 : Priceable := Instrument 1.
Definition swap2 : Priceable := Instrument 2.
Definition swap3 : Priceable := Instrument 3.

(** Two series: [ex_s2] has no value on day 1. *)
Definition ex_s1 : SeriesWithInfo :=
  ex_series DollarPrice [(1%Z, Num (inject_Z 5)); (3%Z, Num (inject_Z 7))].
Definition ex_s2 : SeriesWithInfo :=
  ex_series DollarPrice [(2%Z, Num (inject_Z 6)); (1%Z, NaN)].

Definition is_multi (v : value) : bool :=
  match v with VMulti _ => true | _ => false end.

(** ** Scaling *)

(** A value that is a numeric payload: a scalar, a series, a number. *)
Definition is_payload (v : value) : bool :=
  match v with VFloat _ | VSeries _ | VNum _ => true | _ => false end.

Definition scaled (x : num) (v : value) : value :=
  match v with
  | VFloat f => VFloat (float_map (fun y => num_mul y x) f)
  | VSeries s => VSeries (series_map (fun y => num_mul y x) s)
  | VNum y => VNum (num_mul y x)
  | _ => v
  end.

Definition plain_leaf (f : future) : bool :=
  match f with PricingFuture v => is_payload v | _ => false end.

(** One failed date and two priced dates of one instrument. *)
Definition ex_three_dates : list value :=
  [VError (ex_error 1 DollarPrice);
   VFloat (ex_float 2 DollarPrice 5);
   VFloat (ex_float 3 DollarPrice 6)].

(** A portfolio with a nested portfolio, and a tree that mirrors it. *)
Definition ex_nested_portfolio : list Priceable :=
  [swap1; Portfolio [swap2; swap3; Portfolio [swap1]]].

Definition ex_nested_tree : tree :=
  PortfolioRiskResult ex_nested_portfolio [DollarPrice]
    [PricingFuture (VFloat (ex_float 1 DollarPrice 10));
     Nested (PortfolioRiskResult [swap2; swap3; Portfolio [swap1]] [DollarPrice]
               [PricingFuture (VFloat (ex_float 1 DollarPrice 20));
                PricingFuture (VFloat (ex_float 1 DollarPrice 30));
                Nested (PortfolioRiskResult [swap1] [DollarPrice]
                          [PricingFuture (VFloat (ex_float 1 DollarPrice 10))])])].

(** The prices of three swaps. *)
Definition ex_prices : tree :=
  PortfolioRiskResult [swap1; swap2; swap3] [DollarPrice]
    [PricingFuture (VFloat (ex_float 1 DollarPrice 6407332));
     PricingFuture (VFloat (ex_float 1 DollarPrice 5423405));
     PricingFuture (VFloat (ex_float 1 DollarPrice 4439478))].

(** A result of two measures for [swap1]. *)
Definition ex_multi : multi :=
  Own swap1 [(DollarPrice, VFloat (ex_float 1 DollarPrice 10));
             (IRDelta, VSeries ex_s1)].

(** ** Overlap *)

Definition overlap {A : Type} (a b : list A) : Prop :=
  exists x, In x a /\ In x b.

(** Prices of two swaps, one of them in [ex_prices] too, in another
    measure. *)
Definition swap4 : Priceable := Instrument 4.

Definition ex_other_prices : tree :=
  PortfolioRiskResult [swap1; swap4] [Price]
    [PricingFuture (VFloat (ex_float 1 Price 11));
     PricingFuture (VFloat (ex_float 1 Price 44))].

(** A tree of two measures whose one result is an object of the store
    [ex_store], at address 0. *)
Definition ex_store : store :=
  [(swap1, [(DollarPrice, VFloat (ex_float 1 DollarPrice 10));
            (IRDelta, VFloat (ex_float 1 IRDelta 20))])].

Definition ex_two_measures : tree :=
  PortfolioRiskResult [swap1] [DollarPrice; IRDelta]
    [MultipleRiskMeasureFuture swap1
       [(DollarPrice, PricingFuture (VFloat (ex_float 1 DollarPrice 10)));
        (IRDelta, PricingFuture (VFloat (ex_float 1 IRDelta 20)))]
       (VMulti (Shared 0))].

(** A tree of two measures over two swaps, its slice by [DollarPrice], and
    the prices of the same swaps in a third measure. *)
Definition ex_calc : tree :=
  PortfolioRiskResult [swap1; swap2] [DollarPrice; IRDelta]
    [new_MultipleRiskMeasureFuture swap1
       [(DollarPrice, PricingFuture (VFloat (ex_float 1 DollarPrice 10)));
        (IRDelta, PricingFuture (VFloat (ex_float 1 IRDelta 20)))];
     new_MultipleRiskMeasureFuture swap2
       [(DollarPrice, PricingFuture (VFloat (ex_float 1 DollarPrice 30)));
        (IRDelta, PricingFuture (VFloat (ex_float 1 IRDelta 40)))]].

Definition ex_sliced : tree :=
  PortfolioRiskResult [swap1; swap2] [DollarPrice]
    [new_MultipleRiskMeasureFuture swap1
       [(DollarPrice, PricingFuture (VFloat (ex_float 1 DollarPrice 10)))];
     new_MultipleRiskMeasureFuture swap2
       [(DollarPrice, PricingFuture (VFloat (ex_float 1 DollarPrice 30)))]].

Definition ex_third_measure : tree :=
  PortfolioRiskResult [swap1; swap2] [Price]
    [PricingFuture (VFloat (ex_float 1 Price 11));
     PricingFuture (VFloat (ex_float 1 Price 22))].

Definition ex_dollar_prices : tree :=
  PortfolioRiskResult [swap1; swap2] [DollarPrice]
    [PricingFuture (VFloat (ex_float 1 DollarPrice 10));
     PricingFuture (VFloat (ex_float 1 DollarPrice 30))].

(** [(self + other)[m][p]] *)
Definition sum_sliced_at (fuel : nat) (py : Interp) (h : store)
    (self other : tree) (m : RiskMeasure) (p : Priceable) : res value :=
  sum <- fst (tree_add fuel py self (VTree other) h) ;;
  slice <- value_getitem (tree_getitem fuel h) h sum (KMeasure m) ;;
  value_getitem (tree_getitem fuel h) h slice (KPriceable p).

(** The prices of one swap on two dates. *)
Definition ex_history : tree :=
  PortfolioRiskResult [swap1] [DollarPrice]
    [PricingFuture
       (VSeries (ex_series DollarPrice
                   [(1%Z, Num (inject_Z 10)); (2%Z, Num (inject_Z 11))]))].

(** [tree[p][m]], read in the store [h] *)
Definition measure_at (fuel : nat) (h : store) (t : tree) (p : Priceable)
    (m : RiskMeasure) : res value :=
  v <- tree_getitem fuel h t (KPriceable p) ;;
  value_getitem (tree_getitem fuel h) h v (KMeasure m).

(** ** Historical trees

    What the indexing of a historical tree is stated on: the tree below a
    nested portfolio, the value that a path leads to, the first position
    of an entry, and the trees whose every instrument has a result of all
    the measures, a series on each. *)

(** The tree that a future stands for, when it stands for one. *)
Definition sub_of (f : future) : option tree :=
  match f with
  | Nested t | PricingFuture (VTree t) => Some t
  | _ => None
  end.

(** The result of the future at the end of a path. *)
Fixpoint leaf_at (fs : list future) (path : PortfolioPath) : option value :=
  match path with
  | [] => None
  | [j] => option_map result_of (nth_error fs j)
  | j :: rest =>
      match nth_error fs j with
      | Some f => match sub_of f with
                  | Some t => leaf_at (futures_of t) rest
                  | None => None
                  end
      | None => None
      end
  end.

(** The first position of [key] among [ps], counted from [i]. *)
Fixpoint first_index (key : Priceable) (i : nat) (ps : list Priceable) : option nat :=
  match ps with
  | [] => None
  | p :: t => if Priceable_eqb p key then Some i else first_index key (S i) t
  end.

Fixpoint depth (p : Priceable) {struct p} : nat :=
  match p with
  | Instrument _ => 0
  | Portfolio qs =>
      S ((fix deepest (l : list Priceable) {struct l} : nat :=
            match l with
            | [] => 0
            | q :: t => Nat.max (depth q) (deepest t)
            end) qs)
  end.

Definition tree_depth (t : tree) : nat := depth (Portfolio (portfolio_of t)).

(** [_value_for_date] where the series has the date. *)
Definition value_on (d : date) (s : SeriesWithInfo) : FloatWithInfo :=
  let k := s_risk_key s in
  mkFloatWithInfo
    (mkRiskKey (provider k) (Some d)
       (CloseMarket (Some d)
          (match market k with
           | CloseMarket _ l => l
           | _ => None
           end))
       (params k) (scenario k) (risk_measure k))
    (reindexed (s_data s) d) (s_error s).

(** The rows of a frame on the date [d]. *)
Definition rows_on (d : date) (f : frame) : list Row :=
  match f with
  | Dated rows => map snd (filter (at_date d) rows)
  | Plain _ => []
  end.

(** [_value_for_date] where the table has rows on the date. *)
Definition table_on (d : date) (t : DataFrameWithInfo) : DataFrameWithInfo :=
  mkDataFrameWithInfo (key_on d (t_risk_key t)) (Plain (rows_on d (t_frame t)))
                      (t_error t).

Definition on_date (d : date) (v : value) : value :=
  match v with
  | VSeries s => VFloat (value_on d s)
  | VTable t => VTable (table_on d t)
  | _ => v
  end.

(** A series with the date [d] in its index, or a table with rows on it. *)
Definition has_date (d : date) (v : value) : bool :=
  match v with
  | VSeries s => memZ d (index (s_data s))
  | VTable t => match rows_on d (t_frame t) with [] => false | _ => true end
  | _ => false
  end.

(** What a date leaves of a series or a table: a scalar or a table. *)
Definition is_sliced (v : value) : bool :=
  match v with VFloat _ | VTable _ => true | _ => false end.

(** A value with a numeric payload: a scalar, a series, a table, a
    number. *)
Definition has_payload (v : value) : bool :=
  match v with VFloat _ | VSeries _ | VTable _ | VNum _ => true | _ => false end.

(** The result of a future for an instrument, in a tree of the measures
    [rms] whose values satisfy [Q]: a result of several measures that has
    every measure of the tree, or, in a tree of one measure, the value
    itself. *)
Inductive good_result (h : store) (rms : list RiskMeasure) (Q : value -> bool)
  : value -> Prop :=
| good_multi (o : multi) (inst : Priceable) (items : list (RiskMeasure * value)) :
    contents h o = Ok (inst, items) ->
    NoDup (keys items) ->
    (forall m, In m rms -> In m (keys items)) ->
    forallb (fun kv => Q (snd kv)) items = true ->
    good_result h rms Q (VMulti o)
| good_plain (m0 : RiskMeasure) (v : value) :
    rms = [m0] ->
    has_payload v = true ->
    Q v = true ->
    good_result h rms Q v.

Inductive good_entry (h : store) (rms : list RiskMeasure) (Q : value -> bool)
  : Priceable -> future -> Prop :=
| good_leaf (i : nat) (f : future) :
    sub_of f = None ->
    good_result h rms Q (result_of f) ->
    good_entry h rms Q (Instrument i) f
| good_sub (qs : list Priceable) (f : future) (fs : list future) :
    sub_of f = Some (PortfolioRiskResult qs rms fs) ->
    Forall2 (good_entry h rms Q) qs fs ->
    good_entry h rms Q (Portfolio qs) f.

Definition good (h : store) (Q : value -> bool) (t : tree) : Prop :=
  Forall2 (good_entry h (risk_measures_of t) Q) (portfolio_of t) (futures_of t).

(** The values of an instrument by measure, as its result holds them; in a
    tree of one measure, the value of that measure. *)
Definition leaf_dict (h : store) (rms : list RiskMeasure) (r : value)
  : list (RiskMeasure * value) :=
  match r with
  | VMulti o =>
      match contents h o with
      | Ok c =>
          match rms with
          | [m0] => match dict_get (snd c) m0 with
                    | Some v => [(m0, v)]
                    | None => []
                    end
          | _ => snd c
          end
      | Raise _ => []
      end
  | v => match rms with
         | [m0] => [(m0, v)]
         | _ => []
         end
  end.

(** What [tree[instrument]] answers with for a result [r]. *)
Definition view (h : store) (rms : list RiskMeasure) (r : value) : value :=
  match rms, r with
  | [m0], VMulti o =>
      match contents h o with
      | Ok c => match dict_get (snd c) m0 with Some v => v | None => r end
      | Raise _ => r
      end
  | _, _ => r
  end.

Fixpoint nodupb (l : list RiskMeasure) : bool :=
  match l with
  | [] => true
  | x :: t => negb (mem x t) && nodupb t
  end.

Fixpoint measures_eqb (a b : list RiskMeasure) : bool :=
  match a, b with
  | [], [] => true
  | x :: ta, y :: tb => Nat.eqb x y && measures_eqb ta tb
  | _, _ => false
  end.

(** The result of an instrument of a historical tree: a result of several
    measures, one series with the date [d] for every measure of the tree. *)
Definition historical_result (h : store) (d : date) (rms : list RiskMeasure)
    (r : value) : bool :=
  match r with
  | VMulti o =>
      match contents h o with
      | Ok c =>
          nodupb (keys (snd c))
          && forallb (fun m => mem m (keys (snd c))) rms
          && forallb (fun kv => has_date d (snd kv)) (snd c)
      | Raise _ => false
      end
  | _ => false
  end.

Fixpoint historical_entry (h : store) (d : date) (rms : list RiskMeasure)
    (p : Priceable) (f : future) {struct p} : bool :=
  match p with
  | Instrument _ =>
      match sub_of f with
      | None => historical_result h d rms (result_of f)
      | Some _ => false
      end
  | Portfolio qs =>
      match sub_of f with
      | Some (PortfolioRiskResult qs' rms' fs) =>
          Priceable_eqb (Portfolio qs) (Portfolio qs')
          && measures_eqb rms rms'
          && (fix all2 (l1 : list Priceable) (l2 : list future) {struct l1} : bool :=
                match l1, l2 with
                | [], [] => true
                | q :: t1, g :: t2 => historical_entry h d rms q g && all2 t1 t2
                | _, _ => false
                end) qs fs
      | None => false
      end
  end.

Fixpoint historical_entries (h : store) (d : date) (rms : list RiskMeasure)
    (ps : list Priceable) (fs : list future) : bool :=
  match ps, fs with
  | [], [] => true
  | p :: t1, f :: t2 => historical_entry h d rms p f && historical_entries h d rms t1 t2
  | _, _ => false
  end.

(** A historical tree of several measures with results on the date [d]. *)
Definition historical (h : store) (d : date) (t : tree) : bool :=
  match risk_measures_of t with
  | _ :: _ :: _ =>
      historical_entries h d (risk_measures_of t) (portfolio_of t) (futures_of t)
  | _ => false
  end.

(** [tree[k1][k2]...] *)
Fixpoint getitems (fuel : nat) (h : store) (v : value) (ks : list key) : res value :=
  match ks with
  | [] => Ok v
  | k :: rest =>
      r <- value_getitem (tree_getitem fuel h) h v k ;;
      getitems fuel h r rest
  end.

(** A table of deltas over two dates: two rows on day 1, one on day 2. *)
Definition ex_table (m : RiskMeasure) (q : Z) : DataFrameWithInfo :=
  mkDataFrameWithInfo (historical_risk_key (ex_key None m))
    (Dated [(Some 1%Z, mkRow ["IR"%string; "USD"%string; "1y"%string] (Num (inject_Z q)));
            (Some 1%Z, mkRow ["IR"%string; "USD"%string; "2y"%string] (Num (inject_Z (q + 1))));
            (Some 2%Z, mkRow ["IR"%string; "USD"%string; "1y"%string] (Num (inject_Z (q + 2))))])
    [].

(** A historical tree: two swaps and a nested portfolio with a third,
    two dates, two measures: the price, a series, and the delta, a
    table. *)
Definition ex_leaf (p : Priceable) (q : Z) : future :=
  new_MultipleRiskMeasureFuture p
    [(DollarPrice,
      PricingFuture (VSeries (ex_series DollarPrice
                                [(1%Z, Num (inject_Z q)); (2%Z, Num (inject_Z (q + 1)))])));
     (IRDelta, PricingFuture (VTable (ex_table IRDelta (q + 2))))].

(** The results of a swap in two measures, a series each, over the dates
    [ds]. *)
Definition ex_series_leaf (p : Priceable) (ds : list date) (q : Z) : future :=
  new_MultipleRiskMeasureFuture p
    [(DollarPrice,
      PricingFuture (VSeries (ex_series DollarPrice
                                (map (fun d => (d, Num (inject_Z (q + d)))) ds))));
     (IRDelta,
      PricingFuture (VSeries (ex_series IRDelta
                                (map (fun d => (d, Num (inject_Z (q + d + 2)))) ds))))].

(** A historical tree of two swaps: the first was priced on days 1 and 2,
    the second on day 2 only. *)
Definition ex_gap : tree :=
  PortfolioRiskResult [swap1; swap2] [DollarPrice; IRDelta]
    [ex_series_leaf swap1 [1%Z; 2%Z] 10; ex_series_leaf swap2 [2%Z] 20].

Definition ex_historical : tree :=
  PortfolioRiskResult [swap1; Portfolio [swap3; swap1]; swap2; swap1]
    [DollarPrice; IRDelta]
    [ex_leaf swap1 10;
     Nested (PortfolioRiskResult [swap3; swap1] [DollarPrice; IRDelta]
               [ex_leaf swap3 30; ex_leaf swap1 10]);
     ex_leaf swap2 20;
     ex_leaf swap1 10].


(** ** Auxiliary functions on portfolios *)

Fixpoint Priceables_eqb (l1 l2 : list Priceable) : bool :=
  match l1, l2 with
  | [], [] => true
  | x :: t1, y :: t2 => Priceable_eqb x y && Priceables_eqb t1 t2
  | _, _ => false
  end.

(** The matches inside the nested portfolios of [l], counted from [i]. *)
Fixpoint nested_paths (key : Priceable) (i : nat) (l : list Priceable)
  : list PortfolioPath :=
  match l with
  | [] => []
  | q :: t => map (cons i) (paths q key) ++ nested_paths key (S i) t
  end.

(** The deepest of the entries [l]. *)
Fixpoint deepest (l : list Priceable) : nat :=
  match l with
  | [] => 0
  | q :: t => Nat.max (depth q) (deepest t)
  end.

(** ** A tree sliced entry by entry

    [lam p r] is what the slice makes of the result [r] of the future of the
    instrument [p]. *)

(** The results of [t'] are those of [t], each through [lam], at the first
    path of every instrument; [t'] is a good tree of the measures [rms']
    over the portfolio of [t]. *)
Definition image (h : store) (Q' : value -> bool) (rms' : list RiskMeasure)
    (lam : Priceable -> value -> value) (t t' : tree) : Prop :=
  portfolio_of t' = portfolio_of t
  /\ risk_measures_of t' = rms'
  /\ good h Q' t'
  /\ forall (i : nat) (path : PortfolioPath) (r : value),
       hd_error (paths (Portfolio (portfolio_of t)) (Instrument i)) = Some path ->
       leaf_at (futures_of t) path = Some r ->
       leaf_at (futures_of t') path = Some (lam (Instrument i) r).

Definition entry_image (h : store) (Q' : value -> bool) (rms' : list RiskMeasure)
    (lam : Priceable -> value -> value) (p : Priceable) (f f' : future) : Prop :=
  (sub_of f = None /\ sub_of f' = None /\ result_of f' = lam p (result_of f))
  \/ (exists sub sub', sub_of f = Some sub /\ sub_of f' = Some sub'
                       /\ image h Q' rms' lam sub sub').

(** The future [f'] that the slice puts at an entry [p] comes from the
    future at the first position of [p]. *)
Definition rebuilt (h : store) (Q' : value -> bool) (rms' : list RiskMeasure)
    (lam : Priceable -> value -> value) (ps : list Priceable) (fs : list future)
    (p : Priceable) (f' : future) : Prop :=
  exists j f, first_index p 0 ps = Some j /\ nth_error fs j = Some f
              /\ entry_image h Q' rms' lam p f f'.

Definition map_values (g : value -> value) (d : list (RiskMeasure * value))
  : list (RiskMeasure * value) :=
  map (fun kv => (fst kv, g (snd kv))) d.

(** What the slice by the date [d] makes of a result. *)
Definition date_leaf (h : store) (d : date) (rms : list RiskMeasure) (r : value)
  : value :=
  match rms with
  | [_] => on_date d (view h rms r)
  | _ =>
      match r with
      | VMulti o =>
          match contents h o with
          | Ok c => VMulti (Own (fst c) (map_values (on_date d) (snd c)))
          | Raise _ => r
          end
      | _ => r
      end
  end.

(** What the slice by the measure [m] makes of the result of [p]. *)
Definition measure_leaf (h : store) (m : RiskMeasure) (p : Priceable) (r : value)
  : value :=
  match r with
  | VMulti o =>
      match contents h o with
      | Ok c => VMulti (Own p (filter (fun kv => Nat.eqb (fst kv) m) (snd c)))
      | Raise _ => r
      end
  | _ => r
  end.

(** ** The leaves of a tree

    The futures of a tree that are no trees themselves, at any depth, and
    how deep the trees among the futures are nested. *)

Fixpoint tree_leaves (t : tree) {struct t} : nat :=
  match t with
  | PortfolioRiskResult _ _ fs =>
      (fix count (l : list future) {struct l} : nat :=
         match l with
         | [] => 0
         | Nested t' :: r => tree_leaves t' + count r
         | _ :: r => S (count r)
         end) fs
  end.

Fixpoint tree_height (t : tree) {struct t} : nat :=
  match t with
  | PortfolioRiskResult _ _ fs =>
      S ((fix highest (l : list future) {struct l} : nat :=
            match l with
            | [] => 0
            | Nested t' :: r => Nat.max (tree_height t') (highest r)
            | _ :: r => highest r
            end) fs)
  end.

(** A future of a class whose constructor takes more than a result. *)
Definition is_composite (f : future) : bool :=
  match f with
  | MultipleRiskMeasureFuture _ _ _ | HistoricalPricingFuture _ _ => true
  | _ => false
  end.

(** Prices of one swap under another scenario than [ex_prices]. *)
Definition ex_scenario_prices : tree :=
  PortfolioRiskResult [swap4] [Price]
    [PricingFuture
       (VFloat (mkFloatWithInfo
                  (mkRiskKey 0 (Some 1%Z) (CloseMarket (Some 1%Z) (Some 2)) 0
                             (Some 7) (Some Price))
                  (Num (inject_Z 44)) []))].

(** The leaves among the futures [fs], and the height of the trees among
    them. *)
Fixpoint leaves_of (fs : list future) : nat :=
  match fs with
  | [] => 0
  | Nested t :: r => tree_leaves t + leaves_of r
  | _ :: r => S (leaves_of r)
  end.

Fixpoint highest (fs : list future) : nat :=
  match fs with
  | [] => 0
  | Nested t :: r => Nat.max (tree_height t) (highest r)
  | _ :: r => highest r
  end.

(** ** [CompositeResultFuture]: the futures that a composite waits for

    The futures given to a composite are objects that other code completes
    while the composite exists.  A [world] has the state of every future
    by its address; a future that is finished holds a value, or the
    exception given to [set_exception].  The calls that complete a future
    come one after the other. *)

Definition world := nat -> state (res value).

Definition set_state (w : world) (a : nat) (st : state (res value)) : world :=
  fun b => if Nat.eqb b a then st else w b.

(** [f.result()] of one of the futures: [PricingFuture.result] without a
    timeout; a future that holds an exception raises it. *)
Definition future_result (is_entered : bool) (w : world) (a : nat) : outcome value :=
  match PricingFuture_result is_entered (w a) None with
  | Returns (Ok v) => Returns v
  | Returns (Raise e) => Raises e
  | Raises e => Raises e
  | Blocks => Blocks
  end.

(** [[f.result() for f in self.__futures]] *)
Fixpoint results (is_entered : bool) (w : world) (fs : list nat)
  : outcome (list value) :=
  match fs with
  | [] => Returns []
  | a :: t =>
      match future_result is_entered w a with
      | Returns v =>
          match results is_entered w t with
          | Returns vs => Returns (v :: vs)
          | Raises e => Raises e
          | Blocks => Blocks
          end
      | Raises e => Raises e
      | Blocks => Blocks
      end
  end.

(** [Future.set_result]: where it is single-shot, a future that is done
    refuses it. *)
Definition Future_set_result {B : Type} (py : Interp) (st : state B) (r : B)
  : res (state B) :=
  if done st && single_shot py then Raise InvalidStateError else Ok (FINISHED r).

(** The calls that complete a future. *)
Inductive event : Type :=
| set_result (a : nat) (v : value)
| set_exception (a : nat) (e : exn)
| cancel (a : nat).

Section Composite.
Variable A : Type.
Variable py : Interp.

(** What the [_set_result] of the class sets, given the results of the
    futures: the list itself for [CompositeResultFuture], a result of
    several measures for [MultipleRiskMeasureFuture], the composed series
    for [HistoricalPricingFuture]. *)
Variable make : list value -> res A.

(** The composite: [self.__futures], [self.__pending] (a set), its own
    state, the futures that were given [self.__cb] as callback, once for
    every [add_done_callback], and the exceptions of callbacks, which
    [Future] logs and drops. *)
Record Composite : Type := mkComposite {
  c_futures : list nat;
  c_pending : list nat;
  c_state : state A;
  c_callbacks : list nat;
  c_logged : list exn
}.

Definition with_state (c : Composite) (st : state A) : Composite :=
  mkComposite (c_futures c) (c_pending c) st (c_callbacks c) (c_logged c).

(** [self.__pending.discard(future)] *)
Definition discard (c : Composite) (a : nat) : Composite :=
  mkComposite (c_futures c) (remove Nat.eq_dec a (c_pending c)) (c_state c)
              (c_callbacks c) (c_logged c).

Definition logging (c : Composite) (e : exn) : Composite :=
  mkComposite (c_futures c) (c_pending c) (c_state c) (c_callbacks c)
              (c_logged c ++ [e]).

(** [_set_result]: the state that it sets. *)
Definition Composite_set_result (is_entered : bool) (w : world) (c : Composite)
  : outcome (state A) :=
  match results is_entered w (c_futures c) with
  | Returns rs =>
      match make rs with
      | Ok r =>
          match Future_set_result py (c_state c) r with
          | Ok st => Returns st
          | Raise e => Raises e
          end
      | Raise e => Raises e
      end
  | Raises e => Raises e
  | Blocks => Blocks
  end.

(** [CompositeResultFuture.__init__] *)
Definition Composite_init (is_entered : bool) (w : world) (futures : list nat)
  : outcome Composite :=
  let waiting := filter (fun a => negb (done (w a))) futures in
  let self := mkComposite futures (nodup Nat.eq_dec waiting) PENDING waiting [] in
  match c_pending self with
  | _ :: _ => Returns self
  | [] =>
      match Composite_set_result is_entered w self with
      | Returns st => Returns (with_state self st)
      | Raises e => Raises e
      | Blocks => Blocks
      end
  end.

(** [self.__cb(future)] as [Future] calls it when [future] is done: an
    exception of the callback is logged. *)
Definition Composite_cb (is_entered : bool) (w : world) (self : Composite)
    (future : nat) : outcome Composite :=
  let self := discard self future in
  match c_pending self with
  | _ :: _ => Returns self
  | [] =>
      match Composite_set_result is_entered w self with
      | Returns st => Returns (with_state self st)
      | Raises e => Returns (logging self e)
      | Blocks => Blocks
      end
  end.

(** The callbacks of the future [a], one call for every time [self.__cb]
    was added to it. *)
Fixpoint invoke_callbacks (is_entered : bool) (w : world) (a : nat) (n : nat)
    (c : Composite) : outcome Composite :=
  match n with
  | 0 => Returns c
  | S m =>
      match Composite_cb is_entered w c a with
      | Returns c' => invoke_callbacks is_entered w a m c'
      | Raises e => Raises e
      | Blocks => Blocks
      end
  end.

(** The future [a] gets the state [st] and calls its callbacks. *)
Definition completed (is_entered : bool) (w : world) (c : Composite) (a : nat)
    (st : state (res value)) : outcome (world * Composite) :=
  let w' := set_state w a st in
  match invoke_callbacks is_entered w' a
          (count_occ Nat.eq_dec (c_callbacks c) a) c with
  | Returns c' => Returns (w', c')
  | Raises e => Raises e
  | Blocks => Blocks
  end.

(** One call: [set_result] and [set_exception] of a future that is done
    are refused where [set_result] is single-shot; [cancel] changes a
    future that is not done only. *)
Definition step (is_entered : bool) (ev : event) (w : world) (c : Composite)
  : outcome (world * Composite) :=
  match ev with
  | set_result a v =>
      if done (w a) && single_shot py then Raises InvalidStateError
      else completed is_entered w c a (FINISHED (Ok v))
  | set_exception a e =>
      if done (w a) && single_shot py then Raises InvalidStateError
      else completed is_entered w c a (FINISHED (Raise e))
  | cancel a =>
      if done (w a) then Returns (w, c)
      else completed is_entered w c a CANCELLED
  end.

(** A sequence of calls, each with the state of the pricing context at
    its time; a call that is refused changes nothing. *)
Fixpoint run (evs : list (bool * event)) (w : world) (c : Composite)
  : outcome (world * Composite) :=
  match evs with
  | [] => Returns (w, c)
  | (is_entered, ev) :: rest =>
      match step is_entered ev w c with
      | Returns (w', c') => run rest w' c'
      | Raises _ => run rest w c
      | Blocks => Blocks
      end
  end.

End Composite.

(** The future [a] is finished with the value [v]. *)
Definition finished_with (w : world) (a : nat) (v : value) : Prop :=
  w a = FINISHED (Ok v).

(** The future [a] was cancelled or holds an exception. *)
Definition failed (w : world) (a : nat) : bool :=
  match w a with
  | CANCELLED | FINISHED (Raise _) => true
  | _ => false
  end.

(** Three futures: the first is finished, the others are not. *)
Definition ex_world : world :=
  fun a => match a with
           | 0 => FINISHED (Ok (VFloat (ex_float 1 DollarPrice 10)))
           | _ => PENDING
           end.

(** What holds of a composite between two calls: the pending futures are
    those of its futures that are not done, each has the callback, the
    composite is pending as long as one of them is, a result that it has
    is made of the values of its futures, and it has a result when nothing
    is pending and the values of the futures make one. *)
Definition composite_inv {A : Type} (make : list value -> res A) (w : world)
    (c : Composite A) : Prop :=
  (forall a, In a (c_pending c) <-> In a (c_futures c) /\ done (w a) = false)
  /\ (forall a, In a (c_pending c) -> In a (c_callbacks c))
  /\ (c_pending c <> [] -> c_state c = PENDING)
  /\ (c_state c = PENDING
      \/ exists rs r, c_state c = FINISHED r /\ make rs = Ok r
                      /\ Forall2 (finished_with w) (c_futures c) rs)
  /\ (c_pending c = [] -> c_state c = PENDING ->
      forall rs r, Forall2 (finished_with w) (c_futures c) rs ->
                   make rs = Ok r -> False).

(** No future that is done changes from [w] to [w']. *)
Definition settled (w w' : world) : Prop :=
  forall b, done (w b) = true -> w' b = w b.

(** A composite of four futures, one of them given twice, made in
    [ex_world], and the calls that complete the two that are pending. *)
Definition ex_composite : Composite (list value) :=
  mkComposite [0; 1; 2; 1] [2; 1] PENDING [1; 2; 1] [].

Definition ex_calls : list (bool * event) :=
  [(true, set_result 2 (VFloat (ex_float 1 DollarPrice 30)));
   (false, set_result 1 (VFloat (ex_float 1 DollarPrice 20)))].

Definition ex_world_done : world :=
  set_state (set_state ex_world 2 (FINISHED (Ok (VFloat (ex_float 1 DollarPrice 30)))))
            1 (FINISHED (Ok (VFloat (ex_float 1 DollarPrice 20)))).

(** The composite after [ex_calls]: the second callback of the future
    that was given twice found the result set. *)
Definition ex_composite_done : Composite (list value) :=
  mkComposite [0; 1; 2; 1] []
    (FINISHED [VFloat (ex_float 1 DollarPrice 10); VFloat (ex_float 1 DollarPrice 20);
               VFloat (ex_float 1 DollarPrice 30); VFloat (ex_float 1 DollarPrice 20)])
    [1; 2; 1] [InvalidStateError].

(** The calls that cancel one future and complete the other, the world
    and the composite after them. *)
Definition ex_calls_cancel : list (bool * event) :=
  [(false, cancel 2); (false, set_result 1 (VFloat (ex_float 1 DollarPrice 20)))].

Definition ex_world_cancelled : world :=
  set_state (set_state ex_world 2 CANCELLED)
            1 (FINISHED (Ok (VFloat (ex_float 1 DollarPrice 20)))).

Definition ex_composite_stuck : Composite (list value) :=
  mkComposite [0; 1; 2; 1] [] PENDING [1; 2; 1] [CancelledError; CancelledError].

(** A historical result of two measures for [swap1]: days 1 and 3. *)
Definition ex_historical_multi : multi :=
  Own swap1 [(DollarPrice, VSeries ex_s1);
             (IRDelta, VSeries (ex_series IRDelta
                                  [(1%Z, Num (inject_Z 8)); (3%Z, Num (inject_Z 9))]))].

(** The order of the labels that [sorted] compares: dates with dates,
    positions with positions. *)
Definition label_lt (a b : label) : Prop :=
  match a, b with
  | Day x, Day y => (x < y)%Z
  | Position i, Position j => i < j
  | _, _ => False
  end.

Definition label_kind (a : label) : nat :=
  match a with Day _ => 0 | Position _ => 1 | NoDay => 2 end.

(** The deltas of one date: a table whose index counts its rows. *)
Definition ex_plain_table (m : RiskMeasure) (q : Z) : DataFrameWithInfo :=
  mkDataFrameWithInfo (ex_key (Some 1%Z) m)
    (Plain [mkRow ["IR"%string; "USD"%string; "1y"%string] (Num (inject_Z q));
            mkRow ["IR"%string; "USD"%string; "2y"%string] (Num (inject_Z (q + 1)))])
    [].

(** The price and the delta of [swap1] on one date, and a result that has
    a series beside such a table. *)
Definition ex_multi_delta : multi :=
  Own swap1 [(DollarPrice, VFloat (ex_float 1 DollarPrice 10));
             (IRDelta, VTable (ex_plain_table IRDelta 20))].

Definition ex_multi_mixed : multi :=
  Own swap1 [(DollarPrice, VSeries ex_s1);
             (IRDelta, VTable (ex_plain_table IRDelta 20))].

(** A historical result of two measures that are tables. *)
Definition ex_multi_tables : multi :=
  Own swap1 [(DollarPrice, VTable (ex_table DollarPrice 5));
             (IRDelta, VTable (ex_table IRDelta 7))].

(** An interpreter whose iteration of a set gives every element of the
    sequence it was built from, once. *)
Definition iterates_sets (py : Interp) : Prop :=
  forall l : list RiskMeasure,
    NoDup (set_iter py l) /\ forall x, In x (set_iter py l) <-> In x l.

(** What the sum of two results of one instrument holds at a measure,
    given what the operands hold: the value of the operand that has the
    measure, the composition of the two values when both have it. *)
Definition merged_at (compose_rec : value -> value -> res value)
    (left right sum : option value) : Prop :=
  match left, right with
  | Some v1, Some v2 => exists v, compose_rec v1 v2 = Ok v /\ sum = Some v
  | Some v1, None => sum = Some v1
  | None, Some v2 => sum = Some v2
  | None, None => sum = None
  end.

(** The same two measures for [swap2], and [swap1] in a third measure. *)
Definition ex_multi_swap2 : multi :=
  Own swap2 [(DollarPrice, VFloat (ex_float 1 DollarPrice 30));
             (IRDelta, VFloat (ex_float 1 IRDelta 40))].

Definition ex_multi_floats : multi :=
  Own swap1 [(DollarPrice, VFloat (ex_float 1 DollarPrice 10));
             (IRDelta, VFloat (ex_float 1 IRDelta 20))].

Definition ex_multi_price : multi :=
  Own swap1 [(Price, VFloat (ex_float 1 Price 11))].

(** [target.result()] where the target is a future, as [PortfolioPath]
    takes it before the next step. *)
Definition resolved (tgt : target) : target :=
  match tgt with
  | TFuture f => TValue (result_of f)
  | _ => tgt
  end.

(** [PortfolioPath.__add__] *)
Definition PortfolioPath_add (p q : PortfolioPath) : PortfolioPath := p ++ q.

(** The future that [as_multiple_result_futures] puts around the future
    [f] of the entry [p], in a tree of the one measure [m]. *)
Definition wrapped (m : RiskMeasure) (pf : Priceable * future) : future :=
  new_MultipleRiskMeasureFuture (fst pf) [(m, snd pf)].

(** The price of a fourth swap, in the measure of [ex_prices]. *)
Definition ex_more_prices : tree :=
  PortfolioRiskResult [swap4] [DollarPrice]
    [PricingFuture (VFloat (ex_float 1 DollarPrice 44))].

(** The two measures of [swap1] on day 2. *)
Definition ex_multi_day2 : multi :=
  Own swap1 [(DollarPrice, VFloat (ex_float 2 DollarPrice 12));
             (IRDelta, VFloat (ex_float 2 IRDelta 22))].

Definition is_nested (f : future) : bool :=
  match f with Nested _ => true | _ => false end.

Definition is_MultipleRiskMeasureFuture (f : future) : bool :=
  match f with MultipleRiskMeasureFuture _ _ _ => true | _ => false end.

(** A future that holds a scalar or a series. *)
Definition priced_leaf (f : future) : bool :=
  match f with
  | PricingFuture (VFloat _) | PricingFuture (VSeries _) => true
  | _ => false
  end.

(** Two futures whose results have compatible keys. *)
Definition compatible_leaves (fg : future * future) : bool :=
  match risk_key_of (result_of (fst fg)), risk_key_of (result_of (snd fg)) with
  | Ok k1, Ok k2 => keys_compatible k1 k2
  | _, _ => false
  end.

(** A portfolio whose entries are instruments. *)
Definition flat (p : list Priceable) : bool :=
  forallb (fun q => negb (is_portfolio q)) p.

(** The items of the result of several measures that a future holds as
    its own. *)
Definition held (f : future) : option (list (RiskMeasure * value)) :=
  match f with
  | Nested _ => None
  | _ => match result_of f with
         | VMulti (Own _ d) => Some d
         | _ => None
         end
  end.

(** What [set_value] leaves of the items [d] at the measure [m], given
    what the source answered for the priceable: [KeyError] is passed
    over. *)
Definition written (d : list (RiskMeasure * value)) (m : RiskMeasure)
    (answer : res value) : list (RiskMeasure * value) :=
  match answer with
  | Ok v => dict_set d m v
  | Raise _ => d
  end.

(** A scalar or a series. *)
Definition is_priced (v : value) : bool :=
  match v with VFloat _ | VSeries _ => true | _ => false end.

(** ** What the product with a number is

    The product of a value, a future or a tree and the number [x]: the
    payload of a scalar, a series, a table and a number scaled, the values
    of a result of several measures scaled, the futures of a tree scaled,
    at any depth. *)

Definition scaled_payload (x : num) (v : value) : value :=
  match v with
  | VFloat f => VFloat (float_map (fun y => num_mul y x) f)
  | VSeries s => VSeries (series_map (fun y => num_mul y x) s)
  | VTable t => VTable (table_map (fun y => num_mul y x) t)
  | VNum y => VNum (num_mul y x)
  | _ => v
  end.

Definition scaled_items (x : num) (items : list (RiskMeasure * value))
  : list (RiskMeasure * value) :=
  map (fun kv => (fst kv, scaled_payload x (snd kv))) items.

Fixpoint product (h : store) (x : num) (v : value) {struct v} : value :=
  match v with
  | VMulti o =>
      match contents h o with
      | Ok c => VMulti (Own (fst c) (scaled_items x (snd c)))
      | Raise _ => v
      end
  | VTree t => VTree (tree_product h x t)
  | _ => scaled_payload x v
  end
with tree_product (h : store) (x : num) (t : tree) {struct t} : tree :=
  match t with
  | PortfolioRiskResult p rms fs =>
      PortfolioRiskResult p rms
        ((fix each (l : list future) {struct l} : list future :=
            match l with
            | [] => []
            | f :: r => future_product h x f :: each r
            end) fs)
  end
with future_product (h : store) (x : num) (f : future) {struct f} : future :=
  match f with
  | PricingFuture v => PricingFuture (product h x v)
  | Nested t => Nested (tree_product h x t)
  | _ => f
  end.

(** The values, trees and futures that have a product: a tree all of whose
    futures, at any depth, are [PricingFuture]s or trees; a future that
    holds a value with a payload, a result of several measures whose values
    have one, or such a tree. *)
Fixpoint has_product (h : store) (v : value) {struct v} : bool :=
  match v with
  | VMulti o =>
      match contents h o with
      | Ok c => nodupb (keys (snd c))
                && forallb (fun kv => has_payload (snd kv)) (snd c)
      | Raise _ => false
      end
  | VTree t => tree_has_product h t
  | _ => has_payload v
  end
with tree_has_product (h : store) (t : tree) {struct t} : bool :=
  match t with
  | PortfolioRiskResult _ _ fs =>
      (fix all (l : list future) {struct l} : bool :=
         match l with
         | [] => true
         | f :: r => future_has_product h f && all r
         end) fs
  end
with future_has_product (h : store) (f : future) {struct f} : bool :=
  match f with
  | PricingFuture v => has_product h v
  | Nested t => tree_has_product h t
  | _ => false
  end.

(** How deep the trees are nested, also those that a future holds as its
    result. *)
Fixpoint nesting (v : value) {struct v} : nat :=
  match v with
  | VTree t => tree_nesting t
  | _ => 0
  end
with tree_nesting (t : tree) {struct t} : nat :=
  match t with
  | PortfolioRiskResult _ _ fs =>
      S ((fix deepest (l : list future) {struct l} : nat :=
            match l with
            | [] => 0
            | f :: r => Nat.max (future_nesting f) (deepest r)
            end) fs)
  end
with future_nesting (f : future) {struct f} : nat :=
  match f with
  | PricingFuture v => nesting v
  | Nested t => tree_nesting t
  | _ => 0
  end.

Fixpoint futures_nesting (fs : list future) : nat :=
  match fs with
  | [] => 0
  | f :: r => Nat.max (future_nesting f) (futures_nesting r)
  end.

(** An operand that is no number, whatever the classes of gs_quant.risk
    inherit from: a string, a series, a table, an exception, a result of
    several measures, a tree. *)
Definition is_no_number (other : value) : bool :=
  match other with
  | VStr _ | VSeries _ | VTable _ | VExc _ | VMulti _ | VTree _ => true
  | VNum _ | VFloat _ | VError _ => false
  end.

(** A future that holds the tree [ex_nested_tree], one that holds the
    result [ex_multi], and a tree of both beside a nested tree and a
    table. *)
Definition ex_mixed_tree : tree :=
  PortfolioRiskResult [Portfolio ex_nested_portfolio; swap1; swap2;
                       Portfolio [swap3]] [DollarPrice]
    [PricingFuture (VTree ex_nested_tree);
     PricingFuture (VMulti ex_multi);
     PricingFuture (VTable (ex_table DollarPrice 5));
     Nested (PortfolioRiskResult [swap3] [DollarPrice]
               [PricingFuture (VFloat (ex_float 1 DollarPrice 30))])].

(** * Properties *)

Unset Implicit Arguments.

(** ** Equality tests *)

Lemma option_eqb_refl (A : Type) (eqb : A -> A -> bool) (x : option A) :
  (forall a, eqb a a = true) -> option_eqb eqb x x = true.
Proof. intros H. destruct x; simpl; auto. Qed.

Lemma Market_eqb_refl (m : Market) : Market_eqb m m = true.
Proof.
  destruct m; simpl;
    rewrite ?Nat.eqb_refl, ?(option_eqb_refl _ Z.eqb _ Z.eqb_refl),
            ?(option_eqb_refl _ Nat.eqb _ Nat.eqb_refl); reflexivity.
Qed.

Lemma RiskKey_eqb_refl (k : RiskKey) : RiskKey_eqb k k = true.
Proof.
  unfold RiskKey_eqb.
  rewrite !Nat.eqb_refl, Market_eqb_refl,
          (option_eqb_refl _ Z.eqb _ Z.eqb_refl),
          !(option_eqb_refl _ Nat.eqb _ Nat.eqb_refl).
  reflexivity.
Qed.

Lemma option_eqb_Z_eq (x y : option Z) : option_eqb Z.eqb x y = true <-> x = y.
Proof.
  destruct x, y; simpl; split; intros H; try discriminate; auto.
  - apply Z.eqb_eq in H. now subst.
  - inversion H. apply Z.eqb_refl.
Qed.

(** ** Series: lookups, union, sorting *)

Lemma series_get_in (l : list (date * num)) (d : date) (v : num) :
  series_get l d = Some v -> In (d, v) l.
Proof.
  induction l as [|[d' v'] t IH]; simpl; [discriminate|].
  destruct (Z.eqb_spec d' d) as [->|Hne]; intros H.
  - inversion H. now left.
  - right. auto.
Qed.

Lemma series_get_none (l : list (date * num)) (d : date) :
  series_get l d = None <-> ~ In d (index l).
Proof.
  induction l as [|[d' v'] t IH]; simpl.
  - tauto.
  - destruct (Z.eqb_spec d' d) as [->|Hne].
    + split; [discriminate | intros H; exfalso; apply H; now left].
    + rewrite IH. split; intros H; [intros [E|I]; auto | tauto].
Qed.

Lemma in_series_get (l : list (date * num)) (d : date) (v : num) :
  NoDup (index l) -> In (d, v) l -> series_get l d = Some v.
Proof.
  induction l as [|[d' v'] t IH]; simpl; [tauto|].
  intros Hnd [E|I].
  - inversion E; subst. now rewrite Z.eqb_refl.
  - inversion Hnd as [|? ? Hni Hnd']; subst.
    destruct (Z.eqb_spec d' d) as [->|Hne].
    + exfalso. apply Hni. change d with (fst (d, v)). now apply in_map.
    + auto.
Qed.

Lemma series_get_perm (l l' : list (date * num)) (d : date) :
  NoDup (index l) -> Permutation l l' -> series_get l' d = series_get l d.
Proof.
  intros Hnd Hp.
  assert (Hnd' : NoDup (index l')).
  { unfold index. eapply Permutation_NoDup; [apply Permutation_map, Hp | exact Hnd]. }
  destruct (series_get l d) as [v|] eqn:E.
  - apply in_series_get; [exact Hnd'|].
    eapply Permutation_in; [exact Hp|]. now apply series_get_in.
  - destruct (series_get l' d) as [v'|] eqn:E'; [|reflexivity].
    apply series_get_in in E'.
    apply Permutation_sym in Hp.
    apply (Permutation_in _ Hp) in E'.
    apply (in_series_get _ _ _ Hnd) in E'. congruence.
Qed.

Lemma series_get_tabulate (g : date -> num) (idx : list date) (d : date) :
  In d idx -> series_get (map (fun x => (x, g x)) idx) d = Some (g d).
Proof.
  induction idx as [|x t IH]; simpl; [tauto|].
  intros [->|I].
  - now rewrite Z.eqb_refl.
  - destruct (Z.eqb_spec x d) as [->|Hne]; auto.
Qed.

Lemma index_tabulate (g : date -> num) (idx : list date) :
  index (map (fun x => (x, g x)) idx) = idx.
Proof.
  unfold index. rewrite map_map. simpl. apply map_id.
Qed.

Lemma in_index_union (a b : list date) (d : date) :
  In d (index_union a b) <-> In d a \/ In d b.
Proof. unfold index_union. rewrite nodup_In. apply in_app_iff. Qed.

Lemma insert_by_date_perm (e : date * num) (l : list (date * num)) :
  Permutation (insert_by_date e l) (e :: l).
Proof.
  induction l as [|h t IH]; simpl; [reflexivity|].
  destruct (Z.leb (fst e) (fst h)); [reflexivity|].
  rewrite IH. apply perm_swap.
Qed.

Lemma sort_index_perm (l : list (date * num)) : Permutation (sort_index l) l.
Proof.
  induction l as [|e t IH]; simpl; [reflexivity|].
  rewrite insert_by_date_perm. now constructor.
Qed.

Lemma insert_by_date_sorted (e : date * num) (l : list (date * num)) :
  StronglySorted Z.le (index l) -> StronglySorted Z.le (index (insert_by_date e l)).
Proof.
  induction l as [|h t IH]; simpl; intros Hs.
  - repeat constructor.
  - inversion Hs as [|? ? Hs' Hall]; subst.
    destruct (Z.leb_spec (fst e) (fst h)) as [Hle|Hgt]; simpl.
    + constructor; [exact Hs|].
      constructor; [exact Hle|].
      eapply Forall_impl; [|exact Hall]. simpl. intros; lia.
    + constructor; [now apply IH|].
      assert (Hp : Permutation (index (insert_by_date e t)) (fst e :: index t)).
      { unfold index. rewrite (Permutation_map fst (insert_by_date_perm e t)).
        reflexivity. }
      apply Permutation_sym in Hp.
      eapply Permutation_Forall; [exact Hp|].
      constructor; [lia | exact Hall].
Qed.

Lemma sort_index_sorted (l : list (date * num)) :
  StronglySorted Z.le (index (sort_index l)).
Proof.
  induction l as [|e t IH]; simpl; [constructor|].
  now apply insert_by_date_sorted.
Qed.

Lemma sorted_nodup_strict (l : list date) :
  StronglySorted Z.le l -> NoDup l -> StronglySorted Z.lt l.
Proof.
  induction 1 as [|x t Hs IH Hall]; intros Hnd; [constructor|].
  inversion Hnd as [|? ? Hni Hnd']; subst.
  constructor; [auto|].
  rewrite Forall_forall in *. intros y Hy.
  specialize (Hall y Hy).
  assert (x <> y) by (intros ->; contradiction).
  lia.
Qed.

Lemma combine_first_nodup (this other : list (date * num)) :
  NoDup (index (combine_first this other)).
Proof.
  unfold combine_first. rewrite index_tabulate.
  unfold index_union. apply NoDup_nodup.
Qed.

Lemma combine_first_get (this other : list (date * num)) (d : date) :
  In d (index this) \/ In d (index other) ->
  series_get (sort_index (combine_first this other)) d
  = Some (if notna (reindexed this d) then reindexed this d else reindexed other d).
Proof.
  intros Hin.
  rewrite (series_get_perm _ _ d (combine_first_nodup this other)
             (Permutation_sym (sort_index_perm _))).
  unfold combine_first.
  apply (series_get_tabulate
           (fun d => if notna (reindexed this d) then reindexed this d
                     else reindexed other d)).
  now apply in_index_union.
Qed.

Lemma combine_first_index (this other : list (date * num)) (d : date) :
  In d (index (sort_index (combine_first this other)))
  <-> In d (index this) \/ In d (index other).
Proof.
  assert (Hp : Permutation (index (sort_index (combine_first this other)))
                           (index_union (index this) (index other))).
  { unfold index at 1. rewrite (Permutation_map fst (sort_index_perm _)).
    fold (index (combine_first this other)).
    unfold combine_first. now rewrite index_tabulate. }
  rewrite <- in_index_union.
  split; intros H.
  - eapply Permutation_in; [exact Hp | exact H].
  - eapply Permutation_in; [apply Permutation_sym, Hp | exact H].
Qed.

Lemma combine_first_sorted (this other : list (date * num)) :
  StronglySorted Z.lt (index (sort_index (combine_first this other))).
Proof.
  apply sorted_nodup_strict; [apply sort_index_sorted|].
  unfold index. eapply Permutation_NoDup.
  - apply Permutation_map, Permutation_sym, sort_index_perm.
  - apply combine_first_nodup.
Qed.

(** ** Composition of two series (C3) *)

(** C3, as amended.  For every two series [s1] and [s2], [_compose s1 s2]
    returns a series whose dates are those of [s1] and [s2] together, each
    once, in strictly ascending order; at a date where [s2] has a value that
    is not missing the result has the value of [s2]; at a date where the
    value of [s2] is missing (NaN) the result has the value of [s1], or NaN
    if [s1] has none; at a date that only [s1] has, the result has the
    value of [s1]. *)
Theorem compose_series_series :
  forall (fuel : nat) (py : Interp) (h : store) (s1 s2 : SeriesWithInfo),
  exists s : SeriesWithInfo,
    _compose fuel py h (VSeries s1) (VSeries s2) = Ok (VSeries s)
    /\ StronglySorted Z.lt (index (s_data s))
    /\ (forall d, In d (index (s_data s))
                  <-> In d (index (s_data s1)) \/ In d (index (s_data s2)))
    /\ (forall d v, series_get (s_data s2) d = Some v -> notna v = true ->
                    series_get (s_data s) d = Some v)
    /\ (forall d, series_get (s_data s2) d = Some NaN ->
                  series_get (s_data s) d = Some (reindexed (s_data s1) d))
    /\ (forall d v, ~ In d (index (s_data s2)) ->
                    series_get (s_data s1) d = Some v ->
                    series_get (s_data s) d = Some v).
Proof.
  intros fuel py h s1 s2.
  exists (series_sort_index (series_combine_first s2 s1)).
  split; [destruct fuel; reflexivity|].
  simpl.
  split; [apply combine_first_sorted|].
  split; [intros d; rewrite combine_first_index; tauto|].
  split; [|split].
  - intros d v Hget Hv.
    rewrite combine_first_get.
    + unfold reindexed at 1 2. rewrite Hget, Hv. reflexivity.
    + left. apply series_get_in in Hget.
      change d with (fst (d, v)). now apply in_map.
  - intros d Hget.
    rewrite combine_first_get.
    + unfold reindexed at 1 2. rewrite Hget. reflexivity.
    + left. apply series_get_in in Hget.
      change d with (fst (d, NaN)). now apply in_map.
  - intros d v Hni Hget.
    rewrite combine_first_get.
    + apply series_get_none in Hni.
      unfold reindexed. rewrite Hni, Hget. reflexivity.
    + right. apply series_get_in in Hget.
      change d with (fst (d, v)). now apply in_map.
Qed.

Lemma compose_series_series_witness :
  exists s : SeriesWithInfo,
    _compose 0 (python true) [] (VSeries ex_s1) (VSeries ex_s2) = Ok (VSeries s)
    /\ series_get (s_data s) 2%Z = Some (Num (inject_Z 6))
    /\ series_get (s_data s) 1%Z = Some (Num (inject_Z 5))
    /\ series_get (s_data s) 3%Z = Some (Num (inject_Z 7)).
Proof.
  destruct (compose_series_series 0 (python true) [] ex_s1 ex_s2)
    as (s & Hc & _ & _ & H4 & H5 & H6).
  exists s. split; [exact Hc|].
  split; [|split].
  - apply (H4 2%Z); reflexivity.
  - apply (H5 1%Z); reflexivity.
  - apply (H6 3%Z).
    + simpl. intros [H|[H|[]]]; discriminate.
    + reflexivity.
Defined.

(** C3 as stated fails where the right operand holds a missing value: on
    day 1, which both series have, the result is the 5 of the left
    operand. *)
Lemma compose_series_right_missing :
  exists s : SeriesWithInfo,
    _compose 0 (python true) [] (VSeries ex_s1) (VSeries ex_s2) = Ok (VSeries s)
    /\ In 1%Z (index (s_data ex_s1))
    /\ In 1%Z (index (s_data ex_s2))
    /\ series_get (s_data s) 1%Z <> series_get (s_data ex_s2) 1%Z.
Proof.
  eexists. split; [reflexivity|].
  split; [simpl; auto|].
  split; [simpl; auto|].
  vm_compute. discriminate.
Qed.

(** ** Composition of two scalars (C6) *)

(** C6, as amended.  For every two scalars, [_compose lhs rhs] returns
    [rhs] when both carry the same date; when they carry two different
    dates and their keys are compatible it returns the series that
    [lhs.compose((lhs, rhs))] builds, with the value of [lhs] on its date
    and the value of [rhs] on its date. *)
Theorem compose_scalar_scalar :
  forall (fuel : nat) (py : Interp) (h : store) (lhs rhs : FloatWithInfo),
    (rk_date (f_risk_key lhs) = rk_date (f_risk_key rhs) ->
     _compose fuel py h (VFloat lhs) (VFloat rhs) = Ok (VFloat rhs))
    /\ (forall dl dr : date,
          rk_date (f_risk_key lhs) = Some dl ->
          rk_date (f_risk_key rhs) = Some dr ->
          dl <> dr ->
          keys_compatible (f_risk_key lhs) (f_risk_key rhs) = true ->
          _compose fuel py h (VFloat lhs) (VFloat rhs)
          = Ok (VSeries (mkSeriesWithInfo
                           (historical_risk_key (f_risk_key lhs))
                           [(dl, raw_value lhs); (dr, raw_value rhs)] []))).
Proof.
  intros fuel py h lhs rhs. split.
  - intros Hd.
    apply option_eqb_Z_eq in Hd.
    destruct fuel; simpl; rewrite Hd; reflexivity.
  - intros dl dr Hl Hr Hne Hk.
    assert (Hd : option_eqb Z.eqb (rk_date (f_risk_key lhs))
                            (rk_date (f_risk_key rhs)) = false).
    { rewrite Hl, Hr. simpl. now apply Z.eqb_neq. }
    assert (Hself : keys_compatible (f_risk_key lhs) (f_risk_key lhs) = true)
      by apply RiskKey_eqb_refl.
    destruct fuel; simpl; rewrite Hd; unfold compose; simpl;
      rewrite Hself, Hl; simpl; rewrite Hk, Hr; reflexivity.
Qed.

Lemma compose_scalar_scalar_witness :
  _compose 0 (python true) [] (VFloat (ex_float 1 DollarPrice 5))
           (VFloat (ex_float 1 DollarPrice 6))
  = Ok (VFloat (ex_float 1 DollarPrice 6))
  /\ _compose 0 (python true) [] (VFloat (ex_float 1 DollarPrice 5))
              (VFloat (ex_float 2 DollarPrice 6))
     = Ok (VSeries (mkSeriesWithInfo
                      (historical_risk_key (ex_key (Some 1%Z) DollarPrice))
                      [(1%Z, Num (inject_Z 5)); (2%Z, Num (inject_Z 6))] [])).
Proof.
  split.
  - apply (proj1 (compose_scalar_scalar 0 (python true) []
                    (ex_float 1 DollarPrice 5) (ex_float 1 DollarPrice 6))).
    reflexivity.
  - apply (proj2 (compose_scalar_scalar 0 (python true) []
                    (ex_float 1 DollarPrice 5) (ex_float 2 DollarPrice 6))
                 1%Z 2%Z); [reflexivity | reflexivity | discriminate | reflexivity].
Defined.

(** C6 as stated fails for two scalars on two dates: nothing is raised, the
    two become a series. *)
Lemma compose_scalars_of_two_dates :
  _compose 0 (python true) [] (VFloat (ex_float 1 DollarPrice 5))
           (VFloat (ex_float 2 DollarPrice 6))
  = Ok (VSeries (mkSeriesWithInfo
                   (historical_risk_key (ex_key (Some 1%Z) DollarPrice))
                   [(1%Z, Num (inject_Z 5)); (2%Z, Num (inject_Z 6))] []))
  /\ is_ok (_compose 0 (python true) [] (VFloat (ex_float 1 DollarPrice 5))
                     (VFloat (ex_float 2 DollarPrice 6))) = true.
Proof. split; reflexivity. Qed.

(** ** [HistoricalPricingFuture._set_result] (C4) *)

Lemma find_none_of_failures (results : list value) :
  forallb is_failure results = true ->
  find (fun r => negb (is_failure r)) results = None.
Proof.
  induction results as [|r t IH]; simpl; [reflexivity|].
  intros H. apply andb_prop in H. destruct H as [Hr Ht].
  rewrite Hr. simpl. auto.
Qed.

Lemma mapM_not_ok (A B : Type) (f : A -> res B) (l : list A) (x : A) :
  In x l -> is_ok (f x) = false -> is_ok (mapM f l) = false.
Proof.
  induction l as [|y t IH]; intros Hin Hx; [destruct Hin|].
  cbn [mapM]. destruct Hin as [->|Hin].
  - destruct (f x); [discriminate | reflexivity].
  - destruct (f y); [|reflexivity]. cbn [bind].
    specialize (IH Hin Hx). destruct (mapM f t); [discriminate | reflexivity].
Qed.

Lemma getitem_of_failure (tg : tree -> key -> res value) (h : store) (r : value)
      (k : key) :
  is_failure r = true -> value_getitem tg h r k = Raise TypeError.
Proof. destruct r; try discriminate; reflexivity. Qed.

(** The first key of a result of several measures is read from every
    result when the historical result is put together: a failure among the
    results makes this raise. *)
Lemma historical_multi_failure (compose_of : value -> list value -> res value)
      (fuel : nat) (h : store) (results : list value) (o : multi)
      (inst : Priceable) (items : list (RiskMeasure * value)) :
  find (fun r => negb (is_failure r)) results = Some (VMulti o) ->
  contents h o = Ok (inst, items) ->
  items <> [] ->
  (exists r, In r results /\ is_failure r = true) ->
  snd (HistoricalPricingFuture_set_result compose_of fuel h results) = []
  /\ is_ok (fst (HistoricalPricingFuture_set_result compose_of fuel h results))
     = false.
Proof.
  intros Hfind Hc Hne (r & Hin & Hr).
  unfold HistoricalPricingFuture_set_result. rewrite Hfind. cbn [fst snd].
  split; [reflexivity|].
  rewrite Hc. cbn [bind fst snd].
  destruct items as [|[k v] rest]; [congruence|].
  cbn [keys map fst mapM].
  unfold multi_getitem at 1. rewrite Hc. cbn [bind snd dict_get].
  rewrite Nat.eqb_refl. cbn [bind].
  match goal with
  | |- is_ok (bind (bind (bind (mapM ?G results) _) _) _) = false =>
      pose proof (mapM_not_ok _ _ G results r Hin) as Hm;
      destruct (mapM G results); [|reflexivity]
  end.
  rewrite getitem_of_failure in Hm by exact Hr.
  specialize (Hm eq_refl). discriminate.
Qed.




(** ** [PortfolioRiskResult.result] (C10) *)

(** C10.  For every tree that is resolved, whatever the stored result of
    the composite, [result()] with or without a timeout, inside or outside
    a pricing context, returns the tree itself, where the [result()] of the
    composite returns the stored sequence of the results of the children;
    the state that [_set_result] leaves is resolved, with that sequence. *)
Theorem result_returns_the_tree :
  forall (t : tree) (stored : list value) (is_entered : bool)
         (timeout : option nat),
    PortfolioRiskResult_result is_entered
      (mkPortfolioRiskResultFuture t (FINISHED stored)) timeout
    = Returns (mkPortfolioRiskResultFuture t (FINISHED stored))
    /\ CompositeResultFuture_result is_entered
         (mkPortfolioRiskResultFuture t (FINISHED stored)) timeout
       = Returns stored
    /\ CompositeResultFuture_set_result (futures_of t)
       = FINISHED (map result_of (futures_of t)).
Proof.
  intros t stored is_entered timeout.
  unfold PortfolioRiskResult_result, CompositeResultFuture_result,
    PricingFuture_result, CompositeResultFuture_set_result.
  simpl. repeat split; reflexivity.
Qed.

(** Before the children are complete the call does not return. *)
Lemma result_of_pending_tree (t : tree) (is_entered : bool) (timeout : option nat) :
  forall r, PortfolioRiskResult_result is_entered
              (mkPortfolioRiskResultFuture t PENDING) timeout <> Returns r.
Proof.
  intros r. unfold PortfolioRiskResult_result, PricingFuture_result.
  simpl. destruct is_entered; simpl; [discriminate|].
  destruct timeout; discriminate.
Qed.

(** ** [PortfolioRiskResult.__len__] (C9) *)

Lemma mirrors_entries_length (ps : list Priceable) (fs : list future) :
  mirrors_entries ps fs = true -> List.length fs = List.length ps.
Proof.
  revert fs. induction ps as [|p t IH]; intros [|f fs]; simpl;
    try discriminate; [reflexivity|].
  intros H. apply andb_prop in H. destruct H as [_ H].
  f_equal. now apply IH.
Qed.

(** C9.  For every tree that mirrors its portfolio, [len(tree)] is the
    number of entries of the portfolio, which is the number of futures of
    the tree, whatever is nested in the entries. *)
Theorem len_counts_entries :
  forall t : tree,
    mirrors t = true ->
    tree_len t = List.length (portfolio_of t)
    /\ tree_len t = List.length (futures_of t).
Proof.
  intros t H. split; [|reflexivity].
  unfold tree_len. now apply mirrors_entries_length.
Qed.

Lemma len_counts_entries_witness :
  mirrors ex_nested_tree = true
  /\ tree_len ex_nested_tree = 2
  /\ all_instruments (Portfolio (portfolio_of ex_nested_tree)) = [1; 2; 3; 1].
Proof.
  split; [reflexivity|].
  split; [|reflexivity].
  rewrite (proj1 (len_counts_entries ex_nested_tree eq_refl)). reflexivity.
Defined.

(** The length does not look into a nested tree. *)
Lemma len_ignores_nesting (p : list Priceable) (rms : list RiskMeasure)
      (fs : list future) (sub sub' : tree) :
  tree_len (PortfolioRiskResult p rms (Nested sub :: fs))
  = tree_len (PortfolioRiskResult p rms (Nested sub' :: fs)).
Proof. reflexivity. Qed.

(** ** Dictionaries *)

Lemma dict_set_fresh (V : Type) (d : list (RiskMeasure * V)) (k : RiskMeasure) (v : V) :
  ~ In k (keys d) -> dict_set d k v = d ++ [(k, v)].
Proof.
  induction d as [|[k' v'] t IH]; simpl; intros H; [reflexivity|].
  destruct (Nat.eqb_spec k' k) as [->|Hne].
  - exfalso. apply H. now left.
  - f_equal. apply IH. tauto.
Qed.

Lemma fold_dict_set_nodup (V : Type) (l acc : list (RiskMeasure * V)) :
  NoDup (keys (acc ++ l)) ->
  fold_left (fun d kv => dict_set d (fst kv) (snd kv)) l acc = acc ++ l.
Proof.
  revert acc. induction l as [|[k v] t IH]; intros acc H; simpl.
  - now rewrite app_nil_r.
  - rewrite dict_set_fresh.
    + rewrite IH; rewrite <- app_assoc; [reflexivity | exact H].
    + unfold keys in *. rewrite map_app in H. simpl in H.
      apply NoDup_remove_2 in H. intros Hin. apply H.
      apply in_or_app. now left.
Qed.

Lemma dict_of_nodup (V : Type) (l : list (RiskMeasure * V)) :
  NoDup (keys l) -> dict_of l = l.
Proof. intros H. unfold dict_of. now rewrite fold_dict_set_nodup. Qed.

Lemma mapM_length (A B : Type) (f : A -> res B) (l : list A) (l' : list B) :
  mapM f l = Ok l' -> List.length l' = List.length l.
Proof.
  revert l'. induction l as [|x t IH]; simpl; intros l' H.
  - inversion H. reflexivity.
  - destruct (f x); simpl in H; [|discriminate].
    destruct (mapM f t); simpl in H; [|discriminate].
    inversion H. simpl. f_equal. now apply IH.
Qed.

Lemma mapM_ok_map (A B : Type) (f : A -> res B) (g : A -> B) (l : list A) :
  (forall x, In x l -> f x = Ok (g x)) -> mapM f l = Ok (map g l).
Proof.
  induction l as [|x t IH]; simpl; intros H; [reflexivity|].
  rewrite (H x (or_introl eq_refl)). simpl.
  rewrite IH; [reflexivity|]. intros y Hy. apply H. now right.
Qed.

(** ** The product of a payload and a number *)

Lemma value_op_payload (fuel : nat) (h : store) (x : num) (v : value) :
  is_payload v = true ->
  value_op fuel h (fun y => num_mul y x) v = Ok (scaled x v).
Proof. destruct v; simpl; try discriminate; destruct fuel; reflexivity. Qed.

(** ** The overlap guard of the addition (C2) *)

Lemma existsb_mem_overlap (A : Type) (eqb : A -> A -> bool) (a b : list A) :
  (forall x y, eqb x y = true <-> x = y) ->
  existsb (fun x => existsb (eqb x) b) a = true <-> overlap a b.
Proof.
  intros Heq. rewrite existsb_exists. unfold overlap.
  split; intros [x [Ha Hb]]; exists x; split; auto.
  - apply existsb_exists in Hb. destruct Hb as [y [Hy E]].
    apply Heq in E. now subst.
  - apply existsb_exists. exists x. split; [exact Hb|]. now apply Heq.
Qed.

Lemma isdisjoint_overlap (a b : list RiskMeasure) :
  isdisjoint a b = false <-> overlap a b.
Proof.
  unfold isdisjoint, mem. rewrite negb_false_iff.
  apply existsb_mem_overlap. intros x y. apply Nat.eqb_eq.
Qed.

Lemma label_eqb_eq (a b : label) : label_eqb a b = true <-> a = b.
Proof.
  destruct a, b; simpl; split; intros H; try discriminate; try reflexivity.
  - apply Z.eqb_eq in H. now subst.
  - inversion H. apply Z.eqb_refl.
  - apply Nat.eqb_eq in H. now subst.
  - inversion H. apply Nat.eqb_refl.
Qed.

Lemma isdisjoint_labels_overlap (a b : list label) :
  isdisjoint_labels a b = false <-> overlap a b.
Proof.
  unfold isdisjoint_labels. rewrite negb_false_iff.
  apply existsb_mem_overlap. intros x y. apply label_eqb_eq.
Qed.

Lemma isdisjoint_nat_overlap (a b : list nat) :
  isdisjoint_nat a b = false <-> overlap a b.
Proof.
  unfold isdisjoint_nat. rewrite negb_false_iff.
  apply existsb_mem_overlap. intros x y. apply Nat.eqb_eq.
Qed.

(** C2, as amended.  For two trees whose dates can be read and whose first
    value passes the provenance check, the test of the guard of [tree +
    tree] holds exactly when the risk measures overlap and the dates
    overlap and the instruments overlap; when it holds the addition raises
    the [ValueError] "Results overlap on risk measures, instruments or
    dates" and leaves the store as it was; when one of the three pairs of
    sets is disjoint the guard lets the addition through. *)
Theorem addition_overlap_guard :
  forall (n : nat) (py : Interp) (h : store) (self other : tree)
         (ds do : list label),
    provenance_check n h self = Ok true ->
    tree_dates n h self = Ok ds ->
    tree_dates n h other = Ok do ->
    (results_overlap n h self other = Ok true
     <-> overlap (risk_measures_of self) (risk_measures_of other)
         /\ overlap ds do
         /\ overlap (all_instruments (Portfolio (portfolio_of self)))
                    (all_instruments (Portfolio (portfolio_of other))))
    /\ (results_overlap n h self other = Ok true ->
        tree_add (S n) py self (VTree other) h
        = (Raise (ValueError msg_overlap), h))
    /\ (results_overlap n h self other = Ok true
        \/ results_overlap n h self other = Ok false).
Proof.
  intros n py h self other ds do Hp Hds Hdo.
  assert (Hshape :
            results_overlap n h self other
            = Ok (negb (isdisjoint (risk_measures_of self) (risk_measures_of other))
                  && negb (isdisjoint_labels ds do)
                  && negb (isdisjoint_nat
                             (all_instruments (Portfolio (portfolio_of self)))
                             (all_instruments (Portfolio (portfolio_of other)))))).
  { unfold results_overlap. rewrite Hds, Hdo. simpl.
    destruct (isdisjoint _ _); simpl; [reflexivity|].
    destruct (isdisjoint_labels _ _); reflexivity. }
  split; [|split].
  - rewrite Hshape. split.
    + intros H. inversion H as [H'].
      apply andb_prop in H'. destruct H' as [H' H3].
      apply andb_prop in H'. destruct H' as [H1 H2].
      rewrite negb_true_iff in H1, H2, H3.
      split; [now apply isdisjoint_overlap|].
      split; [now apply isdisjoint_labels_overlap | now apply isdisjoint_nat_overlap].
    + intros (H1 & H2 & H3).
      apply isdisjoint_overlap in H1. apply isdisjoint_labels_overlap in H2.
      apply isdisjoint_nat_overlap in H3.
      rewrite H1, H2, H3. reflexivity.
  - intros Ho. simpl. unfold bindS, reading.
    rewrite Hp. simpl. rewrite Ho. reflexivity.
  - rewrite Hshape. destruct (_ && _); auto.
Qed.

Lemma addition_overlap_guard_witness :
  tree_add 3 (python true) ex_history (VTree ex_history) []
  = (Raise (ValueError msg_overlap), [])
  /\ results_overlap 2 [] ex_prices ex_other_prices = Ok false.
Proof.
  destruct (addition_overlap_guard 2 (python true) [] ex_history ex_history
              [Day 1%Z; Day 2%Z] [Day 1%Z; Day 2%Z] eq_refl eq_refl eq_refl) as (_ & H & _).
  split; [apply H; reflexivity|].
  destruct (addition_overlap_guard 2 (python true) [] ex_prices ex_other_prices
              [] [] eq_refl eq_refl eq_refl) as (_ & _ & [H'|H']);
    [discriminate H' | exact H'].
Defined.

(** C2 as stated fails for two trees that share an instrument and have no
    measure in common: the addition succeeds. *)
Lemma addition_with_shared_instrument :
  overlap (all_instruments (Portfolio (portfolio_of ex_prices)))
          (all_instruments (Portfolio (portfolio_of ex_other_prices)))
  /\ is_ok (fst (tree_add 4 (python true) ex_prices (VTree ex_other_prices) []))
     = true
  /\ fst (tree_add 4 (python true) ex_prices (VTree ex_other_prices) [])
     <> Raise (ValueError msg_overlap).
Proof.
  split; [exists 1; simpl; auto|].
  split; [reflexivity|].
  vm_compute. discriminate.
Qed.

(** ** Slicing a sum (C1) *)

(** C1 at the sum of [ex_sliced], the slice by [DollarPrice] of a tree of
    two measures, and [ex_third_measure], over the same two swaps and with
    no measure in common.  Where [set_result] raises on a future that is
    done, the sum raises [InvalidStateError]: [MultipleRiskMeasureFuture.__add__]
    sets the result of a future whose constructor has set it.  Where it
    overwrites, the sum sliced by [DollarPrice] holds at [swap1] a result of
    several measures around the price, not the price that [ex_sliced] holds
    there: [as_multiple_result_futures] has put a future of several measures
    around one that was there already. *)
Theorem sum_of_slice_is_not_recovered :
  tree_getitem 3 [] ex_calc (KMeasure DollarPrice) = Ok (VTree ex_sliced)
  /\ same_portfolio ex_sliced ex_third_measure = true
  /\ isdisjoint (risk_measures_of ex_sliced) (risk_measures_of ex_third_measure) = true
  /\ tree_getitem 5 [] ex_sliced (KPriceable swap1)
     = Ok (VFloat (ex_float 1 DollarPrice 10))
  /\ sum_sliced_at 5 (python true) [] ex_sliced ex_third_measure DollarPrice swap1
     = Raise InvalidStateError
  /\ sum_sliced_at 5 (python false) [] ex_sliced ex_third_measure DollarPrice swap1
     = Ok (VMulti (Own swap1 [(DollarPrice, VFloat (ex_float 1 DollarPrice 10))]))
  /\ (forall single_shot : bool,
         sum_sliced_at 5 (python single_shot) [] ex_sliced ex_third_measure
                       DollarPrice swap1
         <> tree_getitem 5 [] ex_sliced (KPriceable swap1)).
Proof.
  split; [reflexivity|]. split; [reflexivity|]. split; [reflexivity|].
  split; [reflexivity|]. split; [reflexivity|]. split; [reflexivity|].
  intros [|]; vm_compute; discriminate.
Qed.

(** The sum of two trees whose futures hold their values directly is
    recovered by slicing where [set_result] overwrites, and is not built
    where it raises. *)
Lemma sum_of_plain_trees :
  sum_sliced_at 5 (python false) [] ex_dollar_prices ex_third_measure
                DollarPrice swap1
  = tree_getitem 5 [] ex_dollar_prices (KPriceable swap1)
  /\ sum_sliced_at 5 (python false) [] ex_dollar_prices ex_third_measure
                   Price swap2
     = tree_getitem 5 [] ex_third_measure (KPriceable swap2)
  /\ fst (tree_add 5 (python true) ex_dollar_prices (VTree ex_third_measure) [])
     = Raise InvalidStateError.
Proof. repeat split; reflexivity. Qed.

(** ** The operands of a sum (C7) *)

(** C7 at the sum of [ex_two_measures], a tree of two measures whose result
    for [swap1] is the object at address 0 of the store, and
    [ex_other_prices], the prices of [swap1] and [swap4] in a third measure.
    Before the addition the left operand has no [Price] for [swap1]; the
    addition succeeds; after it the left operand answers with the price of
    the right operand: [set_value] has written into the result that the
    future of the operand holds. *)
Theorem addition_writes_into_operand :
  forall single_shot : bool,
    measure_at 3 ex_store ex_two_measures swap1 Price = Raise KeyError
    /\ is_ok (fst (tree_add 4 (python single_shot) ex_two_measures
                            (VTree ex_other_prices) ex_store)) = true
    /\ measure_at 3
         (snd (tree_add 4 (python single_shot) ex_two_measures
                        (VTree ex_other_prices) ex_store))
         ex_two_measures swap1 Price
       = Ok (VFloat (ex_float 1 Price 11))
    /\ contents (snd (tree_add 4 (python single_shot) ex_two_measures
                               (VTree ex_other_prices) ex_store)) (Shared 0)
       <> contents ex_store (Shared 0).
Proof.
  intros [|]; (split; [reflexivity|]); (split; [reflexivity|]);
    (split; [reflexivity|]); vm_compute; discriminate.
Qed.

(** Two operands of one measure each are left as they were: the futures
    written to are new ones. *)
Lemma addition_of_single_measures_keeps_store :
  snd (tree_add 4 (python true) ex_prices (VTree ex_other_prices) ex_store)
  = ex_store.
Proof. reflexivity. Qed.

(** ** Portfolios: equality, first positions, paths *)

Lemma Priceable_nested_ind (P : Priceable -> Prop) :
  (forall i, P (Instrument i)) ->
  (forall qs, Forall P qs -> P (Portfolio qs)) ->
  forall p, P p.
Proof.
  intros Hi Hp. fix IH 1. intros [i|qs]; [apply Hi|].
  apply Hp. induction qs as [|q t IHt]; constructor; [apply IH | exact IHt].
Qed.

Lemma Priceable_eqb_portfolio (ps qs : list Priceable) :
  Priceable_eqb (Portfolio ps) (Portfolio qs) = Priceables_eqb ps qs.
Proof.
  reflexivity.
Qed.

Lemma Priceable_eqb_eq (a b : Priceable) : Priceable_eqb a b = true <-> a = b.
Proof.
  revert b. induction a as [i|ps IH] using Priceable_nested_ind; intros [j|qs].
  - simpl. rewrite Nat.eqb_eq. split; congruence.
  - simpl. split; discriminate.
  - simpl. split; discriminate.
  - rewrite Priceable_eqb_portfolio.
    assert (H : Priceables_eqb ps qs = true <-> ps = qs).
    { revert qs. induction IH as [|p t Hp _ IHt]; intros [|q qs]; simpl;
        try (split; [discriminate | intros E; inversion E]); [tauto|].
      rewrite andb_true_iff, Hp, IHt. split; [intros [-> ->]; reflexivity|].
      intros E. inversion E. auto. }
    rewrite H. split; congruence.
Qed.

Lemma Priceable_eqb_refl (a : Priceable) : Priceable_eqb a a = true.
Proof. now apply Priceable_eqb_eq. Qed.

Lemma paths_portfolio (ps : list Priceable) (key : Priceable) :
  paths (Portfolio ps) key = top_matches key 0 ps ++ nested_paths key 0 ps.
Proof.
  simpl. f_equal. generalize 0. induction ps as [|q t IH]; intros i; simpl;
    [reflexivity|]. now rewrite IH.
Qed.

Lemma first_index_bounds (key : Priceable) (ps : list Priceable) (i j : nat) :
  first_index key i ps = Some j -> i <= j.
Proof.
  revert i. induction ps as [|p t IH]; simpl; intros i H; [discriminate|].
  destruct (Priceable_eqb p key); [inversion H; lia|].
  apply IH in H. lia.
Qed.

Lemma first_index_nth (key : Priceable) (ps : list Priceable) (i j : nat) :
  first_index key i ps = Some j -> nth_error ps (j - i) = Some key.
Proof.
  revert i. induction ps as [|p t IH]; simpl; intros i H; [discriminate|].
  destruct (Priceable_eqb p key) eqn:E.
  - inversion H; subst. rewrite Nat.sub_diag. simpl.
    apply Priceable_eqb_eq in E. now subst.
  - pose proof (first_index_bounds _ _ _ _ H) as Hb.
    apply IH in H.
    replace (j - i) with (S (j - S i)) by lia. exact H.
Qed.

Lemma first_index_shift (key : Priceable) (ps : list Priceable) (i : nat) :
  first_index key (S i) ps = option_map S (first_index key i ps).
Proof.
  revert i. induction ps as [|p t IH]; simpl; intros i; [reflexivity|].
  destruct (Priceable_eqb p key); [reflexivity | apply IH].
Qed.

Lemma first_index_in (key : Priceable) (ps : list Priceable) (i : nat) :
  In key ps -> exists j, first_index key i ps = Some j.
Proof.
  revert i. induction ps as [|p t IH]; simpl; intros i H; [tauto|].
  destruct (Priceable_eqb p key) eqn:E; [eauto|].
  destruct H as [->|H]; [now rewrite Priceable_eqb_refl in E | now apply IH].
Qed.

Lemma top_matches_first (key : Priceable) (ps : list Priceable) (i : nat) :
  hd_error (top_matches key i ps) = option_map (fun j => [j]) (first_index key i ps).
Proof.
  revert i. induction ps as [|p t IH]; simpl; intros i; [reflexivity|].
  destruct (Priceable_eqb p key); [reflexivity | apply IH].
Qed.

Lemma hd_error_app (A : Type) (l1 l2 : list A) :
  hd_error (l1 ++ l2) = match hd_error l1 with
                        | Some x => Some x
                        | None => hd_error l2
                        end.
Proof. destruct l1; reflexivity. Qed.

Lemma paths_nonempty (p key : Priceable) (path : PortfolioPath) :
  In path (paths p key) -> path <> [].
Proof.
  destruct p as [i|ps]; simpl; [tauto|].
  intros H. apply in_app_or in H. destruct H as [H|H].
  - revert H. generalize 0. induction ps as [|q t IH]; simpl; intros i H; [tauto|].
    destruct (Priceable_eqb q key); [destruct H as [<-|H]; [discriminate|]|];
      eapply IH; eauto.
  - revert H. generalize 0.
    induction ps as [|q t IH]; intros i H; [destruct H|].
    apply in_app_or in H. destruct H as [H|H].
    + apply in_map_iff in H. destruct H as [x [<- _]]. discriminate.
    + eapply IH; eauto.
Qed.

(** The first path of an instrument: its first position among the entries,
    or, if it is no entry, its first path in the first nested portfolio
    that has it; that portfolio is at its own first position. *)
Lemma first_path_cases (ps : list Priceable) (key : Priceable) (path : PortfolioPath) :
  hd_error (paths (Portfolio ps) key) = Some path ->
  (exists j, path = [j] /\ first_index key 0 ps = Some j)
  \/ (exists j qs rest,
         path = j :: rest /\ rest <> []
         /\ first_index key 0 ps = None
         /\ nth_error ps j = Some (Portfolio qs)
         /\ first_index (Portfolio qs) 0 ps = Some j
         /\ hd_error (paths (Portfolio qs) key) = Some rest).
Proof.
  rewrite paths_portfolio, hd_error_app, top_matches_first.
  destruct (first_index key 0 ps) as [j|]; simpl.
  - intros H. inversion H. left. eauto.
  - intros H. right.
    (* the first nested portfolio that has the key *)
    assert (G : forall (l : list Priceable) (i : nat),
               hd_error (nested_paths key i l) = Some path ->
               exists k qs rest,
                 path = (i + k) :: rest /\ rest <> []
                 /\ nth_error l k = Some (Portfolio qs)
                 /\ first_index (Portfolio qs) i l = Some (i + k)
                 /\ hd_error (paths (Portfolio qs) key) = Some rest).
    { induction l as [|q t IH]; simpl; intros i Hl; [discriminate|].
      rewrite hd_error_app in Hl.
      destruct (hd_error (map (cons i) (paths q key))) as [x|] eqn:E.
      - inversion Hl; subst x. clear Hl.
        destruct (paths q key) as [|rest tl] eqn:Eq; [discriminate|].
        simpl in E. inversion E; subst path.
        destruct q as [n|qs]; [discriminate|].
        exists 0, qs, rest. rewrite Nat.add_0_r.
        split; [reflexivity|].
        split; [eapply paths_nonempty; rewrite Eq; now left|].
        split; [reflexivity|].
        split; [now rewrite Priceable_eqb_refl|].
        change (hd_error (paths (Portfolio qs) key) = Some rest).
        now rewrite Eq.
      - destruct (IH (S i) Hl) as (k & qs & rest & -> & Hne & Hn & Hf & Hp).
        exists (S k), qs, rest.
        replace (i + S k) with (S i + k) by lia.
        split; [reflexivity|]. split; [exact Hne|]. split; [exact Hn|].
        split; [|exact Hp].
        destruct (Priceable_eqb q (Portfolio qs)) eqn:Eqb; [|exact Hf].
        apply Priceable_eqb_eq in Eqb. subst q.
        (* an equal portfolio further left would have had the key *)
        destruct (paths (Portfolio qs) key); [discriminate Hp | discriminate E]. }
    destruct (G ps 0 H) as (k & qs & rest & Hpath & Hne & Hn & Hf & Hp).
    exists k, qs, rest. simpl in Hpath, Hf. auto 10.
Qed.

(** ** Walking a path *)

Lemma sub_of_result (f : future) (t : tree) :
  sub_of f = Some t -> result_of f = VTree t.
Proof.
  destruct f as [v| | |t']; simpl; try discriminate.
  - destruct v; try discriminate. intros H. now inversion H.
  - intros H. now inversion H.
Qed.

Lemma path_call_leaf_at (tg : tree -> key -> res value) (h : store)
      (path : PortfolioPath) :
  forall (fs : list future) (tgt : target) (r : value),
    tgt = TTuple fs \/ (exists t, tgt = TValue (VTree t) /\ futures_of t = fs) ->
    leaf_at fs path = Some r ->
    exists f, path_call tg h path tgt = Ok (TFuture f) /\ result_of f = r.
Proof.
  induction path as [|j rest IH]; intros fs tgt r Htgt Hleaf; [discriminate|].
  assert (Hstep : forall f, nth_error fs j = Some f ->
                            forall more, path_step tg h tgt j more
                            = Ok (if more then TValue (result_of f) else TFuture f)).
  { intros f Hf more. unfold path_step.
    destruct Htgt as [->|[t [-> <-]]]; unfold nth_future; rewrite Hf; simpl;
      destruct more; reflexivity. }
  destruct rest as [|k rest'].
  - simpl in Hleaf. destruct (nth_error fs j) as [f|] eqn:Hf; [|discriminate].
    inversion Hleaf. exists f. split; [|reflexivity].
    simpl. rewrite (Hstep f eq_refl). reflexivity.
  - simpl in Hleaf. destruct (nth_error fs j) as [f|] eqn:Hf; [|discriminate].
    destruct (sub_of f) as [t|] eqn:Hsub; [|discriminate].
    change (path_call tg h (j :: k :: rest') tgt)
      with (bind (path_step tg h tgt j true) (path_call tg h (k :: rest'))).
    rewrite (Hstep f eq_refl). simpl bind.
    rewrite (sub_of_result _ _ Hsub).
    apply (IH (futures_of t)); [right; eauto | exact Hleaf].
Qed.

Lemma path_result_leaf_at (tg : tree -> key -> res value) (h : store)
      (t : tree) (path : PortfolioPath) (r : value) :
  leaf_at (futures_of t) path = Some r -> path_result tg h t path = Ok r.
Proof.
  intros H. unfold path_result.
  destruct (path_call_leaf_at tg h path (futures_of t) (TTuple (futures_of t)) r
              (or_introl eq_refl) H) as (f & -> & <-).
  reflexivity.
Qed.

(** ** Lookups in a good tree *)

Lemma dict_get_in_keys (V : Type) (d : list (RiskMeasure * V)) (m : RiskMeasure) :
  In m (keys d) -> exists v, dict_get d m = Some v.
Proof.
  induction d as [|[k v] t IH]; simpl; [tauto|].
  intros H. destruct (Nat.eqb_spec k m) as [->|Hne]; [eauto|].
  destruct H as [H|H]; [contradiction | auto].
Qed.

Lemma mem_head (m : RiskMeasure) (l : list RiskMeasure) : mem m (m :: l) = true.
Proof. unfold mem. simpl. now rewrite Nat.eqb_refl. Qed.

Lemma tree_result_view (tg : tree -> key -> res value) (h : store)
      (Q : value -> bool) (t : tree) (path : PortfolioPath) (r : value) :
  good_result h (risk_measures_of t) Q r ->
  path_result tg h t path = Ok r ->
  tree_result tg h t path = Ok (view h (risk_measures_of t) r).
Proof.
  intros Hg Hp. unfold tree_result. rewrite Hp. simpl bind.
  destruct Hg as [o inst items Hc Hnd Hall HQ | m0 v Hrms Hpay HQ].
  - destruct (risk_measures_of t) as [|m0 [|m1 rest]]; try reflexivity.
    simpl. unfold multi_getitem. rewrite Hc. simpl.
    destruct (dict_get_in_keys _ items m0 (Hall m0 (or_introl eq_refl))) as [v Hv].
    rewrite Hv. reflexivity.
  - rewrite Hrms. destruct v; simpl in Hpay; try discriminate; reflexivity.
Qed.

Lemma tree_result_sub (n : nat) (h : store) (t sub : tree) (path : PortfolioPath) :
  risk_measures_of sub = risk_measures_of t ->
  path_result (tree_getitem (S n) h) h t path = Ok (VTree sub) ->
  tree_result (tree_getitem (S n) h) h t path = Ok (VTree sub).
Proof.
  intros Hrms Hp. unfold tree_result. rewrite Hp. simpl bind.
  destruct (risk_measures_of t) as [|m0 [|m1 rest]] eqn:E; try reflexivity.
  simpl. rewrite Hrms. rewrite mem_head. reflexivity.
Qed.

Lemma Forall2_nth_error (A B : Type) (R : A -> B -> Prop) (l1 : list A)
      (l2 : list B) (j : nat) (x : A) :
  Forall2 R l1 l2 -> nth_error l1 j = Some x ->
  exists y, nth_error l2 j = Some y /\ R x y.
Proof.
  intros H. revert j. induction H as [|a b t1 t2 Hab _ IH]; intros [|j] Hn;
    simpl in *; try discriminate.
  - inversion Hn; subst. eauto.
  - auto.
Qed.

Lemma good_at (h : store) (rms : list RiskMeasure) (Q : value -> bool)
      (ps : list Priceable) (fs : list future) (p : Priceable) (j : nat) :
  Forall2 (good_entry h rms Q) ps fs ->
  first_index p 0 ps = Some j ->
  nth_error ps j = Some p
  /\ exists f, nth_error fs j = Some f /\ good_entry h rms Q p f.
Proof.
  intros Hg Hf. apply first_index_nth in Hf. rewrite Nat.sub_0_r in Hf.
  split; [exact Hf|]. eapply Forall2_nth_error; eauto.
Qed.

Lemma first_path_of_entry (ps : list Priceable) (p : Priceable) (j : nat) :
  first_index p 0 ps = Some j ->
  exists rest, paths (Portfolio ps) p = [j] :: rest.
Proof.
  intros H.
  assert (Hh : hd_error (paths (Portfolio ps) p) = Some [j]).
  { rewrite paths_portfolio, hd_error_app, top_matches_first, H. reflexivity. }
  destruct (paths (Portfolio ps) p) as [|x rest]; [discriminate|].
  inversion Hh. eauto.
Qed.

(** [tree[p]] for an entry [p] of the portfolio: the result of the future at
    the first position of [p], or the tree of the nested portfolio. *)
Lemma lookup_entry (n : nat) (h : store) (Q : value -> bool) (t : tree)
      (p : Priceable) (j : nat) (f : future) :
  first_index p 0 (portfolio_of t) = Some j ->
  nth_error (futures_of t) j = Some f ->
  good_entry h (risk_measures_of t) Q p f ->
  tree_getitem (S (S n)) h t (KPriceable p)
  = Ok (match sub_of f with
        | Some sub => VTree sub
        | None => view h (risk_measures_of t) (result_of f)
        end).
Proof.
  intros Hj Hf Hg.
  change (tree_getitem (S (S n)) h t (KPriceable p))
    with (tree_results_item (tree_getitem (S n) h) h t (KPriceable p)).
  unfold tree_results_item, tree_paths. cbn [bind].
  destruct (first_path_of_entry _ _ _ Hj) as [rest ->].
  assert (Hleaf : leaf_at (futures_of t) [j] = Some (result_of f))
    by (simpl; now rewrite Hf).
  apply (path_result_leaf_at (tree_getitem (S n) h) h) in Hleaf.
  destruct Hg as [i f Hsub Hres | qs f fs Hsub Hall].
  - rewrite Hsub. eapply tree_result_view; eauto.
  - rewrite Hsub. rewrite (sub_of_result _ _ Hsub) in Hleaf.
    apply tree_result_sub; [reflexivity | exact Hleaf].
Qed.

(** The first path of an instrument leads to a good result. *)
Lemma leaf_at_first_path (h : store) (rms : list RiskMeasure) (Q : value -> bool)
      (i : nat) (path : PortfolioPath) :
  forall (ps : list Priceable) (fs : list future),
    Forall2 (good_entry h rms Q) ps fs ->
    hd_error (paths (Portfolio ps) (Instrument i)) = Some path ->
    exists r, leaf_at fs path = Some r /\ good_result h rms Q r.
Proof.
  induction path as [|j rest IH]; intros ps fs Hg Hp.
  - apply first_path_cases in Hp.
    destruct Hp as [(j & E & _)|(j & qs & rest & E & _)]; discriminate.
  - apply first_path_cases in Hp.
    destruct Hp as [(j' & E & Hj)|(j' & qs & rest' & E & Hne & _ & Hn & Hj & Hp)];
      inversion E; subst; clear E.
    + destruct (good_at _ _ _ _ _ _ _ Hg Hj) as (_ & f & Hf & Hgf).
      inversion Hgf; subst.
      exists (result_of f). simpl. rewrite Hf. auto.
    + destruct (good_at _ _ _ _ _ _ _ Hg Hj) as (_ & f & Hf & Hgf).
      inversion Hgf as [|qs' f' fs' Hsub Hall]; subst.
      destruct (IH _ _ Hall Hp) as (r & Hr & Hgr).
      exists r. split; [|exact Hgr].
      destruct rest' as [|k rest'']; [contradiction|].
      simpl. rewrite Hf, Hsub. exact Hr.
Qed.

(** [tree[instrument]]: what the first path of the instrument leads to, as
    the tree shows it. *)
Lemma lookup_instrument (n : nat) (h : store) (Q : value -> bool) (t : tree)
      (i : nat) (path : PortfolioPath) (r : value) :
  hd_error (paths (Portfolio (portfolio_of t)) (Instrument i)) = Some path ->
  leaf_at (futures_of t) path = Some r ->
  good_result h (risk_measures_of t) Q r ->
  tree_getitem (S n) h t (KPriceable (Instrument i))
  = Ok (view h (risk_measures_of t) r).
Proof.
  intros Hp Hleaf Hg.
  change (tree_getitem (S n) h t (KPriceable (Instrument i)))
    with (tree_results_item (tree_getitem n h) h t (KPriceable (Instrument i))).
  unfold tree_results_item, tree_paths. cbn [bind].
  destruct (paths (Portfolio (portfolio_of t)) (Instrument i)) as [|x rest];
    [discriminate|].
  inversion Hp; subst x.
  eapply tree_result_view; eauto.
  now apply path_result_leaf_at.
Qed.

(** ** Slices, entry by entry *)

Lemma mapM_Forall2 (A B : Type) (f : A -> res B) (R : A -> B -> Prop) (l : list A) :
  (forall x, In x l -> exists y, f x = Ok y /\ R x y) ->
  exists l', mapM f l = Ok l' /\ Forall2 R l l'.
Proof.
  induction l as [|x t IH]; intros H; simpl.
  - exists []. split; [reflexivity | constructor].
  - destruct (H x (or_introl eq_refl)) as (y & Hy & Hr).
    destruct IH as (l' & Hl & Hall); [intros z Hz; apply H; now right|].
    exists (y :: l'). rewrite Hy, Hl. split; [reflexivity | now constructor].
Qed.

Section Image.

Variable h : store.
Variables Q Q' : value -> bool.
Variables rms rms' : list RiskMeasure.
Variable lam : Priceable -> value -> value.

Hypothesis lam_good :
  forall p r, good_result h rms Q r -> good_result h rms' Q' (lam p r).

Lemma rebuilt_good (ps : list Priceable) (fs : list future)
      (p : Priceable) (f' : future) :
  Forall2 (good_entry h rms Q) ps fs ->
  rebuilt h Q' rms' lam ps fs p f' ->
  good_entry h rms' Q' p f'.
Proof.
  intros Hg (j & f & Hj & Hf & Himg).
  destruct (good_at _ _ _ _ _ _ _ Hg Hj) as (_ & f0 & Hf0 & Hgf).
  rewrite Hf in Hf0. inversion Hf0; subst f0. clear Hf0.
  destruct Himg as [(Hs & Hs' & Hr)|(sub & sub' & Hs & Hs' & Hi)].
  - inversion Hgf as [i f0 _ Hres|qs f0 gs Hsub _]; subst; [|congruence].
    constructor; [exact Hs'|]. rewrite Hr. now apply lam_good.
  - inversion Hgf as [i f0 Hsub _|qs f0 gs Hsub Hall]; subst; [congruence|].
    rewrite Hs in Hsub. inversion Hsub; subst sub. clear Hsub.
    destruct Hi as (Hp & Hm & Hgood & _).
    destruct sub' as [qs' rms'' gs']. simpl in Hp, Hm. subst qs' rms''.
    econstructor; [exact Hs' | exact Hgood].
Qed.

Lemma image_of_entries (ps : list Priceable) (fs fs' : list future) :
  Forall2 (good_entry h rms Q) ps fs ->
  Forall2 (rebuilt h Q' rms' lam ps fs) ps fs' ->
  image h Q' rms' lam (PortfolioRiskResult ps rms fs)
        (PortfolioRiskResult ps rms' fs').
Proof.
  intros Hg Hr.
  split; [reflexivity|]. split; [reflexivity|]. split.
  - unfold good. simpl.
    eapply Forall2_impl; [|exact Hr].
    intros p f' H. eapply rebuilt_good; eauto.
  - simpl. intros i path r Hp Hleaf.
    apply first_path_cases in Hp.
    destruct Hp as [(j & -> & Hj)|(j & qs & rest & -> & Hne & _ & Hn & Hj & Hp)].
    + pose proof (first_index_nth _ _ _ _ Hj) as Hn. rewrite Nat.sub_0_r in Hn.
      destruct (Forall2_nth_error _ _ _ _ _ _ _ Hr Hn) as (f' & Hf' & (j0 & f & Hj0 & Hf & Himg)).
      rewrite Hj in Hj0. inversion Hj0; subst j0. clear Hj0.
      simpl in Hleaf. rewrite Hf in Hleaf. inversion Hleaf; subst r. clear Hleaf.
      destruct (good_at _ _ _ _ _ _ _ Hg Hj) as (_ & f0 & Hf0 & Hgf).
      rewrite Hf in Hf0. inversion Hf0; subst f0. clear Hf0.
      inversion Hgf as [i0 f0 Hsub _|]; subst.
      destruct Himg as [(_ & _ & Hres)|(sub & sub' & Hs & _)]; [|congruence].
      simpl. rewrite Hf'. simpl. now rewrite Hres.
    + destruct (Forall2_nth_error _ _ _ _ _ _ _ Hr Hn) as (f' & Hf' & (j0 & f & Hj0 & Hf & Himg)).
      rewrite Hj in Hj0. inversion Hj0; subst j0. clear Hj0.
      destruct (good_at _ _ _ _ _ _ _ Hg Hj) as (_ & f0 & Hf0 & Hgf).
      rewrite Hf in Hf0. inversion Hf0; subst f0. clear Hf0.
      inversion Hgf as [|qs0 f0 gs Hsub Hall]; subst.
      destruct Himg as [(Hs & _)|(sub & sub' & Hs & Hs' & Hi)]; [congruence|].
      rewrite Hsub in Hs. inversion Hs; subst sub. clear Hs.
      destruct rest as [|k rest']; [contradiction|].
      simpl in Hleaf. rewrite Hf, Hsub in Hleaf. simpl in Hleaf.
      destruct Hi as (_ & _ & _ & Hloc).
      specialize (Hloc i (k :: rest') r Hp Hleaf).
      simpl. rewrite Hf', Hs'. exact Hloc.
Qed.

End Image.

(** ** The slice by a date *)

Lemma memZ_in (d : date) (l : list date) : memZ d l = true <-> In d l.
Proof.
  unfold memZ. rewrite existsb_exists. split.
  - intros [x [Hx E]]. apply Z.eqb_eq in E. now subst.
  - intros H. exists d. split; [exact H | apply Z.eqb_refl].
Qed.

Lemma frame_loc_rows_on (d : date) (f : frame) :
  rows_on d f <> [] -> frame_loc f d = Ok (rows_on d f).
Proof.
  destruct f as [rows|rows]; simpl; [|congruence].
  intros H. destruct (filter (at_date d) rows) as [|e l]; [contradiction|].
  reflexivity.
Qed.

Lemma frame_loc_none (d : date) (f : frame) :
  rows_on d f = [] -> frame_loc f d = Raise KeyError.
Proof.
  destruct f as [rows|rows]; simpl; [|reflexivity].
  destruct (filter (at_date d) rows) as [|e l]; [reflexivity | discriminate].
Qed.

Lemma series_value_on (d : date) (s : SeriesWithInfo) :
  In d (index (s_data s)) ->
  _value_for_date (VSeries s) d = Ok (VFloat (value_on d s)).
Proof.
  intros H. unfold _value_for_date, loc, value_on, reindexed, key_on.
  destruct (series_get (s_data s) d) eqn:E; [reflexivity|].
  apply series_get_none in E. contradiction.
Qed.

(** [_value_for_date] of a value that has the date. *)
Lemma value_for_date_on (d : date) (v : value) :
  has_date d v = true -> _value_for_date v d = Ok (on_date d v).
Proof.
  destruct v; simpl; try discriminate; intros H.
  - apply memZ_in in H. now apply series_value_on.
  - rewrite frame_loc_rows_on; [reflexivity|].
    destruct (rows_on d (t_frame t)); [discriminate | congruence].
Qed.

Lemma has_date_historical (d : date) (v : value) :
  has_date d v = true -> is_historical v = true.
Proof. destruct v; simpl; try discriminate; reflexivity. Qed.

Lemma has_date_sliced (d : date) (v : value) :
  has_date d v = true -> is_sliced (on_date d v) = true.
Proof. destruct v; simpl; try discriminate; reflexivity. Qed.

Lemma sliced_has_payload (v : value) :
  is_sliced v = true -> has_payload v = true.
Proof. destruct v; simpl; try discriminate; reflexivity. Qed.

Lemma keys_map_values (g : value -> value) (d : list (RiskMeasure * value)) :
  keys (map_values g d) = keys d.
Proof. unfold keys, map_values. rewrite map_map. reflexivity. Qed.

Lemma multi_getitem_date (h : store) (d : date) (o : multi) (inst : Priceable)
      (items : list (RiskMeasure * value)) :
  contents h o = Ok (inst, items) ->
  NoDup (keys items) ->
  forallb (fun kv => has_date d (snd kv)) items = true ->
  multi_getitem h o (KDate d)
  = Ok (VMulti (Own inst (map_values (on_date d) items))).
Proof.
  intros Hc Hnd Hall. unfold multi_getitem. rewrite Hc. cbn [bind snd fst].
  rewrite forallb_forall in Hall.
  assert (Hs : forallb (fun kv => is_historical (snd kv)) items = true).
  { apply forallb_forall. intros kv Hin.
    exact (has_date_historical _ _ (Hall kv Hin)). }
  rewrite Hs.
  rewrite (mapM_ok_map _ _ _ (fun kv => (fst kv, on_date d (snd kv)))).
  - cbn [bind]. fold (map_values (on_date d) items).
    rewrite dict_of_nodup; [reflexivity|]. now rewrite keys_map_values.
  - intros kv Hin.
    rewrite (value_for_date_on _ _ (Hall kv Hin)). reflexivity.
Qed.

Lemma date_leaf_good (h : store) (d : date) (rms : list RiskMeasure)
      (p : Priceable) (r : value) :
  good_result h rms (has_date d) r ->
  good_result h rms is_sliced (date_leaf h d rms r).
Proof.
  intros Hg. unfold date_leaf.
  destruct Hg as [o inst items Hc Hnd Hall HQ | m0 v Hrms Hpay HQ].
  - rewrite forallb_forall in HQ.
    assert (Hmulti :
              good_result h rms is_sliced
                (VMulti (Own inst (map_values (on_date d) items)))).
    { eapply good_multi; [reflexivity | | | ].
      - now rewrite keys_map_values.
      - intros m Hm. rewrite keys_map_values. auto.
      - apply forallb_forall. intros kv Hin.
        apply in_map_iff in Hin. destruct Hin as (kv0 & <- & Hin0).
        exact (has_date_sliced _ _ (HQ kv0 Hin0)). }
    destruct rms as [|m0 [|m1 rest]]; try (rewrite Hc; exact Hmulti).
    simpl. rewrite Hc.
    destruct (dict_get_in_keys _ items m0 (Hall m0 (or_introl eq_refl))) as [v Hv].
    cbn [snd]. rewrite Hv.
    assert (Hin : In (m0, v) items).
    { clear -Hv. induction items as [|[k x] t IH]; simpl in *; [discriminate|].
      destruct (Nat.eqb_spec k m0) as [->|]; [inversion Hv; now left | right; auto]. }
    pose proof (has_date_sliced _ _ (HQ _ Hin)) as Hs.
    eapply good_plain; [reflexivity | now apply sliced_has_payload | exact Hs].
  - subst rms.
    destruct v; try discriminate HQ; simpl; eapply good_plain; reflexivity.
Qed.

Lemma depth_portfolio (ps : list Priceable) : depth (Portfolio ps) = S (deepest ps).
Proof. reflexivity. Qed.

Lemma deepest_nth (ps : list Priceable) (j : nat) (p : Priceable) :
  nth_error ps j = Some p -> depth p <= deepest ps.
Proof.
  revert j. induction ps as [|q t IH]; intros [|j] H; simpl in *; try discriminate.
  - inversion H. lia.
  - apply IH in H. lia.
Qed.

Lemma slice_date (h : store) (d : date) (n : nat) :
  forall t : tree,
    tree_depth t <= n ->
    good h (has_date d) t ->
    exists t',
      tree_getitem (S n) h t (KDate d) = Ok (VTree t')
      /\ image h is_sliced (risk_measures_of t)
               (fun _ => date_leaf h d (risk_measures_of t)) t t'.
Proof.
  induction n as [|n IH]; intros [ps rms fs] Hd Hg.
  - unfold tree_depth in Hd. rewrite depth_portfolio in Hd. lia.
  - unfold good in Hg. simpl in Hg. simpl risk_measures_of.
    set (t := PortfolioRiskResult ps rms fs).
    set (body := fun priceable : Priceable =>
                   v <- tree_getitem (S (S n)) h t (KPriceable priceable) ;;
                   match v with
                   | VMulti _ | VTree _ =>
                       r <- value_getitem (tree_getitem (S n) h) h v (KDate d) ;;
                       Ok (PricingFuture r)
                   | VSeries _ | VTable _ =>
                       r <- _value_for_date v d ;; Ok (PricingFuture r)
                   | _ => Raise (RuntimeError msg_historical)
                   end).
    assert (Hbody : forall p, In p ps ->
              exists f', body p = Ok f'
                         /\ rebuilt h is_sliced rms (fun _ => date_leaf h d rms)
                                    ps fs p f').
    { intros p Hin.
      destruct (first_index_in p ps 0 Hin) as [j Hj].
      destruct (good_at _ _ _ _ _ _ _ Hg Hj) as (Hn & f & Hf & Hgf).
      unfold body.
      rewrite (lookup_entry n h (has_date d) t p j f Hj Hf Hgf).
      cbn [bind].
      inversion Hgf as [i f0 Hsub Hres | qs f0 gs Hsub Hall]; subst.
      - (* an instrument *)
        rewrite Hsub. simpl risk_measures_of.
        pose proof (date_leaf_good h d rms (Instrument i) _ Hres) as Hgood.
        assert (Hcase :
                  match view h rms (result_of f) with
                  | VMulti _ | VTree _ =>
                      r <- value_getitem (tree_getitem (S n) h) h
                             (view h rms (result_of f)) (KDate d) ;;
                      Ok (PricingFuture r)
                  | VSeries _ | VTable _ =>
                      r <- _value_for_date (view h rms (result_of f)) d ;;
                      Ok (PricingFuture r)
                  | _ => Raise (RuntimeError msg_historical)
                  end
                  = Ok (PricingFuture (date_leaf h d rms (result_of f)))).
        { destruct Hres as [o inst items Hc Hnd Hms HQ | m0 v Hrms Hpay HQ].
          - destruct rms as [|m0 [|m1 rest]].
            + simpl. rewrite (multi_getitem_date _ _ _ _ _ Hc Hnd HQ).
              unfold date_leaf. rewrite Hc. reflexivity.
            + unfold date_leaf. simpl. rewrite Hc. cbn [snd].
              destruct (dict_get_in_keys _ items m0 (Hms m0 (or_introl eq_refl)))
                as [v Hv].
              rewrite Hv.
              assert (Hin' : In (m0, v) items).
              { clear -Hv. induction items as [|[k x] t0 IH0]; simpl in *;
                  [discriminate|].
                destruct (Nat.eqb_spec k m0) as [->|];
                  [inversion Hv; now left | right; auto]. }
              rewrite forallb_forall in HQ.
              pose proof (HQ _ Hin') as Hv'. cbn [snd] in Hv'.
              pose proof (value_for_date_on _ _ Hv') as Hvd.
              destruct v; try discriminate Hv'; cbv beta iota;
                rewrite Hvd; reflexivity.
            + simpl. rewrite (multi_getitem_date _ _ _ _ _ Hc Hnd HQ).
              unfold date_leaf. rewrite Hc. reflexivity.
          - subst rms. unfold date_leaf.
            pose proof (value_for_date_on _ _ HQ) as Hvd.
            destruct v; try discriminate HQ; cbn [view]; cbv beta iota;
              rewrite Hvd; reflexivity. }
        rewrite Hcase. eexists. split; [reflexivity|].
        exists j, f. split; [exact Hj|]. split; [exact Hf|].
        left. split; [exact Hsub|]. split; [|reflexivity].
        simpl. destruct Hgood; [reflexivity|].
        destruct v; simpl in *; try discriminate; reflexivity.
      - (* a nested portfolio *)
        rewrite Hsub. cbv beta iota delta [value_getitem].
        destruct (IH (PortfolioRiskResult qs rms gs)) as (sub' & Hsub' & Himg).
        + unfold tree_depth in *. simpl portfolio_of in *.
          rewrite depth_portfolio in Hd.
          pose proof (deepest_nth _ _ _ Hn). lia.
        + exact Hall.
        + rewrite Hsub'. cbn [bind]. eexists. split; [reflexivity|].
          exists j, f. split; [exact Hj|]. split; [exact Hf|].
          right. exists (PortfolioRiskResult qs rms gs), sub'.
          split; [exact Hsub|]. split; [reflexivity | exact Himg]. }
    destruct (mapM_Forall2 _ _ body _ ps Hbody) as (fs' & Hmap & Hall).
    exists (PortfolioRiskResult ps rms fs'). split.
    + change (tree_getitem (S (S n)) h t (KDate d))
        with (bind (mapM body (portfolio_of t))
                   (fun fs0 => Ok (VTree (PortfolioRiskResult
                                            (portfolio_of t) (risk_measures_of t) fs0)))).
      simpl portfolio_of. rewrite Hmap. reflexivity.
    + apply (image_of_entries h (has_date d) is_sliced rms rms
               (fun _ => date_leaf h d rms)); auto.
      intros p r. apply date_leaf_good; exact p.
Qed.

(** ** The slice by a measure *)

Lemma mem_in (m : RiskMeasure) (l : list RiskMeasure) : mem m l = true <-> In m l.
Proof.
  unfold mem. rewrite existsb_exists. split.
  - intros [x [Hx E]]. apply Nat.eqb_eq in E. now subst.
  - intros H. exists m. split; [exact H | apply Nat.eqb_refl].
Qed.

Lemma keys_filter_nodup (g : RiskMeasure * value -> bool)
      (items : list (RiskMeasure * value)) :
  NoDup (keys items) -> NoDup (keys (filter g items)).
Proof.
  unfold keys. induction items as [|kv t IH]; simpl; intros H; [constructor|].
  inversion H as [|? ? Hni Hnd]; subst.
  destruct (g kv); simpl; [|auto].
  constructor; [|auto].
  intros Hin. apply Hni.
  apply in_map_iff in Hin. destruct Hin as (x & E & Hx).
  apply filter_In in Hx. apply in_map_iff. exists x. tauto.
Qed.

Lemma in_keys_filter (m : RiskMeasure) (items : list (RiskMeasure * value)) :
  In m (keys items) ->
  In m (keys (filter (fun kv => Nat.eqb (fst kv) m) items)).
Proof.
  unfold keys. intros H. apply in_map_iff in H. destruct H as (kv & E & Hin).
  apply in_map_iff. exists kv. split; [exact E|].
  apply filter_In. split; [exact Hin|]. apply Nat.eqb_eq. exact E.
Qed.

Lemma measure_leaf_good (h : store) (Q : value -> bool) (rms : list RiskMeasure)
      (m : RiskMeasure) (p : Priceable) (r : value) :
  (exists m1 m2 rest, rms = m1 :: m2 :: rest) ->
  In m rms ->
  good_result h rms Q r ->
  good_result h [m] Q (measure_leaf h m p r).
Proof.
  intros (m1 & m2 & rest & Hrms) Hm Hg.
  destruct Hg as [o inst items Hc Hnd Hall HQ | m0 v Hrms' Hpay HQ];
    [|congruence].
  unfold measure_leaf. rewrite Hc. cbn [snd].
  eapply good_multi; [reflexivity | | | ].
  - now apply keys_filter_nodup.
  - intros m' [<-|[]]. apply in_keys_filter. auto.
  - rewrite forallb_forall in *. intros kv Hin.
    apply filter_In in Hin. apply HQ. tauto.
Qed.

Lemma map_pair_id (A B : Type) (l : list (A * B)) :
  map (fun kv => (fst kv, snd kv)) l = l.
Proof.
  induction l as [|[a b] t IH]; simpl; [reflexivity | now rewrite IH].
Qed.

Lemma slice_measure (h : store) (Q : value -> bool) (m : RiskMeasure) (n : nat) :
  forall t : tree,
    tree_depth t <= n ->
    good h Q t ->
    (exists m1 m2 rest, risk_measures_of t = m1 :: m2 :: rest) ->
    In m (risk_measures_of t) ->
    exists t',
      tree_getitem (S n) h t (KMeasure m) = Ok (VTree t')
      /\ image h Q [m] (measure_leaf h m) t t'.
Proof.
  induction n as [|n IH]; intros [ps rms fs] Hd Hg Hrms Hm.
  - unfold tree_depth in Hd. rewrite depth_portfolio in Hd. lia.
  - unfold good in Hg. simpl in Hg, Hrms, Hm.
    set (t := PortfolioRiskResult ps rms fs).
    set (body := fun priceable : Priceable =>
                   v <- tree_getitem (S (S n)) h t (KPriceable priceable) ;;
                   match v with
                   | VTree sub =>
                       r <- tree_getitem (S n) h sub (KMeasure m) ;; as_nested r
                   | VMulti o =>
                       c <- contents h o ;;
                       Ok (new_MultipleRiskMeasureFuture priceable
                             (map (fun kv => (fst kv, PricingFuture (snd kv)))
                                  (_value_for_risk_measure (snd c) (KMeasure m))))
                   | VTable _ => Ok (new_MultipleRiskMeasureFuture priceable [])
                   | VSeries s =>
                       match s_data s with
                       | [] => Ok (new_MultipleRiskMeasureFuture priceable [])
                       | _ :: _ => Raise KeyError
                       end
                   | _ => Raise TypeError
                   end).
    assert (Hbody : forall p, In p ps ->
              exists f', body p = Ok f'
                         /\ rebuilt h Q [m] (measure_leaf h m) ps fs p f').
    { intros p Hin.
      destruct (first_index_in p ps 0 Hin) as [j Hj].
      destruct (good_at _ _ _ _ _ _ _ Hg Hj) as (Hn & f & Hf & Hgf).
      unfold body.
      rewrite (lookup_entry n h Q t p j f Hj Hf Hgf).
      cbn [bind].
      inversion Hgf as [i f0 Hsub Hres | qs f0 gs Hsub Hall]; subst.
      - rewrite Hsub. simpl risk_measures_of.
        inversion Hres as [o inst items Hc Hnd Hms HQ Hro
                          | m0 v Hrms' Hpay HQ Hro].
        + destruct Hrms as (m1 & m2 & rest & Hrms). rewrite Hrms.
          cbn [view]. rewrite Hc. cbn [bind snd].
          eexists. split; [reflexivity|].
          exists j, f. split; [exact Hj|]. split; [exact Hf|].
          left. split; [exact Hsub|]. split; [reflexivity|].
          unfold new_MultipleRiskMeasureFuture. cbn [result_of].
          rewrite <- Hro.
          unfold measure_leaf, _value_for_risk_measure. rewrite Hc. cbn [snd].
          rewrite map_map. cbn [fst snd result_of].
          rewrite map_pair_id.
          rewrite dict_of_nodup; [reflexivity|]. now apply keys_filter_nodup.
        + destruct Hrms as (m1 & m2 & rest & Hrms). congruence.
      - rewrite Hsub.
        destruct (IH (PortfolioRiskResult qs rms gs)) as (sub' & Hsub' & Himg).
        + unfold tree_depth in *. simpl portfolio_of in *.
          rewrite depth_portfolio in Hd.
          pose proof (deepest_nth _ _ _ Hn). lia.
        + exact Hall.
        + exact Hrms.
        + exact Hm.
        + rewrite Hsub'. cbn [bind as_nested]. eexists. split; [reflexivity|].
          exists j, f. split; [exact Hj|]. split; [exact Hf|].
          right. exists (PortfolioRiskResult qs rms gs), sub'.
          split; [exact Hsub|]. split; [reflexivity | exact Himg]. }
    destruct (mapM_Forall2 _ _ body _ ps Hbody) as (fs' & Hmap & Hall).
    exists (PortfolioRiskResult ps [m] fs'). split.
    + change (tree_getitem (S (S n)) h t (KMeasure m))
        with (if existsb (fun it => negb (mem it (risk_measures_of t))) [m]
              then Raise (ValueError msg_not_computed)
              else match risk_measures_of t with
                   | [_] => Ok (VTree t)
                   | _ => bind (mapM body (portfolio_of t))
                               (fun fs0 => Ok (VTree (PortfolioRiskResult
                                                        (portfolio_of t) [m] fs0)))
                   end).
      simpl portfolio_of. simpl risk_measures_of.
      assert (Hmem : mem m rms = true) by now apply mem_in.
      cbn [existsb]. rewrite Hmem. cbn [negb orb].
      destruct Hrms as (m1 & m2 & rest & ->).
      rewrite Hmap. reflexivity.
    + apply (image_of_entries h Q Q rms [m] (measure_leaf h m)); auto.
      intros p r. now apply measure_leaf_good.
Qed.

(** ** Historical trees are good trees *)

Lemma nodupb_NoDup (l : list RiskMeasure) : nodupb l = true -> NoDup l.
Proof.
  induction l as [|x t IH]; simpl; intros H; [constructor|].
  apply andb_prop in H. destruct H as [Hx Ht].
  constructor; [|auto].
  intros Hin. apply mem_in in Hin. rewrite Hin in Hx. discriminate.
Qed.

Lemma measures_eqb_eq (a b : list RiskMeasure) : measures_eqb a b = true -> a = b.
Proof.
  revert b. induction a as [|x t IH]; intros [|y b]; simpl; try discriminate;
    [reflexivity|].
  intros H. apply andb_prop in H. destruct H as [Hx Ht].
  apply Nat.eqb_eq in Hx. subst. f_equal. auto.
Qed.

Lemma historical_result_good (h : store) (d : date) (rms : list RiskMeasure)
      (r : value) :
  historical_result h d rms r = true -> good_result h rms (has_date d) r.
Proof.
  destruct r; simpl; try discriminate.
  destruct (contents h o) as [[inst items]|] eqn:Hc; [|discriminate].
  simpl. intros H.
  apply andb_prop in H. destruct H as [H H3].
  apply andb_prop in H. destruct H as [H1 H2].
  eapply good_multi; [exact Hc | now apply nodupb_NoDup | | exact H3].
  intros m Hm. rewrite forallb_forall in H2. apply mem_in. auto.
Qed.

Lemma historical_entry_portfolio (h : store) (d : date) (rms : list RiskMeasure)
      (qs : list Priceable) (f : future) :
  historical_entry h d rms (Portfolio qs) f
  = match sub_of f with
    | Some (PortfolioRiskResult qs' rms' fs) =>
        Priceable_eqb (Portfolio qs) (Portfolio qs')
        && measures_eqb rms rms'
        && historical_entries h d rms qs fs
    | None => false
    end.
Proof.
  simpl. destruct (sub_of f) as [[qs' rms' fs]|]; [|reflexivity].
  f_equal. revert fs.
  induction qs as [|q t IH]; intros [|g fs]; simpl; try reflexivity.
  now rewrite IH.
Qed.

Lemma historical_entry_good (h : store) (d : date) (rms : list RiskMeasure)
      (p : Priceable) :
  forall f, historical_entry h d rms p f = true ->
            good_entry h rms (has_date d) p f.
Proof.
  induction p as [i|qs IH] using Priceable_nested_ind; intros f H.
  - simpl in H. destruct (sub_of f) eqn:Hsub; [discriminate|].
    constructor; [exact Hsub | now apply historical_result_good].
  - rewrite historical_entry_portfolio in H.
    destruct (sub_of f) as [[qs' rms' fs]|] eqn:Hsub; [|discriminate].
    apply andb_prop in H. destruct H as [H H3].
    apply andb_prop in H. destruct H as [H1 H2].
    apply Priceable_eqb_eq in H1. inversion H1; subst qs'.
    apply measures_eqb_eq in H2. subst rms'.
    econstructor; [exact Hsub|].
    clear Hsub H1. revert fs H3.
    induction IH as [|q t Hq _ IHt]; intros [|g fs] H3; simpl in H3;
      try discriminate; [constructor|].
    apply andb_prop in H3. destruct H3 as [Hg Hfs].
    constructor; [now apply Hq | now apply IHt].
Qed.

Lemma historical_good (h : store) (d : date) (t : tree) :
  historical h d t = true ->
  good h (has_date d) t
  /\ exists m1 m2 rest, risk_measures_of t = m1 :: m2 :: rest.
Proof.
  unfold historical, good.
  destruct (risk_measures_of t) as [|m1 [|m2 rest]] eqn:E; try discriminate.
  intros H. split; [|eauto].
  revert H. generalize (futures_of t). generalize (m1 :: m2 :: rest).
  induction (portfolio_of t) as [|p ps IH]; intros rms [|f fs] H; simpl in H;
    try discriminate; [constructor|].
  apply andb_prop in H. destruct H as [Hp Hps].
  constructor; [now apply historical_entry_good | now apply IH].
Qed.

(** ** Indexing by date, instrument and measure (C5) *)

Lemma dict_get_in (V : Type) (d : list (RiskMeasure * V)) (m : RiskMeasure) (v : V) :
  dict_get d m = Some v -> In (m, v) d.
Proof.
  induction d as [|[k x] t IH]; simpl; [discriminate|].
  destruct (Nat.eqb_spec k m) as [->|]; intros H;
    [inversion H; now left | right; auto].
Qed.

Lemma dict_get_map_values (g : value -> value) (d : list (RiskMeasure * value))
      (m : RiskMeasure) :
  dict_get (map_values g d) m = option_map g (dict_get d m).
Proof.
  induction d as [|[k x] t IH]; simpl; [reflexivity|].
  destruct (Nat.eqb k m); [reflexivity | exact IH].
Qed.

Lemma dict_get_filter (d : list (RiskMeasure * value)) (m : RiskMeasure) :
  dict_get (filter (fun kv => Nat.eqb (fst kv) m) d) m = dict_get d m.
Proof.
  induction d as [|[k x] t IH]; simpl; [reflexivity|].
  destruct (Nat.eqb k m) eqn:E; simpl; [now rewrite E | exact IH].
Qed.

Lemma getitems_tree (fuel : nat) (h : store) (t : tree) (k : key) (ks : list key) :
  getitems fuel h (VTree t) (k :: ks)
  = bind (tree_getitem fuel h t k) (fun r => getitems fuel h r ks).
Proof. reflexivity. Qed.

Lemma view_several (h : store) (m1 m2 : RiskMeasure) (rest : list RiskMeasure)
      (r : value) :
  view h (m1 :: m2 :: rest) r = r.
Proof. reflexivity. Qed.

Lemma view_one_own (h : store) (m : RiskMeasure) (p : Priceable)
      (items : list (RiskMeasure * value)) (v : value) :
  dict_get items m = Some v ->
  view h [m] (VMulti (Own p items)) = v.
Proof. intros H. simpl. now rewrite H. Qed.

Lemma view_sliced (h : store) (rms : list RiskMeasure) (r : value) :
  is_sliced r = true -> view h rms r = r.
Proof.
  destruct r; simpl; try discriminate; intros _;
    destruct rms as [|m0 [|m1 rest]]; reflexivity.
Qed.




(** ** Multiplication (C8) *)

Lemma tree_product_futures (h : store) (x : num) (p : list Priceable)
      (rms : list RiskMeasure) (fs : list future) :
  tree_product h x (PortfolioRiskResult p rms fs)
  = PortfolioRiskResult p rms (map (future_product h x) fs).
Proof. reflexivity. Qed.

Lemma tree_has_product_futures (h : store) (p : list Priceable)
      (rms : list RiskMeasure) (fs : list future) :
  tree_has_product h (PortfolioRiskResult p rms fs)
  = forallb (future_has_product h) fs.
Proof. reflexivity. Qed.

Lemma tree_nesting_futures (p : list Priceable) (rms : list RiskMeasure)
      (fs : list future) :
  tree_nesting (PortfolioRiskResult p rms fs) = S (futures_nesting fs).
Proof. reflexivity. Qed.

Lemma futures_nesting_in (f : future) (fs : list future) :
  In f fs -> future_nesting f <= futures_nesting fs.
Proof.
  induction fs as [|g r IH]; [intros []|]. cbn [futures_nesting].
  intros [->|Hin]; [lia|]. specialize (IH Hin). lia.
Qed.

Lemma value_op_has_payload (fuel : nat) (h : store) (x : num) (v : value) :
  has_payload v = true ->
  value_op fuel h (fun y => num_mul y x) v = Ok (scaled_payload x v).
Proof. destruct v; simpl; try discriminate; destruct fuel; reflexivity. Qed.

(** [MultipleRiskMeasureResult.__mul__] with a number, on values that have
    a payload. *)
Lemma multi_mul_scales (fuel : nat) (h : store) (x : num) (o : multi)
      (inst : Priceable) (items : list (RiskMeasure * value)) :
  contents h o = Ok (inst, items) ->
  NoDup (keys items) ->
  forallb (fun kv => has_payload (snd kv)) items = true ->
  multi_mul fuel h o (VNum x) = Ok (VMulti (Own inst (scaled_items x items))).
Proof.
  intros Hc Hnd Hall. unfold multi_mul. cbn [value_op]. rewrite Hc.
  cbn [bind fst snd].
  rewrite (mapM_ok_map _ _ _ (fun kv => (fst kv, scaled_payload x (snd kv)))).
  - cbn [bind]. fold (scaled_items x items).
    rewrite dict_of_nodup; [reflexivity|].
    unfold keys, scaled_items. rewrite map_map. cbn [fst]. exact Hnd.
  - intros kv Hin. rewrite forallb_forall in Hall.
    rewrite value_op_has_payload by (apply Hall, Hin). reflexivity.
Qed.

(** [PricingFuture.__mul__] with a number, given what the product of a tree
    is for the trees that the future may hold. *)
Lemma future_mul_product (h : store) (x : num) (fuel b : nat)
      (tm : tree -> value -> res value) (v : value) :
  (forall t, tree_has_product h t = true -> tree_nesting t <= b ->
             tm t (VNum x) = Ok (VTree (tree_product h x t))) ->
  has_product h v = true ->
  nesting v <= b ->
  PricingFuture_mul tm fuel h (PricingFuture v) (VNum x)
  = Ok (PricingFuture (product h x v)).
Proof.
  intros Htm Hv Hb. unfold PricingFuture_mul. cbn [result_of].
  destruct v as [f|s|tb|e|y|s|e|o|t]; cbn [has_product has_payload] in Hv;
    try discriminate Hv.
  - unfold value_mul. rewrite value_op_has_payload by reflexivity. reflexivity.
  - unfold value_mul. rewrite value_op_has_payload by reflexivity. reflexivity.
  - unfold value_mul. rewrite value_op_has_payload by reflexivity. reflexivity.
  - unfold value_mul. rewrite value_op_has_payload by reflexivity. reflexivity.
  - destruct (contents h o) as [[inst items]|] eqn:Hc; [|discriminate Hv].
    cbn [snd] in Hv. apply andb_prop in Hv. destruct Hv as [Hnd Hall].
    unfold value_mul.
    rewrite (multi_mul_scales fuel h x o inst items Hc (nodupb_NoDup _ Hnd) Hall).
    cbn [bind construct product]. rewrite Hc. reflexivity.
  - cbn [nesting] in Hb. unfold value_mul. rewrite (Htm t Hv Hb). reflexivity.
Qed.

(** [PortfolioRiskResult.__mul__] with a number. *)
Lemma tree_mul_product (h : store) (x : num) :
  forall (n : nat) (t : tree),
    tree_has_product h t = true ->
    tree_nesting t <= n ->
    tree_mul n h t (VNum x) = Ok (VTree (tree_product h x t)).
Proof.
  induction n as [|n IH]; intros [p rms fs] Hs Hn.
  - rewrite tree_nesting_futures in Hn. lia.
  - rewrite tree_product_futures.
    cbn [tree_mul futures_of portfolio_of risk_measures_of].
    rewrite (mapM_ok_map _ _ _ (future_product h x)); [reflexivity|].
    intros f Hin.
    rewrite tree_has_product_futures, forallb_forall in Hs.
    specialize (Hs f Hin).
    assert (Hf : future_nesting f <= n).
    { rewrite tree_nesting_futures in Hn.
      pose proof (futures_nesting_in f fs Hin). lia. }
    destruct f as [v|i m2f r|gs r|t']; cbn [future_has_product] in Hs;
      try discriminate Hs.
    + cbn [future_product]. apply (future_mul_product h x n n); auto.
    + cbn [future_nesting] in Hf. rewrite (IH t' Hs Hf). reflexivity.
Qed.

(** C8, as amended.  Multiplying by a number [x] (an int or a float)
    - a [PricingFuture] returns a new [PricingFuture] that holds the
      product of its result: a scalar, a series, a table or a number with
      its payload scaled by [x], entry by entry; a result of several
      measures with each of its values so scaled; a tree with its futures
      multiplied;
    - a result of several measures whose values have a payload returns a
      new result of the same instrument and measures with every value
      scaled;
    - a tree whose futures, at any depth of nesting, are [PricingFuture]s
      and trees returns a new tree of the same portfolios and measures with
      every future multiplied.
    Multiplying a future of a class that inherits [PricingFuture.__mul__]
    by a string, a series, a table, an exception, a result or a tree, none
    of which is a number, raises the [ValueError] "Can only multiply by an
    int or float". *)
Theorem multiply_scales :
  forall (fuel : nat) (h : store) (x : num),
    (forall v : value,
        has_product h v = true ->
        nesting v <= fuel ->
        PricingFuture_mul (tree_mul fuel h) fuel h (PricingFuture v) (VNum x)
        = Ok (PricingFuture (product h x v)))
    /\ (forall (o : multi) (inst : Priceable) (items : list (RiskMeasure * value)),
          contents h o = Ok (inst, items) ->
          NoDup (keys items) ->
          forallb (fun kv => has_payload (snd kv)) items = true ->
          multi_mul fuel h o (VNum x)
          = Ok (VMulti (Own inst (scaled_items x items))))
    /\ (forall t : tree,
          tree_has_product h t = true ->
          tree_nesting t <= fuel ->
          tree_mul fuel h t (VNum x) = Ok (VTree (tree_product h x t)))
    /\ (forall (self : future) (other : value),
          is_no_number other = true ->
          PricingFuture_mul (tree_mul fuel h) fuel h self other
          = Raise (ValueError msg_multiply)).
Proof.
  intros fuel h x. split; [|split; [|split]].
  - intros v Hv Hn. apply (future_mul_product h x fuel fuel); auto.
    intros t Ht Hb. now apply tree_mul_product.
  - intros o inst items. apply multi_mul_scales.
  - intros t. apply tree_mul_product.
  - intros self other Hn.
    unfold PricingFuture_mul. destruct other; simpl in Hn; try discriminate;
      reflexivity.
Qed.

Lemma multiply_scales_witness :
  PricingFuture_mul (tree_mul 0 []) 0 [] (PricingFuture (VSeries ex_s1))
                    (VNum (Num (inject_Z 2)))
  = Ok (PricingFuture (VSeries (series_map (fun y => num_mul y (Num (inject_Z 2)))
                                           ex_s1)))
  /\ PricingFuture_mul (tree_mul 0 []) 0 [] (PricingFuture (VMulti ex_multi_delta))
                       (VNum (Num (inject_Z 2)))
     = Ok (PricingFuture (product [] (Num (inject_Z 2)) (VMulti ex_multi_delta)))
  /\ multi_mul 0 ex_store (Shared 0) (VNum (Num (inject_Z 2)))
     = Ok (VMulti (Own swap1
                     [(DollarPrice,
                       scaled_payload (Num (inject_Z 2))
                                      (VFloat (ex_float 1 DollarPrice 10)));
                      (IRDelta,
                       scaled_payload (Num (inject_Z 2))
                                      (VFloat (ex_float 1 IRDelta 20)))]))
  /\ tree_mul 4 [] ex_mixed_tree (VNum (Num (inject_Z 2)))
     = Ok (VTree (tree_product [] (Num (inject_Z 2)) ex_mixed_tree))
  /\ tree_mul 3 [] ex_nested_tree (VNum (Num (inject_Z 2)))
     = Ok (VTree (tree_product [] (Num (inject_Z 2)) ex_nested_tree))
  /\ PricingFuture_mul (tree_mul 0 []) 0 [] (PricingFuture (VSeries ex_s1))
                       (VStr "two")
     = Raise (ValueError msg_multiply).
Proof.
  destruct (multiply_scales 0 [] (Num (inject_Z 2))) as (H1 & _ & _ & H4).
  destruct (multiply_scales 0 ex_store (Num (inject_Z 2))) as (_ & H2 & _).
  destruct (multiply_scales 3 [] (Num (inject_Z 2))) as (_ & _ & H3 & _).
  destruct (multiply_scales 4 [] (Num (inject_Z 2))) as (_ & _ & H3' & _).
  split; [apply (H1 (VSeries ex_s1)); [reflexivity | cbn; lia]|].
  split; [apply (H1 (VMulti ex_multi_delta)); [reflexivity | cbn; lia]|].
  split.
  - apply (H2 (Shared 0) swap1 _ eq_refl); [|reflexivity].
    repeat constructor; simpl; intuition discriminate.
  - split; [apply H3'; [reflexivity | vm_compute; lia]|].
    split; [apply H3; [reflexivity | vm_compute; lia]|].
    apply H4. reflexivity.
Defined.

(** C8 as stated fails on the class of the error: a future multiplied by a
    string raises a [ValueError], which is no [TypeError].  It fails also,
    by two slips that the amended claim leaves out, where a tree or a
    result of several measures is multiplied by a string, which raises
    nothing and returns the [ValueError], and where a tree of two measures,
    whose futures are [MultipleRiskMeasureFuture]s, is multiplied by a
    number: [self.__class__(value)] calls the constructor of that class
    with one argument and the product raises [TypeError]. *)
Lemma multiply_by_a_string :
  PricingFuture_mul (tree_mul 0 []) 0 []
                    (PricingFuture (VFloat (ex_float 1 DollarPrice 10))) (VStr "two")
  = Raise (ValueError msg_multiply)
  /\ PricingFuture_mul (tree_mul 0 []) 0 []
                       (PricingFuture (VFloat (ex_float 1 DollarPrice 10))) (VStr "two")
     <> Raise TypeError
  /\ tree_mul 1 [] ex_prices (VStr "two") = Ok (VExc (ValueError msg_multiply))
  /\ multi_mul 0 [] ex_multi (VStr "two") = Ok (VExc (ValueError msg_multiply))
  /\ tree_mul 3 [] ex_calc (VNum (Num (inject_Z 2))) = Raise TypeError.
Proof.
  split; [reflexivity|]. split; [discriminate|]. repeat split; reflexivity.
Qed.

(** ** The length of a slice *)

(** The slice of a tree by a date has one future for each entry of the
    portfolio, whatever the tree had. *)
Lemma date_slice_len (fuel : nat) (h : store) (t t' : tree) (d : date) :
  tree_getitem fuel h t (KDate d) = Ok (VTree t') ->
  tree_len t' = List.length (portfolio_of t)
  /\ portfolio_of t' = portfolio_of t.
Proof.
  destruct fuel as [|n]; [discriminate|].
  cbn [tree_getitem].
  match goal with
  | |- bind (mapM ?f ?l) _ = _ -> _ => destruct (mapM f l) as [fs|] eqn:E
  end; cbn [bind]; [|discriminate].
  intros H. inversion H. subst t'. unfold tree_len. simpl.
  split; [|reflexivity].
  eapply mapM_length. exact E.
Qed.

(** * Further properties of the module *)

(** ** The provenance check of the addition *)

Lemma risk_keys_compatible_refl (fuel : nat) (h : store) (v : value) (b : bool) :
  _risk_keys_compatible fuel h v v = Ok b -> b = true.
Proof.
  unfold _risk_keys_compatible.
  destruct (first_leaf fuel h v) as [l|]; cbn [bind]; [|discriminate].
  destruct (risk_key_of l) as [k|]; cbn [bind]; [|discriminate].
  rewrite RiskKey_eqb_refl. congruence.
Qed.

Lemma provenance_check_true (fuel : nat) (h : store) (self : tree) (b : bool) :
  provenance_check fuel h self = Ok b -> b = true.
Proof.
  unfold provenance_check.
  destruct (first_value fuel h self self) as [l|]; cbn [bind]; [|discriminate].
  apply risk_keys_compatible_refl.
Qed.

(** X1.  [PortfolioRiskResult.__add__] checks the provenance of
    [first_value(self)] against [first_value(self)]: the check never
    answers False, and the sum of two trees is never the [ValueError]
    "Results must have matching scenario and location", whatever the keys
    of the other tree; two trees priced under different scenarios and
    locations are added. *)
Theorem provenance_check_compares_self :
  forall (fuel : nat) (py : Interp) (h : store) (self other : tree),
    provenance_check fuel h self <> Ok false
    /\ fst (tree_add fuel py self (VTree other) h)
       <> Ok (VExc (ValueError msg_matching))
    /\ exists l r sum,
         first_value 2 [] ex_other_prices ex_other_prices = Ok l
         /\ first_value 2 [] ex_scenario_prices ex_scenario_prices = Ok r
         /\ _risk_keys_compatible 2 [] l r = Ok false
         /\ fst (tree_add 3 (python true) ex_other_prices
                          (VTree ex_scenario_prices) [])
            = Ok (VTree sum).
Proof.
  intros fuel py h self other. split; [|split].
  - intros H. apply provenance_check_true in H. discriminate.
  - destruct fuel as [|n]; [discriminate|].
    cbn [tree_add]. unfold bindS at 1. unfold reading at 1.
    destruct (provenance_check n h self) as [b|e] eqn:E; [|discriminate].
    apply provenance_check_true in E. subst b. cbn [negb].
    unfold bindS, reading, retS, raiseS.
    repeat match goal with
           | |- context [match ?x with _ => _ end] =>
               destruct x; cbn [fst]; try discriminate
           end.
  - eexists. eexists. eexists.
    split; [reflexivity|]. split; [reflexivity|]. split; reflexivity.
Qed.

(** ** Results of several measures without a value *)

(** X2.  [_risk_keys_compatible] takes the first value of a result of
    several measures with [next(iter(...))]: the sum of two such results
    raises [StopIteration] when the left one is empty, and when the right
    one is empty and the left one starts with a value that is no result of
    several measures. *)
Theorem add_empty_result_raises :
  forall (fuel : nat) (py : Interp) (h : store) (self other : multi)
         (inst : Priceable) (items : list (RiskMeasure * value)),
    (contents h self = Ok (inst, []) ->
     is_ok (contents h other) = true ->
     multi_add (S fuel) py h self (VMulti other) = Raise StopIteration)
    /\ (contents h self = Ok (inst, items) ->
        (exists v, hd_error (values items) = Some v
                   /\ match v with VMulti _ => False | _ => True end) ->
        (exists inst', contents h other = Ok (inst', [])) ->
        multi_add (S fuel) py h self (VMulti other) = Raise StopIteration).
Proof.
  intros fuel py h self other inst items. split.
  - intros Hs Ho. unfold multi_add, multi_add_multi.
    rewrite Hs. cbn [bind].
    destruct (contents h other) as [co|]; [|discriminate]. cbn [bind].
    unfold _risk_keys_compatible. cbn [first_leaf].
    rewrite Hs. reflexivity.
  - intros Hs (v & Hv & Hnm) (inst' & Ho).
    unfold multi_add, multi_add_multi.
    rewrite Hs, Ho. cbn [bind].
    unfold _risk_keys_compatible. cbn [first_leaf].
    rewrite Hs, Ho. cbn [bind snd].
    destruct (values items) as [|v0 rest]; [discriminate|].
    injection Hv as ->. cbn [values map].
    destruct v; try contradiction; destruct fuel; reflexivity.
Qed.

Lemma add_empty_result_raises_witness :
  multi_add 1 (python true) [] (Own swap1 []) (VMulti ex_multi)
  = Raise StopIteration
  /\ multi_add 1 (python true) [] ex_multi (VMulti (Own swap1 []))
     = Raise StopIteration.
Proof.
  split.
  - apply (proj1 (add_empty_result_raises 0 (python true) [] (Own swap1 [])
                    ex_multi swap1 [])); reflexivity.
  - apply (proj2 (add_empty_result_raises 0 (python true) [] ex_multi
                    (Own swap1 []) swap1
                    [(DollarPrice, VFloat (ex_float 1 DollarPrice 10));
                     (IRDelta, VSeries ex_s1)])).
    + reflexivity.
    + eexists. split; [reflexivity | exact I].
    + exists swap1. reflexivity.
Defined.

(** ** [_value_for_risk_measure] *)

Lemma dict_get_filter_keys (V : Type) (g : RiskMeasure -> bool)
      (d : list (RiskMeasure * V)) (k : RiskMeasure) :
  dict_get (filter (fun kv => g (fst kv)) d) k
  = if g k then dict_get d k else None.
Proof.
  induction d as [|[k' v] t IH]; simpl.
  - now destruct (g k).
  - destruct (g k') eqn:G; simpl.
    + destruct (Nat.eqb_spec k' k) as [->|Hne].
      * now rewrite G.
      * exact IH.
    + destruct (Nat.eqb_spec k' k) as [->|Hne].
      * rewrite G in *. exact IH.
      * exact IH.
Qed.

(** X3.  [_value_for_risk_measure] keeps of a dictionary the entries of
    the measures asked for, with their values and in their order, and
    drops the others; a measure asked for that the dictionary does not
    have is passed over without an error. *)
Theorem value_for_risk_measure_lookup :
  forall (res : list (RiskMeasure * value)) (ms : list RiskMeasure)
         (m k : RiskMeasure),
    dict_get (_value_for_risk_measure res (KMeasures ms)) k
    = (if mem k ms then dict_get res k else None)
    /\ dict_get (_value_for_risk_measure res (KMeasure m)) k
       = (if Nat.eqb k m then dict_get res k else None)
    /\ keys (_value_for_risk_measure res (KMeasures ms))
       = filter (fun k' => mem k' ms) (keys res)
    /\ keys (_value_for_risk_measure res (KMeasure m))
       = filter (fun k' => Nat.eqb k' m) (keys res).
Proof.
  intros res ms m k. unfold _value_for_risk_measure.
  split; [|split; [|split]].
  - apply (dict_get_filter_keys value (fun k' => mem k' ms)).
  - apply (dict_get_filter_keys value (fun k' => Nat.eqb k' m)).
  - unfold keys. induction res as [|[k' v] t IH]; simpl; [reflexivity|].
    destruct (mem k' ms); simpl; now rewrite IH.
  - unfold keys. induction res as [|[k' v] t IH]; simpl; [reflexivity|].
    destruct (Nat.eqb k' m); simpl; now rewrite IH.
Qed.

(** ** Adding a number *)

Lemma tree_leaves_futures (p : list Priceable) (rms : list RiskMeasure)
      (fs : list future) :
  tree_leaves (PortfolioRiskResult p rms fs) = leaves_of fs.
Proof.
  reflexivity.
Qed.

Lemma tree_height_futures (p : list Priceable) (rms : list RiskMeasure)
      (fs : list future) :
  tree_height (PortfolioRiskResult p rms fs) = S (highest fs).
Proof.
  reflexivity.
Qed.

Lemma compose_with_number (fuel : nat) (py : Interp) (h : store) (lhs : value)
      (x : num) :
  _compose fuel py h lhs (VNum x) = Raise (RuntimeError msg_cannot_compose).
Proof. destruct fuel; destruct lhs; reflexivity. Qed.

(** The exceptions that the addition of a number to a leaf raises. *)
Lemma leaf_add_number (rec : tree -> value -> M value) (n : nat) (py : Interp)
      (f : future) (x : num) (h : store) :
  match f with Nested _ => False | _ => True end ->
  future_add_num rec n py f x h = (Raise (RuntimeError msg_cannot_compose), h)
  \/ future_add_num rec n py f x h = (Raise AttributeError, h).
Proof.
  destruct f; intros H; try contradiction; unfold future_add_num, reading, raiseS;
    rewrite ?compose_with_number; auto.
Qed.

Lemma add_number_rec (py : Interp) (x : num) (n : nat) :
  forall (t : tree) (h : store),
    tree_height t <= n ->
    (tree_leaves t = 0 ->
     exists t', tree_add n py t (VNum x) h = (Ok (VTree t'), h)
                /\ tree_leaves t' = 0)
    /\ (0 < tree_leaves t ->
        tree_add n py t (VNum x) h = (Raise (RuntimeError msg_cannot_compose), h)
        \/ tree_add n py t (VNum x) h = (Raise AttributeError, h)).
Proof.
  induction n as [|n IH]; intros [p rms fs] h Hh.
  - rewrite tree_height_futures in Hh. lia.
  - rewrite tree_height_futures in Hh. rewrite tree_leaves_futures.
    cbn [tree_add futures_of portfolio_of risk_measures_of].
    assert (Hfs : (leaves_of fs = 0 ->
                   exists fs',
                     mapS (fun f => future_add_num (tree_add n py) n py f x) fs h
                     = (Ok fs', h) /\ leaves_of fs' = 0)
                  /\ (0 < leaves_of fs ->
                      mapS (fun f => future_add_num (tree_add n py) n py f x) fs h
                      = (Raise (RuntimeError msg_cannot_compose), h)
                      \/ mapS (fun f => future_add_num (tree_add n py) n py f x) fs h
                         = (Raise AttributeError, h))).
    { assert (Hh' : highest fs <= n) by lia. clear Hh.
      induction fs as [|f r IHr].
      - split; [|cbn [leaves_of]; lia].
        intros _. exists []. split; reflexivity.
      - assert (Hleaf : match f with Nested _ => False | _ => True end ->
                        (leaves_of (f :: r) = 0 -> False)
                        /\ (mapS (fun f => future_add_num (tree_add n py) n py f x)
                                 (f :: r) h
                            = (Raise (RuntimeError msg_cannot_compose), h)
                            \/ mapS (fun f => future_add_num (tree_add n py) n py f x)
                                    (f :: r) h
                               = (Raise AttributeError, h))).
        { intros Hf. split; [destruct f; try contradiction; discriminate|].
          cbn [mapS]. unfold bindS.
          destruct (leaf_add_number (tree_add n py) n py f x h Hf) as [E|E];
            rewrite E; auto. }
        destruct f as [v|inst m2f v|gs v|t'].
        1-3: destruct (Hleaf I) as [H0 H1]; split;
          [intros Hz; destruct (H0 Hz) | intros _; exact H1].
        clear Hleaf.
        cbn [highest] in Hh'. cbn [leaves_of].
        destruct (IH t' h ltac:(lia)) as [IH0 IH1].
        destruct (IHr ltac:(lia)) as [IHr0 IHr1].
        cbn [mapS]. unfold bindS. cbn [future_add_num]. unfold bindS.
        destruct (tree_leaves t') as [|k] eqn:Ek.
        + destruct (IH0 eq_refl) as (t'' & E & Hl). rewrite E.
          unfold reading. cbn [as_nested]. split.
          * intros H0. destruct (IHr0 H0) as (fs' & E' & Hl').
            rewrite E'. unfold retS.
            eexists. split; [reflexivity|]. cbn [leaves_of]. lia.
          * intros H1. destruct (IHr1 ltac:(lia)) as [E'|E'];
              rewrite E'; auto.
        + split; [discriminate|]. intros _.
          destruct (IH1 ltac:(lia)) as [E|E]; rewrite E; auto. }
    destruct Hfs as [H0 H1]. unfold bindS. split.
    + intros Hz. destruct (H0 Hz) as (fs' & E & Hl).
      rewrite E. unfold retS. eexists. split; [reflexivity|].
      now rewrite tree_leaves_futures.
    + intros Hp. destruct (H1 Hp) as [E|E]; rewrite E; auto.
Qed.

(** X4.  [_compose] takes no bare number: with one as right operand it
    raises the [RuntimeError] "cannot be composed" whatever the left
    operand.  So the sum of a tree and a number returns for a tree without
    leaves only, with a tree without leaves; for a tree that has a leaf, at
    any depth, it raises that [RuntimeError], or the [AttributeError] of a
    [MultipleRiskMeasureFuture] that reads [items] of the number. *)
Theorem adding_a_number_fails :
  forall (fuel : nat) (py : Interp) (h : store) (x : num),
    (forall lhs : value,
        _compose fuel py h lhs (VNum x) = Raise (RuntimeError msg_cannot_compose))
    /\ (forall t : tree,
          tree_height t <= fuel -> 0 < tree_leaves t ->
          fst (tree_add fuel py t (VNum x) h)
          = Raise (RuntimeError msg_cannot_compose)
          \/ fst (tree_add fuel py t (VNum x) h) = Raise AttributeError)
    /\ (forall t : tree,
          tree_height t <= fuel -> tree_leaves t = 0 ->
          exists t', fst (tree_add fuel py t (VNum x) h) = Ok (VTree t')
                     /\ tree_leaves t' = 0).
Proof.
  intros fuel py h x. split; [|split].
  - intros lhs. apply compose_with_number.
  - intros t Hh Hl.
    destruct (proj2 (add_number_rec py x fuel t h Hh) Hl) as [E|E];
      rewrite E; auto.
  - intros t Hh Hl.
    destruct (proj1 (add_number_rec py x fuel t h Hh) Hl) as (t' & E & Hl').
    exists t'. rewrite E. auto.
Qed.

Lemma adding_a_number_fails_witness :
  fst (tree_add 1 (python true) ex_prices (VNum (Num (inject_Z 1))) [])
  = Raise (RuntimeError msg_cannot_compose)
  /\ fst (tree_add 1 (python true) ex_calc (VNum (Num (inject_Z 1))) [])
     = Raise AttributeError
  /\ exists t', fst (tree_add 2 (python true)
                       (PortfolioRiskResult [Portfolio []] [Price]
                          [Nested (PortfolioRiskResult [] [Price] [])])
                       (VNum (Num (inject_Z 1))) [])
                = Ok (VTree t').
Proof.
  pose proof (adding_a_number_fails 1 (python true) [] (Num (inject_Z 1)))
    as (_ & H1 & _).
  pose proof (adding_a_number_fails 2 (python true) [] (Num (inject_Z 1)))
    as (_ & _ & H2).
  split; [|split].
  - destruct (H1 ex_prices) as [E|E]; [vm_compute; lia | vm_compute; lia | exact E |].
    vm_compute in E. discriminate.
  - destruct (H1 ex_calc) as [E|E]; [vm_compute; lia | vm_compute; lia | | exact E].
    vm_compute in E. discriminate.
  - destruct (H2 (PortfolioRiskResult [Portfolio []] [Price]
                    [Nested (PortfolioRiskResult [] [Price] [])]))
      as (t' & E & _); [vm_compute; lia | reflexivity |].
    exists t'. exact E.
Defined.

(** ** Multiplying a tree whose futures are composite *)

Lemma construct_composite (h : store) (f : future) (v : value) :
  is_composite f = true -> is_ok (construct h f v) = false.
Proof.
  destruct f; try discriminate; intros _; [reflexivity|].
  cbn [construct]. unfold historical_of_value.
  destruct v as [x|s|tb|e|x|s|e|o|t]; try reflexivity.
  - destruct (s_data s); reflexivity.
  - destruct (contents h o) as [c|]; [|reflexivity].
    cbn [bind]. destruct (snd c); reflexivity.
Qed.

(** X5.  [PricingFuture.__mul__] builds its answer with
    [self.__class__(value)].  A [MultipleRiskMeasureFuture] and a
    [HistoricalPricingFuture] inherit it, and their constructors do not
    take a value: the product of a tree and a number is no tree when one
    of the futures of the tree is of these classes; a tree whose first
    future is a [MultipleRiskMeasureFuture] with a result of payloads, as
    a calculation of several measures gives it, raises [TypeError]. *)
Theorem multiplying_composite_futures_fails :
  forall (fuel : nat) (h : store) (x : num) (p : list Priceable)
         (rms : list RiskMeasure) (fs : list future),
    (forall f : future,
        In f fs -> is_composite f = true ->
        is_ok (tree_mul fuel h (PortfolioRiskResult p rms fs) (VNum x)) = false)
    /\ (forall (inst i : Priceable) (m2f : list (RiskMeasure * future))
               (o : multi) (items : list (RiskMeasure * value)),
          contents h o = Ok (i, items) ->
          forallb (fun kv => is_payload (snd kv)) items = true ->
          tree_mul (S fuel) h
            (PortfolioRiskResult p rms
               (MultipleRiskMeasureFuture inst m2f (VMulti o) :: fs)) (VNum x)
          = Raise TypeError).
Proof.
  intros fuel h x p rms fs. split.
  - intros f Hin Hc. destruct fuel as [|n]; [reflexivity|].
    cbn [tree_mul futures_of].
    match goal with
    | |- is_ok (bind (mapM ?F fs) _) = false =>
        pose proof (mapM_not_ok _ _ F fs f Hin) as Hm;
        destruct (mapM F fs); [|reflexivity]
    end.
    assert (false = true -> False) by discriminate.
    exfalso. apply H. symmetry. apply Hm.
    destruct f; try discriminate; unfold PricingFuture_mul;
      match goal with
      | |- is_ok (bind ?c _) = false => destruct c; [|reflexivity]
      end; cbn [bind]; now apply construct_composite.
  - intros inst i m2f o items Hc Hall.
    cbn [tree_mul futures_of mapM]. unfold PricingFuture_mul at 1.
    cbn [result_of value_mul]. unfold multi_mul. cbn [value_op].
    rewrite Hc. cbn [bind snd fst].
    rewrite (mapM_ok_map _ _ _ (fun kv => (fst kv, scaled x (snd kv)))).
    + reflexivity.
    + intros kv Hin. rewrite forallb_forall in Hall.
      rewrite value_op_payload by (apply Hall, Hin). reflexivity.
Qed.

Lemma multiplying_composite_futures_fails_witness :
  is_ok (tree_mul 2 [] ex_calc (VNum (Num (inject_Z 2)))) = false
  /\ tree_mul 1 ex_store ex_two_measures (VNum (Num (inject_Z 2)))
     = Raise TypeError.
Proof.
  split.
  - apply (proj1 (multiplying_composite_futures_fails 2 [] (Num (inject_Z 2))
                    [swap1; swap2] [DollarPrice; IRDelta] (futures_of ex_calc))
             (new_MultipleRiskMeasureFuture swap1
                [(DollarPrice, PricingFuture (VFloat (ex_float 1 DollarPrice 10)));
                 (IRDelta, PricingFuture (VFloat (ex_float 1 IRDelta 20)))])).
    + left. reflexivity.
    + reflexivity.
  - apply (proj2 (multiplying_composite_futures_fails 0 ex_store (Num (inject_Z 2))
                    [swap1] [DollarPrice; IRDelta] [])
             swap1 swap1 _ (Shared 0)
             [(DollarPrice, VFloat (ex_float 1 DollarPrice 10));
              (IRDelta, VFloat (ex_float 1 IRDelta 20))]);
      reflexivity.
Defined.

(** ** The completion of a composite *)

Lemma finished_with_functional (w : world) (fs : list nat) (rs rs' : list value) :
  Forall2 (finished_with w) fs rs -> Forall2 (finished_with w) fs rs' -> rs = rs'.
Proof.
  intros H. revert rs'. induction H as [|a v fs rs Hv _ IH]; intros rs' H'.
  - now inversion H'.
  - inversion H' as [|a' v' fs' rs'' Hv' Hr]; subst.
    unfold finished_with in *. rewrite Hv in Hv'. injection Hv' as <-.
    f_equal. now apply IH.
Qed.

Lemma finished_with_settled (w w' : world) (fs : list nat) (rs : list value) :
  settled w w' ->
  Forall2 (finished_with w) fs rs -> Forall2 (finished_with w') fs rs.
Proof.
  intros Hs H. induction H as [|a v fs rs Hv _ IH]; constructor; [|exact IH].
  unfold finished_with in *. rewrite Hs; [exact Hv|]. now rewrite Hv.
Qed.

(** The results of futures that are all done: the list of their values,
    or the exception of the first that has none; the call does not wait. *)
Lemma results_of_done (is_entered : bool) (w : world) (fs : list nat) :
  (forall a, In a fs -> done (w a) = true) ->
  (exists rs, results is_entered w fs = Returns rs
              /\ Forall2 (finished_with w) fs rs)
  \/ (exists e, results is_entered w fs = Raises e
                /\ forall rs, ~ Forall2 (finished_with w) fs rs).
Proof.
  induction fs as [|a t IH]; intros Hd.
  - left. exists []. split; [reflexivity | constructor].
  - pose proof (Hd a (or_introl eq_refl)) as Ha.
    cbn [results]. unfold future_result, PricingFuture_result.
    rewrite Ha. cbn [negb andb].
    destruct (w a) as [| |[v|e]] eqn:Ew; [discriminate| | |].
    + right. exists CancelledError. split; [reflexivity|].
      intros rs H. inversion H as [|? v ? ? Hv]; subst.
      unfold finished_with in Hv. congruence.
    + cbn [Future_result].
      destruct IH as [(rs & E & H)|(e & E & H)].
      * intros b Hb. apply Hd. now right.
      * left. exists (v :: rs). rewrite E. split; [reflexivity|].
        constructor; [exact Ew | exact H].
      * right. exists e. rewrite E. split; [reflexivity|].
        intros rs H'. inversion H'; subst. eapply H; eauto.
    + right. exists e. split; [reflexivity|].
      intros rs H. inversion H as [|? v ? ? Hv]; subst.
      unfold finished_with in Hv. congruence.
Qed.

Section CompositeInvariant.
Variable A : Type.
Variable py : Interp.
Variable make : list value -> res A.

(** A callback leaves the composite in order, in a world where the
    futures that are still pending after the [discard] are those that are
    not done. *)
Lemma cb_inv (is_entered : bool) (w : world) (c : Composite A) (a : nat) :
  (forall b, In b (remove Nat.eq_dec a (c_pending c))
             <-> In b (c_futures c) /\ done (w b) = false) ->
  (forall b, In b (c_pending c) -> In b (c_callbacks c)) ->
  (c_pending c <> [] -> c_state c = PENDING) ->
  (c_state c = PENDING
   \/ exists rs r, c_state c = FINISHED r /\ make rs = Ok r
                   /\ Forall2 (finished_with w) (c_futures c) rs) ->
  (c_pending c = [] -> c_state c = PENDING ->
   forall rs r, Forall2 (finished_with w) (c_futures c) rs ->
                make rs = Ok r -> False) ->
  exists c', Composite_cb py make is_entered w c a = Returns c'
             /\ composite_inv make w c'
             /\ c_futures c' = c_futures c.
Proof.
  intros P1 I2 I3 I4 I5.
  assert (I2' : forall b, In b (remove Nat.eq_dec a (c_pending c)) ->
                          In b (c_callbacks c)).
  { intros b Hb. apply in_remove in Hb. apply I2. tauto. }
  assert (Hsame : c_pending c = [] \/ c_state c = PENDING).
  { destruct (c_pending c); [now left | right; apply I3; discriminate]. }
  unfold Composite_cb.
  destruct (c_pending (discard c a)) as [|b0 rest] eqn:Ep.
  2:{ eexists. split; [reflexivity|]. split; [|reflexivity].
      unfold composite_inv. cbn [discard c_pending c_futures c_state c_callbacks].
      split; [exact P1|]. split; [exact I2'|].
      split; [intros _; destruct Hsame as [E|E]; [|exact E];
              cbn [discard c_pending] in Ep; rewrite E in Ep; discriminate|].
      split; [exact I4|].
      intros E. cbn [discard c_pending] in Ep. rewrite Ep in E. discriminate. }
  cbn [discard c_pending] in Ep.
  assert (Hdone : forall b, In b (c_futures c) -> done (w b) = true).
  { intros b Hb. destruct (done (w b)) eqn:Ed; [reflexivity|].
    assert (In b (remove Nat.eq_dec a (c_pending c))) by (apply P1; auto).
    rewrite Ep in H. destruct H. }
  assert (Hinv : forall c1 : Composite A,
             c_futures c1 = c_futures c ->
             c_pending c1 = remove Nat.eq_dec a (c_pending c) ->
             c_callbacks c1 = c_callbacks c ->
             (c_state c1 = PENDING
              \/ exists rs r, c_state c1 = FINISHED r /\ make rs = Ok r
                              /\ Forall2 (finished_with w) (c_futures c) rs) ->
             (c_state c1 = PENDING ->
              forall rs r, Forall2 (finished_with w) (c_futures c) rs ->
                           make rs = Ok r -> False) ->
             composite_inv make w c1).
  { intros c1 Ef Epd Ecb H4 H5. unfold composite_inv.
    rewrite Ef, Epd, Ecb. rewrite Ep in *.
    split; [exact P1|]. split; [intros b []|].
    split; [intros H; now destruct H|].
    split; [exact H4|]. intros _. exact H5. }
  unfold Composite_set_result. cbn [discard c_futures c_state].
  destruct (results_of_done is_entered w (c_futures c) Hdone)
    as [(rs & E & Hrs)|(e & E & Hno)]; rewrite E.
  - destruct (make rs) as [r|e] eqn:Em.
    + unfold Future_set_result.
      destruct (done (c_state c) && single_shot py) eqn:Eb.
      * eexists. split; [reflexivity|]. split; [|reflexivity].
        apply Hinv; try reflexivity; cbn [logging discard c_state].
        -- exact I4.
        -- intros Epend. rewrite Epend in Eb. discriminate.
      * eexists. split; [reflexivity|]. split; [|reflexivity].
        apply Hinv; try reflexivity; cbn [with_state discard c_state].
        -- right. exists rs, r. auto.
        -- discriminate.
    + eexists. split; [reflexivity|]. split; [|reflexivity].
      apply Hinv; try reflexivity; cbn [logging discard c_state].
      * exact I4.
      * intros _ rs' r' H' Em'.
        rewrite (finished_with_functional w _ _ _ H' Hrs) in Em'. congruence.
  - eexists. split; [reflexivity|]. split; [|reflexivity].
    apply Hinv; try reflexivity; cbn [logging discard c_state].
    + exact I4.
    + intros _ rs' r' H' _. exact (Hno rs' H').
Qed.

Lemma remove_absent (a : nat) (l : list nat) :
  ~ In a l -> remove Nat.eq_dec a l = l.
Proof. intros H. now apply notin_remove. Qed.

(** The callbacks of a future that is done already. *)
Lemma invoke_inv (is_entered : bool) (w : world) (a : nat) (n : nat) :
  done (w a) = true ->
  forall c : Composite A,
    composite_inv make w c ->
    exists c', invoke_callbacks py make is_entered w a n c = Returns c'
               /\ composite_inv make w c'
               /\ c_futures c' = c_futures c.
Proof.
  intros Ha. induction n as [|n IH]; intros c Hc.
  - exists c. split; [reflexivity|]. split; [exact Hc | reflexivity].
  - destruct Hc as (I1 & I2 & I3 & I4 & I5).
    assert (Hna : ~ In a (c_pending c)).
    { intros H. apply I1 in H. destruct H as [_ H]. congruence. }
    destruct (cb_inv is_entered w c a) as (c1 & E & Hc1 & Ef); auto.
    { rewrite remove_absent by exact Hna. exact I1. }
    cbn [invoke_callbacks]. rewrite E.
    destruct (IH c1 Hc1) as (c' & E' & Hc' & Ef').
    exists c'. split; [exact E'|]. split; [exact Hc'|]. congruence.
Qed.

Lemma set_state_same (w : world) (a : nat) (st : state (res value)) :
  set_state w a st a = st.
Proof. unfold set_state. now rewrite Nat.eqb_refl. Qed.

Lemma set_state_other (w : world) (a b : nat) (st : state (res value)) :
  b <> a -> set_state w a st b = w b.
Proof. intros H. unfold set_state. apply Nat.eqb_neq in H. now rewrite H. Qed.

Lemma settled_set_state (w : world) (a : nat) (st : state (res value)) :
  done (w a) = false -> settled w (set_state w a st).
Proof.
  intros Ha b Hb. apply set_state_other. intros ->. congruence.
Qed.

(** A future that is not done completes. *)
Lemma completed_inv (is_entered : bool) (w : world) (c : Composite A) (a : nat)
      (st : state (res value)) :
  composite_inv make w c ->
  done (w a) = false -> done st = true ->
  exists c', completed py make is_entered w c a st
             = Returns (set_state w a st, c')
             /\ composite_inv make (set_state w a st) c'
             /\ c_futures c' = c_futures c.
Proof.
  intros (I1 & I2 & I3 & I4 & I5) Ha Hst.
  set (w' := set_state w a st).
  assert (Hs : settled w w') by now apply settled_set_state.
  assert (Ha' : done (w' a) = true) by (unfold w'; now rewrite set_state_same).
  assert (I4' : c_state c = PENDING
                \/ exists rs r, c_state c = FINISHED r /\ make rs = Ok r
                                /\ Forall2 (finished_with w') (c_futures c) rs).
  { destruct I4 as [E|(rs & r & E & Em & H)]; [now left | right].
    exists rs, r. split; [exact E|]. split; [exact Em|].
    now apply (finished_with_settled w). }
  assert (Hgo : forall n c1,
             composite_inv make w' c1 -> c_futures c1 = c_futures c ->
             exists c', match invoke_callbacks py make is_entered w' a n c1 with
                        | Returns c' => Returns (w', c')
                        | Raises e => Raises e
                        | Blocks => Blocks
                        end = Returns (w', c')
                        /\ composite_inv make w' c'
                        /\ c_futures c' = c_futures c).
  { intros n c1 Hc1 Ef.
    destruct (invoke_inv is_entered w' a n Ha' c1 Hc1) as (c' & E & Hc' & Ef').
    exists c'. rewrite E. split; [reflexivity|]. split; [exact Hc'|]. congruence. }
  unfold completed. fold w'.
  destruct (in_dec Nat.eq_dec a (c_futures c)) as [Hin|Hout].
  - assert (Hp : In a (c_pending c)) by (apply I1; auto).
    assert (Hcb : In a (c_callbacks c)) by auto.
    apply (count_occ_In Nat.eq_dec) in Hcb.
    destruct (count_occ Nat.eq_dec (c_callbacks c) a) as [|n]; [lia|].
    cbn [invoke_callbacks].
    destruct (cb_inv is_entered w' c a) as (c1 & E & Hc1 & Ef); auto.
    + intros b. split.
      * intros Hb. apply in_remove in Hb. destruct Hb as [Hb Hne].
        apply I1 in Hb. destruct Hb as [Hb Hd]. split; [exact Hb|].
        unfold w'. now rewrite set_state_other.
      * intros [Hb Hd]. apply in_in_remove.
        -- intros ->. congruence.
        -- apply I1. split; [exact Hb|].
           unfold w' in Hd. rewrite set_state_other in Hd; [exact Hd|].
           intros ->. rewrite set_state_same in Hd. congruence.
    + intros E. rewrite E in Hp. destruct Hp.
    + rewrite E. apply Hgo; assumption.
  - apply Hgo; [|reflexivity].
    assert (Hsame : forall rs, Forall2 (finished_with w') (c_futures c) rs
                               -> Forall2 (finished_with w) (c_futures c) rs).
    { intros rs H. clear - H Hout. induction H as [|b v fs rs Hv _ IH];
        constructor.
      - unfold finished_with, w' in *. rewrite set_state_other in Hv; [exact Hv|].
        intros ->. apply Hout. now left.
      - apply IH. intros Hin. apply Hout. now right. }
    unfold composite_inv. split; [|split; [exact I2|split; [exact I3|split]]].
    + intros b. rewrite I1. split; intros [Hb Hd]; (split; [exact Hb|]).
      * unfold w'. rewrite set_state_other; [exact Hd|]. now intros ->.
      * unfold w' in Hd. rewrite set_state_other in Hd; [exact Hd|]. now intros ->.
    + exact I4'.
    + intros Ep Es rs r H. apply (I5 Ep Es rs r). now apply Hsame.
Qed.

Hypothesis single_shot_py : single_shot py = true.

Lemma step_inv (is_entered : bool) (ev : event) (w : world) (c : Composite A) :
  composite_inv make w c ->
  (exists w' c', step py make is_entered ev w c = Returns (w', c')
                 /\ composite_inv make w' c' /\ settled w w'
                 /\ c_futures c' = c_futures c)
  \/ (exists e, step py make is_entered ev w c = Raises e).
Proof.
  intros Hc.
  assert (Hgo : forall a st, done (w a) = false -> done st = true ->
            exists w' c', completed py make is_entered w c a st = Returns (w', c')
                          /\ composite_inv make w' c' /\ settled w w'
                          /\ c_futures c' = c_futures c).
  { intros a st Ha Hst.
    destruct (completed_inv is_entered w c a st Hc Ha Hst) as (c' & E & Hc' & Ef).
    exists (set_state w a st), c'. split; [exact E|]. split; [exact Hc'|].
    split; [now apply settled_set_state | exact Ef]. }
  destruct ev as [a v|a e|a]; cbn [step]; rewrite ?single_shot_py, ?andb_true_r;
    destruct (done (w a)) eqn:Ha.
  - right. eexists. reflexivity.
  - left. now apply Hgo.
  - right. eexists. reflexivity.
  - left. now apply Hgo.
  - left. exists w, c. split; [reflexivity|]. split; [exact Hc|].
    split; [intros b _; reflexivity | reflexivity].
  - left. now apply Hgo.
Qed.

Lemma run_inv (evs : list (bool * event)) :
  forall (w : world) (c : Composite A),
    composite_inv make w c ->
    exists w' c', run py make evs w c = Returns (w', c')
                  /\ composite_inv make w' c' /\ settled w w'
                  /\ c_futures c' = c_futures c.
Proof.
  induction evs as [|[ie ev] rest IH]; intros w c Hc.
  - exists w, c. split; [reflexivity|]. split; [exact Hc|].
    split; [intros b _; reflexivity | reflexivity].
  - cbn [run].
    destruct (step_inv ie ev w c Hc) as [(w1 & c1 & E & Hc1 & Hs & Ef)|(e & E)];
      rewrite E.
    + destruct (IH w1 c1 Hc1) as (w' & c' & E' & Hc' & Hs' & Ef').
      exists w', c'. split; [exact E'|]. split; [exact Hc'|].
      split; [|congruence].
      intros b Hb. rewrite Hs'; [now apply Hs|]. rewrite Hs; assumption.
    + now apply IH.
Qed.

End CompositeInvariant.

Lemma nodup_nil (l : list nat) : nodup Nat.eq_dec l = [] -> l = [].
Proof.
  destruct l as [|x t]; [reflexivity|]. intros H.
  assert (Hin : In x (nodup Nat.eq_dec (x :: t))) by (apply nodup_In; now left).
  rewrite H in Hin. destruct Hin.
Qed.

Lemma init_inv (A : Type) (py : Interp) (make : list value -> res A)
      (is_entered : bool) (w : world) (fs : list nat) (c : Composite A) :
  Composite_init py make is_entered w fs = Returns c ->
  composite_inv make w c /\ c_futures c = fs.
Proof.
  unfold Composite_init. cbn [c_pending].
  set (waiting := filter (fun a => negb (done (w a))) fs).
  assert (Hw : forall a, In a waiting <-> In a fs /\ done (w a) = false).
  { intros a. unfold waiting. rewrite filter_In.
    destruct (done (w a)); cbn [negb]; intuition discriminate. }
  destruct (nodup Nat.eq_dec waiting) as [|b0 rest] eqn:Ep.
  - apply nodup_nil in Ep.
    assert (Hdone : forall a, In a fs -> done (w a) = true).
    { intros a Ha. destruct (done (w a)) eqn:Ed; [reflexivity|].
      assert (In a waiting) by (apply Hw; auto). rewrite Ep in H. destruct H. }
    unfold Composite_set_result. cbn [c_futures c_state].
    destruct (results_of_done is_entered w fs Hdone)
      as [(rs & E & Hrs)|(e & E & Hno)]; rewrite E; [|discriminate].
    destruct (make rs) as [r|e] eqn:Em; [|discriminate].
    unfold Future_set_result. cbn [done andb].
    intros H. injection H as <-. split; [|reflexivity].
    unfold composite_inv. cbn [with_state c_pending c_futures c_state c_callbacks].
    rewrite Ep.
    split; [intros a; rewrite <- Hw, Ep; reflexivity|].
    split; [intros a []|]. split; [intros H; now destruct H|].
    split; [right; exists rs, r; auto|]. discriminate.
  - intros H. injection H as <-. split; [|reflexivity].
    unfold composite_inv. cbn [c_pending c_futures c_state c_callbacks].
    split; [intros a; rewrite <- Hw, <- Ep; apply nodup_In|].
    split; [intros a Ha; rewrite <- Ep in Ha; now apply nodup_In in Ha|].
    split; [reflexivity|]. split; [now left|]. discriminate.
Qed.

(** X6.  Where [set_result] is single-shot, whatever calls complete,
    fail or cancel futures after a composite was made, in whatever order:
    the callbacks of the composite never wait, the composite is never
    cancelled by them, and a result that it has was made by
    [_set_result] of the values of its futures, all finished, in the order
    in which the futures were given to it. *)
Theorem composite_result_is_made_of_values :
  forall (A : Type) (py : Interp) (make : list value -> res A)
         (is_entered : bool) (w : world) (fs : list nat) (c0 : Composite A)
         (evs : list (bool * event)),
    single_shot py = true ->
    Composite_init py make is_entered w fs = Returns c0 ->
    exists w' c',
      run py make evs w c0 = Returns (w', c')
      /\ c_state c' <> CANCELLED
      /\ forall r, c_state c' = FINISHED r ->
           exists rs, Forall2 (finished_with w') fs rs /\ make rs = Ok r.
Proof.
  intros A py make is_entered w fs c0 evs Hss Hinit.
  apply init_inv in Hinit. destruct Hinit as [Hc0 Ef0].
  destruct (run_inv A py make Hss evs w c0 Hc0) as (w' & c' & E & Hc' & _ & Ef).
  exists w', c'. split; [exact E|].
  destruct Hc' as (_ & _ & _ & I4 & _). rewrite Ef, Ef0 in I4.
  split.
  - destruct I4 as [E'|(rs & r & E' & _)]; rewrite E'; discriminate.
  - intros r Hr. destruct I4 as [E'|(rs & r' & E' & Em & H)]; [congruence|].
    exists rs. split; [exact H|]. congruence.
Qed.

Lemma composite_result_is_made_of_values_witness :
  exists w' c',
    run (python true) (@Ok (list value)) ex_calls ex_world ex_composite
    = Returns (w', c')
    /\ c_state c' <> CANCELLED
    /\ forall r, c_state c' = FINISHED r ->
         exists rs, Forall2 (finished_with w') [0; 1; 2; 1] rs /\ Ok rs = Ok r.
Proof.
  apply (composite_result_is_made_of_values (list value) (python true)
           (@Ok (list value)) false ex_world [0; 1; 2; 1] ex_composite ex_calls);
    reflexivity.
Defined.

(** X7.  Where [set_result] is single-shot: as soon as every future of a
    composite is finished with a value, at its construction or with the
    call that completes the last of them, the composite has the result
    that [_set_result] makes of these values, in the order of the futures,
    whatever the order in which they were completed. *)
Theorem composite_resolves_with_last_future :
  forall (A : Type) (py : Interp) (make : list value -> res A)
         (is_entered : bool) (w w' : world) (fs : list nat) (c0 c' : Composite A)
         (evs : list (bool * event)) (rs : list value) (r : A),
    single_shot py = true ->
    Composite_init py make is_entered w fs = Returns c0 ->
    run py make evs w c0 = Returns (w', c') ->
    Forall2 (finished_with w') fs rs ->
    make rs = Ok r ->
    c_state c' = FINISHED r.
Proof.
  intros A py make is_entered w w' fs c0 c' evs rs r Hss Hinit Hrun Hrs Hm.
  apply init_inv in Hinit. destruct Hinit as [Hc0 Ef0].
  destruct (run_inv A py make Hss evs w c0 Hc0) as (w1 & c1 & E & Hc1 & _ & Ef).
  rewrite Hrun in E. injection E as <- <-.
  destruct Hc1 as (I1 & _ & _ & I4 & I5). rewrite Ef, Ef0 in *.
  assert (Hp : c_pending c' = []).
  { destruct (c_pending c') as [|b t] eqn:Ep; [reflexivity|].
    assert (Hb : In b (b :: t)) by now left.
    apply I1 in Hb. destruct Hb as [Hb Hd].
    clear - Hrs Hb Hd. exfalso. induction Hrs as [|a v fs rs Hv _ IH].
    - destruct Hb.
    - destruct Hb as [->|Hb]; [|auto].
      unfold finished_with in Hv. rewrite Hv in Hd. discriminate. }
  destruct I4 as [E'|(rs' & r' & E' & Em & H)].
  - exfalso. exact (I5 Hp E' rs r Hrs Hm).
  - rewrite (finished_with_functional w' _ _ _ H Hrs) in Em. congruence.
Qed.

Lemma composite_resolves_with_last_future_witness :
  Composite_init (python true) (@Ok (list value)) false ex_world [0; 1; 2; 1]
  = Returns ex_composite
  /\ c_state ex_composite = PENDING
  /\ run (python true) (@Ok (list value)) ex_calls ex_world ex_composite
     = Returns (ex_world_done, ex_composite_done)
  /\ c_state ex_composite_done
     = FINISHED [VFloat (ex_float 1 DollarPrice 10);
                 VFloat (ex_float 1 DollarPrice 20);
                 VFloat (ex_float 1 DollarPrice 30);
                 VFloat (ex_float 1 DollarPrice 20)].
Proof.
  split; [reflexivity|]. split; [reflexivity|]. split; [reflexivity|].
  apply (composite_resolves_with_last_future (list value) (python true)
           (@Ok (list value)) false ex_world ex_world_done [0; 1; 2; 1]
           ex_composite ex_composite_done ex_calls
           [VFloat (ex_float 1 DollarPrice 10); VFloat (ex_float 1 DollarPrice 20);
            VFloat (ex_float 1 DollarPrice 30); VFloat (ex_float 1 DollarPrice 20)]).
  - reflexivity.
  - reflexivity.
  - reflexivity.
  - repeat constructor.
  - reflexivity.
Defined.

(** X8.  Where [set_result] is single-shot: a composite one of whose
    futures was cancelled or holds an exception never gets a result, and
    [result()] on it never returns; the exception of the future is logged
    by the callback and is not handed on.  When every future is done at
    the construction and one of them has failed, the constructor raises. *)
Theorem composite_with_failed_future_stays_pending :
  forall (A : Type) (py : Interp) (make : list value -> res A)
         (is_entered : bool) (w : world) (fs : list nat) (a : nat),
    single_shot py = true ->
    In a fs ->
    (forall (c0 c' : Composite A) (w' : world) (evs : list (bool * event)),
        Composite_init py make is_entered w fs = Returns c0 ->
        run py make evs w c0 = Returns (w', c') ->
        failed w' a = true ->
        c_state c' = PENDING
        /\ forall (context_entered : bool) (timeout : option nat) (r : A),
             PricingFuture_result context_entered (c_state c') timeout
             <> Returns r)
    /\ ((forall b, In b fs -> done (w b) = true) ->
        failed w a = true ->
        exists e, Composite_init py make is_entered w fs = Raises e).
Proof.
  intros A py make is_entered w fs a Hss Ha. split.
  - intros c0 c' w' evs Hinit Hrun Hf.
    apply init_inv in Hinit. destruct Hinit as [Hc0 Ef0].
    destruct (run_inv A py make Hss evs w c0 Hc0) as (w1 & c1 & E & Hc1 & _ & Ef).
    rewrite Hrun in E. injection E as <- <-.
    destruct Hc1 as (_ & _ & _ & I4 & _). rewrite Ef, Ef0 in *.
    assert (Hp : c_state c' = PENDING).
    { destruct I4 as [E'|(rs & r & _ & _ & H)]; [exact E'|].
      exfalso. clear - H Ha Hf. induction H as [|b v fs rs Hv _ IH].
      - destruct Ha.
      - destruct Ha as [->|Ha]; [|auto].
        unfold finished_with in Hv. unfold failed in Hf. rewrite Hv in Hf.
        discriminate. }
    split; [exact Hp|]. intros ce timeout r. rewrite Hp.
    unfold PricingFuture_result. cbn [done negb andb].
    destruct ce; cbn [Future_result]; [discriminate|].
    destruct timeout; discriminate.
  - intros Hdone Hf. unfold Composite_init. cbn [c_pending].
    assert (Hw : filter (fun b => negb (done (w b))) fs = []).
    { clear - Hdone. induction fs as [|b t IH]; [reflexivity|].
      cbn [filter]. rewrite (Hdone b (or_introl eq_refl)). cbn [negb].
      apply IH. intros b' Hb'. apply Hdone. now right. }
    rewrite Hw. cbn [nodup]. unfold Composite_set_result. cbn [c_futures].
    destruct (results_of_done is_entered w fs Hdone)
      as [(rs & E & Hrs)|(e & E & Hno)]; rewrite E.
    + exfalso. clear - Hrs Ha Hf. induction Hrs as [|b v fs rs Hv _ IH].
      * destruct Ha.
      * destruct Ha as [->|Ha]; [|auto].
        unfold finished_with in Hv. unfold failed in Hf. rewrite Hv in Hf.
        discriminate.
    + exists e. reflexivity.
Qed.

Lemma composite_with_failed_future_stays_pending_witness :
  run (python true) (@Ok (list value)) ex_calls_cancel ex_world ex_composite
  = Returns (ex_world_cancelled, ex_composite_stuck)
  /\ c_state ex_composite_stuck = PENDING
  /\ exists e,
       Composite_init (python true) (@Ok (list value)) false
         (set_state ex_world 0 CANCELLED) [0; 0]
       = Raises e.
Proof.
  split; [reflexivity|]. split.
  - apply (proj1 (composite_with_failed_future_stays_pending (list value)
                    (python true) (@Ok (list value)) false ex_world [0; 1; 2; 1] 2
                    eq_refl (or_intror (or_intror (or_introl eq_refl))))
             ex_composite ex_composite_stuck ex_world_cancelled ex_calls_cancel
             eq_refl eq_refl eq_refl).
  - apply (proj2 (composite_with_failed_future_stays_pending (list value)
                    (python true) (@Ok (list value)) false
                    (set_state ex_world 0 CANCELLED) [0; 0] 0
                    eq_refl (or_introl eq_refl))).
    + intros b [<-|[<-|[]]]; reflexivity.
    + reflexivity.
Defined.

(** ** The result of a [MultipleRiskMeasureFuture] *)

Lemma dict_get_map_snd (V W : Type) (g : V -> W) (d : list (RiskMeasure * V))
      (m : RiskMeasure) :
  dict_get (map (fun kv => (fst kv, g (snd kv))) d) m = option_map g (dict_get d m).
Proof.
  induction d as [|[k v] t IH]; simpl; [reflexivity|].
  destruct (Nat.eqb k m); [reflexivity | exact IH].
Qed.

Lemma keys_map_snd (V W : Type) (g : V -> W) (d : list (RiskMeasure * V)) :
  keys (map (fun kv => (fst kv, g (snd kv))) d) = keys d.
Proof. unfold keys. rewrite map_map. reflexivity. Qed.

(** X9.  The result that a [MultipleRiskMeasureFuture] sets from futures
    that are done is a [MultipleRiskMeasureResult] of its instrument with
    the measures of [measures_to_futures] in their order; read at a
    measure it gives the result of the future of that measure, and
    [KeyError] at a measure that has no future. *)
Theorem future_of_measures_round_trip :
  forall (h : store) (inst : Priceable) (m2f : list (RiskMeasure * future))
         (m : RiskMeasure),
    NoDup (keys m2f) ->
    exists o items,
      result_of (new_MultipleRiskMeasureFuture inst m2f) = VMulti o
      /\ contents h o = Ok (inst, items)
      /\ keys items = keys m2f
      /\ multi_getitem h o (KMeasure m)
         = match dict_get m2f m with
           | Some f => Ok (result_of f)
           | None => Raise KeyError
           end.
Proof.
  intros h inst m2f m Hnd.
  unfold new_MultipleRiskMeasureFuture. cbn [result_of].
  rewrite dict_of_nodup by (now rewrite keys_map_snd).
  eexists. eexists. split; [reflexivity|]. split; [reflexivity|].
  split; [apply keys_map_snd|].
  unfold multi_getitem. cbn [contents bind snd].
  rewrite dict_get_map_snd. destruct (dict_get m2f m); reflexivity.
Qed.

Lemma future_of_measures_round_trip_witness :
  exists o items,
    result_of (new_MultipleRiskMeasureFuture swap1
                 [(DollarPrice, PricingFuture (VFloat (ex_float 1 DollarPrice 10)));
                  (IRDelta, PricingFuture (VSeries ex_s1))]) = VMulti o
    /\ contents [] o = Ok (swap1, items)
    /\ keys items = [DollarPrice; IRDelta]
    /\ multi_getitem [] o (KMeasure IRDelta) = Ok (VSeries ex_s1).
Proof.
  apply (future_of_measures_round_trip [] swap1
           [(DollarPrice, PricingFuture (VFloat (ex_float 1 DollarPrice 10)));
            (IRDelta, PricingFuture (VSeries ex_s1))] IRDelta).
  repeat constructor; simpl; intuition discriminate.
Defined.

(** ** A result of several measures read at a date *)

Lemma mapM_first_raise (A B : Type) (f : A -> res B) (l : list A) (e : exn) :
  (forall x, In x l -> is_ok (f x) = true \/ f x = Raise e) ->
  (exists x, In x l /\ f x = Raise e) ->
  mapM f l = Raise e.
Proof.
  induction l as [|y t IH]; intros Hall (x & Hin & Hx); [destruct Hin|].
  cbn [mapM].
  destruct (Hall y (or_introl eq_refl)) as [Hy|Hy]; [|now rewrite Hy].
  destruct (f y) as [b|] eqn:Ey; [|discriminate]. cbn [bind].
  destruct Hin as [->|Hin]; [congruence|].
  rewrite IH; [reflexivity | | eauto].
  intros z Hz. apply Hall. now right.
Qed.

Lemma forallb_false_exists (A : Type) (g : A -> bool) (l : list A) :
  forallb g l = false -> exists x, In x l /\ g x = false.
Proof.
  induction l as [|y t IH]; simpl; [discriminate|].
  destruct (g y) eqn:E; simpl.
  - intros H. destruct (IH H) as (x & Hin & Hx). eauto.
  - intros _. eauto.
Qed.

Lemma value_for_date_historical (d : date) (v : value) :
  is_historical v = true ->
  (has_date d v = true /\ _value_for_date v d = Ok (on_date d v))
  \/ (has_date d v = false /\ _value_for_date v d = Raise KeyError).
Proof.
  intros Hv. destruct (has_date d v) eqn:Hd.
  - left. split; [reflexivity | now apply value_for_date_on].
  - right. split; [reflexivity|].
    destruct v; try discriminate Hv; cbn [has_date] in Hd; cbn [_value_for_date].
    + unfold loc. destruct (series_get (s_data s) d) as [x|] eqn:E; [|reflexivity].
      apply series_get_in in E.
      assert (Hm : memZ d (index (s_data s)) = true).
      { apply memZ_in. unfold index. apply in_map_iff. exists (d, x). auto. }
      congruence.
    + rewrite frame_loc_none; [reflexivity|].
      destruct (rows_on d (t_frame t)); [reflexivity | discriminate].
Qed.



(** ** The dates of a result *)

Lemma insert_date_in (d x : date) (l : list date) :
  In x (insert_date d l) <-> x = d \/ In x l.
Proof.
  induction l as [|y t IH]; simpl; [intuition|].
  destruct (Z.leb d y); simpl; [intuition|]. rewrite IH. intuition.
Qed.

Lemma insert_date_sorted (d : date) (l : list date) :
  StronglySorted Z.lt l -> ~ In d l -> StronglySorted Z.lt (insert_date d l).
Proof.
  induction 1 as [|y t Hs IH Hall]; intros Hni; simpl.
  - repeat constructor.
  - destruct (Z.leb_spec d y) as [Hle|Hgt].
    + assert (d < y)%Z by (assert (d <> y) by (intros ->; apply Hni; now left); lia).
      constructor; [now constructor|].
      constructor; [assumption|].
      rewrite Forall_forall in *. intros z Hz. specialize (Hall z Hz). lia.
    + constructor.
      * apply IH. intros Hin. apply Hni. now right.
      * rewrite Forall_forall in *. intros z Hz.
        apply insert_date_in in Hz. destruct Hz as [->|Hz]; [lia | auto].
Qed.

Lemma sorted_dates_in (l : list date) (d : date) :
  In d (sorted_dates l) <-> In d l.
Proof.
  unfold sorted_dates. rewrite <- (nodup_In Z.eq_dec l d).
  induction (nodup Z.eq_dec l) as [|x t IH]; simpl; [reflexivity|].
  rewrite insert_date_in, IH. intuition.
Qed.

Lemma sorted_dates_sorted (l : list date) : StronglySorted Z.lt (sorted_dates l).
Proof.
  unfold sorted_dates. pose proof (NoDup_nodup Z.eq_dec l) as Hnd.
  induction Hnd as [|x t Hni Hnd IH]; simpl; [constructor|].
  apply insert_date_sorted; [exact IH|].
  intros Hin. apply Hni. clear - Hin.
  induction t as [|y t IH]; simpl in *; [exact Hin|].
  apply insert_date_in in Hin. destruct Hin as [->|Hin]; [now left | right; auto].
Qed.

Lemma insert_nat_in (i x : nat) (l : list nat) :
  In x (insert_nat i l) <-> x = i \/ In x l.
Proof.
  induction l as [|y t IH]; simpl; [intuition|].
  destruct (Nat.leb i y); simpl; [intuition|]. rewrite IH. intuition.
Qed.

Lemma insert_nat_sorted (i : nat) (l : list nat) :
  StronglySorted lt l -> ~ In i l -> StronglySorted lt (insert_nat i l).
Proof.
  induction 1 as [|y t Hs IH Hall]; intros Hni; simpl.
  - repeat constructor.
  - destruct (Nat.leb_spec i y) as [Hle|Hgt].
    + assert (i < y) by (assert (i <> y) by (intros ->; apply Hni; now left); lia).
      constructor; [now constructor|].
      constructor; [assumption|].
      rewrite Forall_forall in *. intros z Hz. specialize (Hall z Hz). lia.
    + constructor.
      * apply IH. intros Hin. apply Hni. now right.
      * rewrite Forall_forall in *. intros z Hz.
        apply insert_nat_in in Hz. destruct Hz as [->|Hz]; [lia | auto].
Qed.

Lemma sorted_positions_in (l : list nat) (i : nat) :
  In i (sorted_positions l) <-> In i l.
Proof.
  unfold sorted_positions. rewrite <- (nodup_In Nat.eq_dec l i).
  induction (nodup Nat.eq_dec l) as [|y t IH]; simpl; [tauto|].
  rewrite insert_nat_in, IH. intuition.
Qed.

Lemma sorted_positions_sorted (l : list nat) :
  StronglySorted lt (sorted_positions l).
Proof.
  unfold sorted_positions. pose proof (NoDup_nodup Nat.eq_dec l) as Hnd.
  induction Hnd as [|x t Hni Hnd IH]; simpl; [constructor|].
  apply insert_nat_sorted; [exact IH|].
  intros Hin. apply Hni. clear - Hin.
  induction t as [|y t IH]; simpl in *; [exact Hin|].
  apply insert_nat_in in Hin. destruct Hin as [->|Hin]; [now left | right; auto].
Qed.

Lemma days_of_in (l : list label) (d : date) : In d (days_of l) <-> In (Day d) l.
Proof.
  unfold days_of. rewrite in_flat_map. split.
  - intros (a & Ha & Hd). destruct a; simpl in Hd; try contradiction.
    destruct Hd as [->|[]]. exact Ha.
  - intros H. exists (Day d). split; [exact H | now left].
Qed.

Lemma positions_of_in (l : list label) (i : nat) :
  In i (positions_of l) <-> In (Position i) l.
Proof.
  unfold positions_of. rewrite in_flat_map. split.
  - intros (a & Ha & Hd). destruct a; simpl in Hd; try contradiction.
    destruct Hd as [->|[]]. exact Ha.
  - intros H. exists (Position i). split; [exact H | now left].
Qed.

Lemma sorted_map_day (l : list date) :
  StronglySorted Z.lt l -> StronglySorted label_lt (map Day l).
Proof.
  induction 1 as [|x t Hs IH Hall]; simpl; constructor; [exact IH|].
  rewrite Forall_forall in *. intros a Ha. apply in_map_iff in Ha.
  destruct Ha as (y & <- & Hy). simpl. auto.
Qed.

Lemma sorted_map_position (l : list nat) :
  StronglySorted lt l -> StronglySorted label_lt (map Position l).
Proof.
  induction 1 as [|x t Hs IH Hall]; simpl; constructor; [exact IH|].
  rewrite Forall_forall in *. intros a Ha. apply in_map_iff in Ha.
  destruct Ha as (y & <- & Hy). simpl. auto.
Qed.

(** [sorted] of a set of labels: the labels in ascending order, each once,
    or [TypeError] when two of them are of two kinds. *)
Lemma sorted_labels_spec (l : list label) :
  (exists ds, sorted_labels l = Ok ds
              /\ StronglySorted label_lt ds
              /\ forall a, In a ds <-> In a l)
  \/ (sorted_labels l = Raise TypeError
      /\ exists a b, In a l /\ In b l /\ label_kind a <> label_kind b).
Proof.
  unfold sorted_labels.
  destruct (forallb is_day l) eqn:Hd.
  { left. eexists. split; [reflexivity|].
    split; [apply sorted_map_day, sorted_dates_sorted|].
    rewrite forallb_forall in Hd. intros a. rewrite in_map_iff. split.
    - intros (d & <- & H). apply sorted_dates_in, days_of_in in H. exact H.
    - intros H. pose proof (Hd a H) as Ha. destruct a; try discriminate Ha.
      exists d. split; [reflexivity|]. now apply sorted_dates_in, days_of_in. }
  destruct (forallb is_position l) eqn:Hp.
  { left. eexists. split; [reflexivity|].
    split; [apply sorted_map_position, sorted_positions_sorted|].
    rewrite forallb_forall in Hp. intros a. rewrite in_map_iff. split.
    - intros (i & <- & H). apply sorted_positions_in, positions_of_in in H. exact H.
    - intros H. pose proof (Hp a H) as Ha. destruct a; try discriminate Ha.
      exists i. split; [reflexivity|]. now apply sorted_positions_in, positions_of_in. }
  destruct (forallb is_noday l) eqn:Hn.
  { left. exists [NoDay]. split; [reflexivity|].
    split; [repeat constructor|].
    rewrite forallb_forall in Hn. intros a. split.
    - intros [<-|[]]. destruct l as [|b t]; [discriminate Hd|].
      pose proof (Hn b (or_introl eq_refl)) as Hb.
      destruct b; try discriminate Hb. now left.
    - intros H. pose proof (Hn a H) as Ha. destruct a; try discriminate Ha.
      now left. }
  right. split; [reflexivity|].
  destruct (forallb_false_exists _ _ _ Hd) as (x & Hx & Ex).
  destruct (forallb_false_exists _ _ _ Hp) as (y & Hy & Ey).
  destruct (forallb_false_exists _ _ _ Hn) as (z & Hz & Ez).
  destruct x; try discriminate Ex.
  - exists (Position i), y. split; [exact Hx|]. split; [exact Hy|].
    destruct y; try discriminate Ey; simpl; discriminate.
  - exists NoDay, z. split; [exact Hx|]. split; [exact Hz|].
    destruct z; try discriminate Ez; simpl; discriminate.
Qed.

(** X11.  The [dates] of a result of several measures are the labels of
    the indexes of its values that are series or tables, each once and in
    ascending order: the dates of the series and of the tables over
    several dates, the positions of the rows of a table of one date.  When
    labels of two kinds meet, dates and positions, [sorted] raises
    [TypeError] and so does [dates].  The [dates] of a tree, which catches
    that [TypeError] of its own [sorted], are in ascending order, each
    once. *)
Theorem dates_are_sorted :
  forall (fuel : nat) (h : store),
    (forall (o : multi) (inst : Priceable) (items : list (RiskMeasure * value)),
        contents h o = Ok (inst, items) ->
        (exists ds,
            multi_dates h o = Ok ds
            /\ StronglySorted label_lt ds
            /\ forall a, In a ds <->
                         exists m v, In (m, v) items /\ In a (labels_of v))
        \/ (multi_dates h o = Raise TypeError
            /\ exists m1 v1 a1 m2 v2 a2,
                 In (m1, v1) items /\ In a1 (labels_of v1)
                 /\ In (m2, v2) items /\ In a2 (labels_of v2)
                 /\ label_kind a1 <> label_kind a2))
    /\ (forall (t : tree) (ds : list label),
          tree_dates fuel h t = Ok ds -> StronglySorted label_lt ds).
Proof.
  intros fuel h. split.
  - intros o inst items Hc. unfold multi_dates. rewrite Hc. cbn [bind snd].
    assert (Hin : forall a, In a (flat_map labels_of (values items)) <->
                            exists m v, In (m, v) items /\ In a (labels_of v)).
    { intros a. rewrite in_flat_map. unfold values. split.
      - intros (v & Hv & Ha). apply in_map_iff in Hv.
        destruct Hv as ([m v'] & E & Hi). cbn [snd] in E. subst v'. eauto.
      - intros (m & v & Hi & Ha). exists v. split; [|exact Ha].
        apply in_map_iff. exists (m, v). auto. }
    destruct (sorted_labels_spec (flat_map labels_of (values items)))
      as [(ds & E & Hs & Hd)|(E & a & b & Ha & Hb & Hk)].
    + left. exists ds. split; [exact E|]. split; [exact Hs|].
      intros x. rewrite Hd. apply Hin.
    + right. split; [exact E|].
      apply Hin in Ha. apply Hin in Hb.
      destruct Ha as (m1 & v1 & H1 & H1'). destruct Hb as (m2 & v2 & H2 & H2').
      exists m1, v1, a, m2, v2, b. auto.
  - intros t ds. destruct fuel as [|n]; [discriminate|].
    cbn [tree_dates].
    destruct (tree_results (tree_getitem n h) h t) as [rs|]; cbn [bind];
      [|discriminate].
    match goal with
    | |- bind ?c _ = _ -> _ => destruct c as [dss|]; cbn [bind]; [|discriminate]
    end.
    destruct (sorted_labels_spec (List.concat dss))
      as [(ds' & E & Hs & _)|(E & _)]; rewrite E.
    + intros H. injection H as <-. exact Hs.
    + intros H. injection H as <-. constructor.
Qed.

Lemma dates_are_sorted_witness :
  multi_dates [] ex_historical_multi = Ok [Day 1%Z; Day 3%Z]
  /\ multi_dates [] ex_multi_delta = Ok [Position 0; Position 1]
  /\ multi_dates [] ex_multi_mixed = Raise TypeError
  /\ StronglySorted label_lt [Day 1%Z; Day 2%Z].
Proof.
  destruct (dates_are_sorted 2 []) as [H1 H2].
  split; [|split; [|split]].
  - destruct (H1 ex_historical_multi swap1 _ eq_refl)
      as [(ds & E & _)|(E & _)]; [|discriminate E].
    rewrite E. vm_compute in E. injection E as <-. reflexivity.
  - destruct (H1 ex_multi_delta swap1 _ eq_refl)
      as [(ds & E & _)|(E & _)]; [|discriminate E].
    rewrite E. vm_compute in E. injection E as <-. reflexivity.
  - destruct (H1 ex_multi_mixed swap1 _ eq_refl)
      as [(ds & E & _)|(E & _)]; [discriminate E | exact E].
  - apply (H2 ex_history). reflexivity.
Defined.

(** ** The sum of two results of several measures *)

Lemma dict_get_set (V : Type) (d : list (RiskMeasure * V)) (k k' : RiskMeasure)
      (v : V) :
  dict_get (dict_set d k v) k' = if Nat.eqb k k' then Some v else dict_get d k'.
Proof.
  induction d as [|[k0 v0] t IH]; simpl.
  - reflexivity.
  - destruct (Nat.eqb_spec k0 k) as [->|Hne]; simpl.
    + destruct (Nat.eqb k k'); reflexivity.
    + destruct (Nat.eqb_spec k0 k') as [->|Hne'].
      * destruct (Nat.eqb_spec k k'); [congruence | reflexivity].
      * exact IH.
Qed.

Lemma dict_get_none (V : Type) (d : list (RiskMeasure * V)) (k : RiskMeasure) :
  ~ In k (keys d) -> dict_get d k = None.
Proof.
  induction d as [|[k0 v0] t IH]; simpl; [reflexivity|].
  intros H. destruct (Nat.eqb_spec k0 k) as [->|Hne]; [tauto|].
  apply IH. tauto.
Qed.

Lemma dict_get_some_in_keys (V : Type) (d : list (RiskMeasure * V))
      (k : RiskMeasure) (v : V) :
  dict_get d k = Some v -> In k (keys d).
Proof.
  intros H. apply dict_get_in in H. unfold keys. apply in_map_iff.
  exists (k, v). auto.
Qed.

(** One pass of the loop over [all_keys]. *)
Lemma merge_keys_get (c : value -> value -> res value)
      (result : list (RiskMeasure * value)) (ks : list RiskMeasure) :
  NoDup ks ->
  forall (acc r : list (RiskMeasure * value)) (k : RiskMeasure),
    merge_keys c result ks acc = Ok r ->
    (~ In k ks -> dict_get r k = dict_get acc k)
    /\ (In k ks ->
        match dict_get result k with
        | None => dict_get r k = dict_get acc k
        | Some v =>
            match dict_get acc k with
            | None => dict_get r k = Some v
            | Some old => exists v', c old v = Ok v' /\ dict_get r k = Some v'
            end
        end).
Proof.
  induction 1 as [|k0 ks Hni Hnd IH]; intros acc r k Hm.
  - cbn [merge_keys] in Hm. injection Hm as <-. split; [reflexivity | intros []].
  - cbn [merge_keys] in Hm.
    destruct (dict_get result k0) as [v0|] eqn:E0.
    + destruct (dict_get acc k0) as [old|] eqn:Ea.
      * destruct (c old v0) as [v'|] eqn:Ec; cbn [bind] in Hm; [|discriminate].
        destruct (IH _ _ k Hm) as [Hout Hin]. split.
        -- intros Hk. rewrite Hout by (intros H; apply Hk; now right).
           rewrite dict_get_set.
           destruct (Nat.eqb_spec k0 k) as [->|]; [|reflexivity].
           exfalso. apply Hk. now left.
        -- intros [<-|Hk].
           ++ rewrite E0, Ea. exists v'. split; [exact Ec|].
              destruct (IH _ _ k0 Hm) as [Hout' _]. rewrite Hout' by exact Hni.
              rewrite dict_get_set. now rewrite Nat.eqb_refl.
           ++ specialize (Hin Hk). rewrite dict_get_set in Hin.
              destruct (Nat.eqb_spec k0 k) as [->|]; [contradiction | exact Hin].
      * destruct (IH _ _ k Hm) as [Hout Hin]. split.
        -- intros Hk. rewrite Hout by (intros H; apply Hk; now right).
           rewrite dict_get_set.
           destruct (Nat.eqb_spec k0 k) as [->|]; [|reflexivity].
           exfalso. apply Hk. now left.
        -- intros [<-|Hk].
           ++ rewrite E0, Ea.
              destruct (IH _ _ k0 Hm) as [Hout' _]. rewrite Hout' by exact Hni.
              rewrite dict_get_set. now rewrite Nat.eqb_refl.
           ++ specialize (Hin Hk). rewrite dict_get_set in Hin.
              destruct (Nat.eqb_spec k0 k) as [->|]; [contradiction | exact Hin].
    + destruct (IH _ _ k Hm) as [Hout Hin]. split.
      * intros Hk. apply Hout. intros H. apply Hk. now right.
      * intros [<-|Hk]; [rewrite E0; now apply (IH _ _ k0 Hm) | exact (Hin Hk)].
Qed.

(** A pass that meets no measure twice returns. *)
Lemma merge_keys_total (c : value -> value -> res value)
      (result : list (RiskMeasure * value)) (ks : list RiskMeasure) :
  NoDup ks ->
  forall acc : list (RiskMeasure * value),
    (forall k, In k ks -> In k (keys result) -> In k (keys acc) -> False) ->
    exists r, merge_keys c result ks acc = Ok r.
Proof.
  induction 1 as [|k0 ks Hni Hnd IH]; intros acc Hfree.
  - exists acc. reflexivity.
  - cbn [merge_keys]. destruct (dict_get result k0) as [v0|] eqn:E0.
    + destruct (dict_get acc k0) as [old|] eqn:Ea.
      * exfalso. apply (Hfree k0); [now left | |];
          eapply dict_get_some_in_keys; eauto.
      * apply IH. intros k Hk Hr Ha. apply (Hfree k); [now right | exact Hr|].
        destruct (dict_get_in_keys _ _ _ Ha) as (x & Hx).
        rewrite dict_get_set in Hx.
        destruct (Nat.eqb_spec k0 k) as [->|]; [contradiction|].
        eapply dict_get_some_in_keys; eauto.
    + apply IH. intros k Hk. apply Hfree. now right.
Qed.

(** X12.  The sum of two [MultipleRiskMeasureResult]s of one instrument
    whose keys are compatible, on an interpreter that iterates a set over
    each of its elements once: a sum that is returned is a result of that
    instrument which has, at every measure, the value of the operand that
    has the measure, and the composition of the two values, left with
    right, when both have it; the sum is returned when the operands share
    no measure; it is the [ValueError] "Results overlap ..." when they
    share a measure and a date. *)
Theorem sum_of_results_of_one_instrument :
  forall (fuel : nat) (py : Interp) (h : store) (self other : multi)
         (inst inst' : Priceable) (d1 d2 : list (RiskMeasure * value)),
    iterates_sets py ->
    contents h self = Ok (inst, d1) ->
    contents h other = Ok (inst', d2) ->
    Priceable_eqb inst inst' = true ->
    _risk_keys_compatible fuel h (VMulti self) (VMulti other) = Ok true ->
    (forall v, multi_add fuel py h self (VMulti other) = Ok v ->
               exists r, v = VMulti (Own inst r)
                         /\ forall k, merged_at (_compose fuel py h)
                                        (dict_get d1 k) (dict_get d2 k)
                                        (dict_get r k))
    /\ (isdisjoint (keys d1) (keys d2) = true ->
        exists r, multi_add fuel py h self (VMulti other) = Ok (VMulti (Own inst r)))
    /\ (forall ds1 ds2,
          isdisjoint (keys d1) (keys d2) = false ->
          multi_dates h self = Ok ds1 -> multi_dates h other = Ok ds2 ->
          isdisjoint_labels ds1 ds2 = false ->
          multi_add fuel py h self (VMulti other) = Raise (ValueError msg_overlap)).
Proof.
  intros fuel py h self other inst inst' d1 d2 Hpy Hs Ho Heq Hcompat.
  destruct (Hpy (keys d1 ++ keys d2)) as [Hnd Hall].
  assert (Hunfold :
            multi_add fuel py h self (VMulti other)
            = (overlap <-
                 (if negb (isdisjoint (keys d1) (keys d2))
                  then ds <- multi_dates h self ;;
                       do <- multi_dates h other ;;
                       Ok (negb (isdisjoint_labels ds do))
                  else Ok false) ;;
               if (overlap : bool) then Raise (ValueError msg_overlap)
               else
                 r1 <- merge_keys (_compose fuel py h) d1
                         (set_iter py (keys d1 ++ keys d2)) [] ;;
                 r2 <- merge_keys (_compose fuel py h) d2
                         (set_iter py (keys d1 ++ keys d2)) r1 ;;
                 Ok (VMulti (Own inst r2)))).
  { unfold multi_add, multi_add_multi. rewrite Hs, Ho. cbn [bind fst snd].
    rewrite Hcompat. cbn [bind negb]. rewrite Heq. cbn [negb].
    rewrite andb_true_r. reflexivity. }
  rewrite Hunfold. clear Hunfold.
  split; [|split].
  - intros v Hv.
    match type of Hv with
    | bind ?c _ = _ => destruct c as [[|]|]; cbn [bind] in Hv; try discriminate
    end.
    destruct (merge_keys (_compose fuel py h) d1 _ []) as [r1|] eqn:E1;
      cbn [bind] in Hv; [|discriminate].
    destruct (merge_keys (_compose fuel py h) d2 _ r1) as [r2|] eqn:E2;
      cbn [bind] in Hv; [|discriminate].
    injection Hv as <-. exists r2. split; [reflexivity|].
    intros k.
    destruct (merge_keys_get _ _ _ Hnd _ _ k E1) as [H1out H1in].
    destruct (merge_keys_get _ _ _ Hnd _ _ k E2) as [H2out H2in].
    assert (Hr1 : dict_get r1 k = dict_get d1 k).
    { destruct (in_dec Nat.eq_dec k (set_iter py (keys d1 ++ keys d2)))
        as [Hin|Hout].
      - specialize (H1in Hin). cbn [dict_get] in H1in.
        destruct (dict_get d1 k); exact H1in.
      - rewrite (H1out Hout). cbn [dict_get]. symmetry. apply dict_get_none.
        intros Hk. apply Hout. apply Hall. apply in_or_app. now left. }
    unfold merged_at.
    destruct (in_dec Nat.eq_dec k (set_iter py (keys d1 ++ keys d2)))
      as [Hin|Hout].
    + specialize (H2in Hin). rewrite Hr1 in H2in.
      destruct (dict_get d2 k) as [v2|]; destruct (dict_get d1 k) as [v1|];
        try exact H2in.
    + rewrite (H2out Hout), Hr1.
      assert (Hn1 : dict_get d1 k = None).
      { apply dict_get_none. intros Hk. apply Hout. apply Hall.
        apply in_or_app. now left. }
      assert (Hn2 : dict_get d2 k = None).
      { apply dict_get_none. intros Hk. apply Hout. apply Hall.
        apply in_or_app. now right. }
      rewrite Hn1, Hn2. reflexivity.
  - intros Hdis. rewrite Hdis. cbn [negb bind].
    destruct (merge_keys_total (_compose fuel py h) d1 _ Hnd []) as (r1 & E1).
    { intros k _ _ []. }
    rewrite E1. cbn [bind].
    destruct (merge_keys_total (_compose fuel py h) d2 _ Hnd r1) as (r2 & E2).
    { intros k Hk H2 H1.
      destruct (dict_get_in_keys _ _ _ H1) as (x & Hx).
      destruct (merge_keys_get _ _ _ Hnd _ _ k E1) as [_ H1in].
      specialize (H1in Hk). cbn [dict_get] in H1in.
      destruct (dict_get d1 k) as [v1|] eqn:Ed1; [|congruence].
      apply dict_get_some_in_keys in Ed1.
      assert (Hov : isdisjoint (keys d1) (keys d2) = false).
      { apply isdisjoint_overlap. exists k. auto. }
      congruence. }
    rewrite E2. cbn [bind]. exists r2. reflexivity.
  - intros ds1 ds2 Hk H1 H2 Hd. rewrite Hk, H1, H2. cbn [negb bind].
    rewrite Hd. reflexivity.
Qed.

Lemma python_iterates_sets (single_shot : bool) : iterates_sets (python single_shot).
Proof.
  intros l. cbn [python set_iter]. unfold nodup_measures. split.
  - apply NoDup_nodup.
  - intros x. apply nodup_In.
Qed.

Lemma sum_of_results_of_one_instrument_witness :
  (exists r, multi_add 1 (python true) [] ex_multi_floats (VMulti ex_multi_price)
             = Ok (VMulti (Own swap1 r))
             /\ merged_at (_compose 1 (python true) [])
                  (None : option value) (Some (VFloat (ex_float 1 Price 11)))
                  (dict_get r Price))
  /\ multi_add 1 (python true) [] ex_historical_multi (VMulti ex_historical_multi)
     = Raise (ValueError msg_overlap).
Proof.
  split.
  - destruct (sum_of_results_of_one_instrument 1 (python true) [] ex_multi_floats
                ex_multi_price swap1 swap1 _ _ (python_iterates_sets true)
                eq_refl eq_refl eq_refl eq_refl) as (H1 & H2 & _).
    destruct (H2 eq_refl) as (r & E). exists r. split; [exact E|].
    destruct (H1 _ E) as (r' & Er & Hk). injection Er as <-.
    exact (Hk Price).
  - destruct (sum_of_results_of_one_instrument 1 (python true) []
                ex_historical_multi ex_historical_multi swap1 swap1 _ _
                (python_iterates_sets true) eq_refl eq_refl eq_refl eq_refl)
      as (_ & _ & H3).
    apply (H3 [Day 1%Z; Day 3%Z] [Day 1%Z; Day 3%Z]); reflexivity.
Defined.

(** ** The sum of results of two instruments *)

Lemma futures_for_keys_ok (r : list (RiskMeasure * value)) (ks : list RiskMeasure) :
  (forall k, In k ks -> In k (keys r)) ->
  exists fs, futures_for_keys r ks = Ok fs
             /\ keys fs = ks
             /\ forall k, In k ks ->
                  option_map result_of (dict_get fs k) = dict_get r k.
Proof.
  unfold futures_for_keys. induction ks as [|k0 ks IH]; intros Hin.
  - exists []. split; [reflexivity|]. split; [reflexivity | intros k []].
  - destruct IH as (fs & E & Hk & Hget); [intros k Hk; apply Hin; now right|].
    destruct (dict_get_in_keys _ _ _ (Hin k0 (or_introl eq_refl))) as (v & Ev).
    cbn [mapM]. rewrite Ev. cbn [bind]. rewrite E. cbn [bind].
    eexists. split; [reflexivity|]. split; [cbn [keys map fst]; f_equal; exact Hk|].
    intros k Hk'. cbn [dict_get].
    destruct (Nat.eqb_spec k0 k) as [->|Hne]; [cbn [option_map result_of]; congruence|].
    apply Hget. destruct Hk' as [->|Hk']; [contradiction | exact Hk'].
Qed.

Lemma futures_for_keys_missing (r : list (RiskMeasure * value))
      (ks : list RiskMeasure) (k : RiskMeasure) :
  In k ks -> ~ In k (keys r) -> futures_for_keys r ks = Raise AttributeError.
Proof.
  intros Hin Hout. unfold futures_for_keys.
  apply mapM_first_raise.
  - intros x _. destruct (dict_get r x); [left | right]; reflexivity.
  - exists k. split; [exact Hin|]. now rewrite (dict_get_none _ _ _ Hout).
Qed.

(** X13.  The sum of two [MultipleRiskMeasureResult]s of two different
    instruments whose keys are compatible, on an interpreter that
    iterates a set over each of its elements once: when one operand has a
    measure that the other lacks, a future of [None] is given to a
    [MultipleRiskMeasureFuture] and the sum raises [AttributeError]; when
    both have the same measures the sum is a tree over the two
    instruments, with these measures, whose two futures hold the values of
    the operands by measure.  No overlap of dates is looked for. *)
Theorem sum_of_results_of_two_instruments :
  forall (fuel : nat) (py : Interp) (h : store) (self other : multi)
         (inst inst' : Priceable) (d1 d2 : list (RiskMeasure * value)),
    iterates_sets py ->
    contents h self = Ok (inst, d1) ->
    contents h other = Ok (inst', d2) ->
    Priceable_eqb inst inst' = false ->
    _risk_keys_compatible fuel h (VMulti self) (VMulti other) = Ok true ->
    ((exists k, (In k (keys d1) /\ ~ In k (keys d2))
                \/ (In k (keys d2) /\ ~ In k (keys d1))) ->
     multi_add fuel py h self (VMulti other) = Raise AttributeError)
    /\ ((forall k, In k (keys d1) <-> In k (keys d2)) ->
        exists m2f1 m2f2,
          multi_add fuel py h self (VMulti other)
          = Ok (VTree (PortfolioRiskResult [inst; inst']
                         (set_iter py (keys d1 ++ keys d2))
                         [new_MultipleRiskMeasureFuture inst m2f1;
                          new_MultipleRiskMeasureFuture inst' m2f2]))
          /\ keys m2f1 = set_iter py (keys d1 ++ keys d2)
          /\ keys m2f2 = set_iter py (keys d1 ++ keys d2)
          /\ forall k, In k (keys d1) ->
               option_map result_of (dict_get m2f1 k) = dict_get d1 k
               /\ option_map result_of (dict_get m2f2 k) = dict_get d2 k).
Proof.
  intros fuel py h self other inst inst' d1 d2 Hpy Hs Ho Hne Hcompat.
  destruct (Hpy (keys d1 ++ keys d2)) as [Hnd Hall].
  assert (Hunfold :
            multi_add fuel py h self (VMulti other)
            = (f1 <- futures_for_keys d1 (set_iter py (keys d1 ++ keys d2)) ;;
               f2 <- futures_for_keys d2 (set_iter py (keys d1 ++ keys d2)) ;;
               Ok (VTree (PortfolioRiskResult [inst; inst']
                            (set_iter py (keys d1 ++ keys d2))
                            [new_MultipleRiskMeasureFuture inst f1;
                             new_MultipleRiskMeasureFuture inst' f2])))).
  { unfold multi_add, multi_add_multi. rewrite Hs, Ho. cbn [bind fst snd].
    rewrite Hcompat. cbn [bind negb]. rewrite Hne. cbn [negb].
    rewrite andb_false_r. reflexivity. }
  rewrite Hunfold. clear Hunfold. split.
  - intros (k & Hk).
    destruct (forallb (fun x => mem x (keys d1)) (set_iter py (keys d1 ++ keys d2)))
      eqn:F.
    + rewrite forallb_forall in F.
      destruct (futures_for_keys_ok d1 (set_iter py (keys d1 ++ keys d2)))
        as (fs & E & _).
      { intros x Hx. apply mem_in. now apply F. }
      rewrite E. cbn [bind].
      destruct Hk as [[H1 H2]|[H2 H1]].
      * rewrite (futures_for_keys_missing d2 _ k); [reflexivity | | exact H2].
        apply Hall. apply in_or_app. now left.
      * exfalso. apply H1. apply mem_in. apply F. apply Hall.
        apply in_or_app. now right.
    + destruct (forallb_false_exists _ _ _ F) as (x & Hx & Hm).
      rewrite (futures_for_keys_missing d1 _ x); [reflexivity | exact Hx|].
      intros Hin. apply mem_in in Hin. congruence.
  - intros Hsame.
    destruct (futures_for_keys_ok d1 (set_iter py (keys d1 ++ keys d2)))
      as (f1 & E1 & K1 & G1).
    { intros x Hx. apply Hall in Hx. apply in_app_or in Hx.
      destruct Hx as [Hx|Hx]; [exact Hx | now apply Hsame]. }
    destruct (futures_for_keys_ok d2 (set_iter py (keys d1 ++ keys d2)))
      as (f2 & E2 & K2 & G2).
    { intros x Hx. apply Hall in Hx. apply in_app_or in Hx.
      destruct Hx as [Hx|Hx]; [now apply Hsame | exact Hx]. }
    rewrite E1, E2. cbn [bind]. exists f1, f2.
    split; [reflexivity|]. split; [exact K1|]. split; [exact K2|].
    intros k Hk.
    assert (Hin : In k (set_iter py (keys d1 ++ keys d2))).
    { apply Hall. apply in_or_app. now left. }
    split; [now apply G1 | now apply G2].
Qed.

Lemma sum_of_results_of_two_instruments_witness :
  multi_add 1 (python true) [] ex_multi_price (VMulti ex_multi_swap2)
  = Raise AttributeError
  /\ exists m2f1 m2f2,
       multi_add 1 (python true) [] ex_multi_floats (VMulti ex_multi_swap2)
       = Ok (VTree (PortfolioRiskResult [swap1; swap2] [DollarPrice; IRDelta]
                      [new_MultipleRiskMeasureFuture swap1 m2f1;
                       new_MultipleRiskMeasureFuture swap2 m2f2]))
       /\ option_map result_of (dict_get m2f2 IRDelta)
          = Some (VFloat (ex_float 1 IRDelta 40)).
Proof.
  split.
  - apply (proj1 (sum_of_results_of_two_instruments 1 (python true) []
                    ex_multi_price ex_multi_swap2 swap1 swap2 _ _
                    (python_iterates_sets true) eq_refl eq_refl eq_refl eq_refl)).
    exists Price. left. split; [now left|].
    simpl. intuition discriminate.
  - destruct (proj2 (sum_of_results_of_two_instruments 1 (python true) []
                       ex_multi_floats ex_multi_swap2 swap1 swap2 _ _
                       (python_iterates_sets true) eq_refl eq_refl eq_refl eq_refl))
      as (m2f1 & m2f2 & E & _ & _ & Hget).
    + intros k. reflexivity.
    + exists m2f1, m2f2. split; [exact E|].
      apply (Hget IRDelta). right. now left.
Defined.

(** ** Paths *)

(** X14.  Calling the sum of two paths, neither of them empty, on a
    target is calling the first, taking the result of the future that it
    arrives at, and calling the second on it; any exception of the first
    call is that of the whole. *)
Theorem path_of_sum :
  forall (tree_getitem_rec : tree -> key -> res value) (h : store)
         (p q : PortfolioPath) (tgt : target),
    p <> [] -> q <> [] ->
    path_call tree_getitem_rec h (PortfolioPath_add p q) tgt
    = (x <- path_call tree_getitem_rec h p tgt ;;
       path_call tree_getitem_rec h q (resolved x)).
Proof.
  intros tg h p q tgt Hp Hq. unfold PortfolioPath_add.
  revert tgt. induction p as [|e p IH]; intros tgt; [congruence|].
  destruct p as [|e' p'].
  - cbn [app path_call]. destruct q as [|e0 q0]; [congruence|].
    unfold path_step.
    match goal with
    | |- bind (bind ?c _) _ = _ => destruct c as [next|]; [|reflexivity]
    end.
    cbn [bind]. destruct next; reflexivity.
  - change ((e :: e' :: p') ++ q) with (e :: (e' :: p') ++ q).
    cbn [path_call]. cbn [app].
    destruct (path_step tg h tgt e true) as [next|]; [|reflexivity].
    cbn [bind]. apply IH. discriminate.
Qed.

Lemma path_of_sum_witness :
  path_call (tree_getitem 3 []) [] (PortfolioPath_add [1] [2; 0])
            (TTuple (futures_of ex_nested_tree))
  = (x <- path_call (tree_getitem 3 []) [] [1] (TTuple (futures_of ex_nested_tree)) ;;
     path_call (tree_getitem 3 []) [] [2; 0] (resolved x))
  /\ path_call (tree_getitem 3 []) [] (PortfolioPath_add [1] [2; 0])
               (TTuple (futures_of ex_nested_tree))
     = Ok (TFuture (PricingFuture (VFloat (ex_float 1 DollarPrice 10)))).
Proof.
  split; [|reflexivity].
  apply (path_of_sum (tree_getitem 3 []) [] [1] [2; 0]); discriminate.
Defined.

(** ** Reading a tree at a position *)

(** X15.  A tree read at a position beyond its futures raises
    [IndexError]; read at a position that it has, it gives the result of
    the future there, or, in a tree of one measure when that result is a
    result of several measures or a tree, that result read at the measure;
    read at a priceable for which the portfolio has no path it raises
    [KeyError]. *)
Theorem tree_item_bounds :
  forall (n : nat) (h : store) (t : tree) (i : nat),
    (List.length (futures_of t) <= i ->
     tree_getitem (S n) h t (KInt i) = Raise IndexError)
    /\ (forall f : future,
          nth_error (futures_of t) i = Some f ->
          tree_getitem (S n) h t (KInt i)
          = match risk_measures_of t, result_of f with
            | [m], VMulti o => multi_getitem h o (KMeasure m)
            | [m], VTree sub => tree_getitem n h sub (KMeasure m)
            | _, r => Ok r
            end)
    /\ (forall p : Priceable,
          paths (Portfolio (portfolio_of t)) p = [] ->
          tree_getitem (S n) h t (KPriceable p) = Raise KeyError).
Proof.
  intros n h t i. split; [|split].
  - intros Hlen. cbn [tree_getitem]. unfold tree_results_item, tree_paths.
    cbn [bind]. unfold tree_result, path_result. cbn [path_call].
    unfold path_step, nth_future. apply nth_error_None in Hlen.
    rewrite Hlen. reflexivity.
  - intros f Hf. cbn [tree_getitem]. unfold tree_results_item, tree_paths.
    cbn [bind]. unfold tree_result, path_result. cbn [path_call].
    unfold path_step, nth_future. rewrite Hf. cbn [bind].
    destruct (risk_measures_of t) as [|m [|m' rest]]; try reflexivity.
    destruct (result_of f); reflexivity.
  - intros p Hp. cbn [tree_getitem]. unfold tree_results_item, tree_paths.
    cbn [bind]. rewrite Hp. reflexivity.
Qed.

Lemma tree_item_bounds_witness :
  tree_getitem 1 [] ex_prices (KInt 3) = Raise IndexError
  /\ tree_getitem 1 [] ex_prices (KInt 2)
     = Ok (VFloat (ex_float 1 DollarPrice 4439478))
  /\ tree_getitem 1 [] ex_prices (KPriceable swap4) = Raise KeyError.
Proof.
  destruct (tree_item_bounds 0 [] ex_prices 3) as (H1 & _ & _).
  destruct (tree_item_bounds 0 [] ex_prices 2) as (_ & H2 & H3).
  split; [apply H1; simpl; lia|]. split.
  - apply (H2 (PricingFuture (VFloat (ex_float 1 DollarPrice 4439478)))).
    reflexivity.
  - apply H3. reflexivity.
Defined.

(** ** Slices of a tree *)

(** X16.  A tree sliced by a measure that it has not computed, or by
    measures one of which it has not computed, raises the [ValueError]
    "not computed"; a tree of one measure sliced by that measure, or by
    a collection that holds no other measure, is the tree itself. *)
Theorem measure_not_computed :
  forall (n : nat) (h : store) (t : tree) (m : RiskMeasure)
         (ms : list RiskMeasure),
    (mem m (risk_measures_of t) = false ->
     tree_getitem (S n) h t (KMeasure m) = Raise (ValueError msg_not_computed))
    /\ (existsb (fun it => negb (mem it (risk_measures_of t))) ms = true ->
        tree_getitem (S n) h t (KMeasures ms) = Raise (ValueError msg_not_computed))
    /\ (risk_measures_of t = [m] ->
        tree_getitem (S n) h t (KMeasure m) = Ok (VTree t)
        /\ (forallb (Nat.eqb m) ms = true ->
            tree_getitem (S n) h t (KMeasures ms) = Ok (VTree t))).
Proof.
  intros n h t m ms. split; [|split].
  - intros Hm. cbn [tree_getitem existsb]. rewrite Hm. reflexivity.
  - intros Hm. cbn [tree_getitem]. rewrite Hm. reflexivity.
  - intros Hr. split.
    + cbn [tree_getitem existsb]. rewrite Hr. unfold mem. cbn [existsb].
      rewrite Nat.eqb_refl. reflexivity.
    + intros Hms. cbn [tree_getitem]. rewrite Hr.
      assert (E : existsb (fun it => negb (mem it [m])) ms = false).
      { clear - Hms. induction ms as [|x r IH]; [reflexivity|].
        cbn [forallb] in Hms. apply andb_prop in Hms. destruct Hms as [Hx Hr].
        cbn [existsb]. rewrite (IH Hr). unfold mem. cbn [existsb].
        rewrite Nat.eqb_sym, Hx. reflexivity. }
      rewrite E. reflexivity.
Qed.

Lemma measure_not_computed_witness :
  tree_getitem 1 [] ex_prices (KMeasure Price) = Raise (ValueError msg_not_computed)
  /\ tree_getitem 1 [] ex_calc (KMeasures [DollarPrice; Price])
     = Raise (ValueError msg_not_computed)
  /\ tree_getitem 1 [] ex_prices (KMeasure DollarPrice) = Ok (VTree ex_prices)
  /\ tree_getitem 1 [] ex_prices (KMeasures [DollarPrice; DollarPrice])
     = Ok (VTree ex_prices).
Proof.
  destruct (measure_not_computed 0 [] ex_prices Price []) as (H1 & _ & _).
  destruct (measure_not_computed 0 [] ex_calc Price [DollarPrice; Price])
    as (_ & H2 & _).
  destruct (measure_not_computed 0 [] ex_prices DollarPrice
              [DollarPrice; DollarPrice]) as (_ & _ & H3).
  destruct (H3 eq_refl) as [H4 H5].
  split; [apply H1; reflexivity|]. split; [apply H2; reflexivity|].
  split; [exact H4 | apply H5; reflexivity].
Defined.

(** X17.  Whenever the slice of a tree by a measure is returned, it is a
    tree of that one measure over the same portfolio, the measure is one
    that the tree has computed, and slicing the slice by the measure
    again gives the slice itself: slicing by a measure twice is slicing
    once. *)
Theorem measure_slice_is_idempotent :
  forall (fuel : nat) (h : store) (t : tree) (m : RiskMeasure) (v : value),
    tree_getitem fuel h t (KMeasure m) = Ok v ->
    exists t',
      v = VTree t'
      /\ risk_measures_of t' = [m]
      /\ portfolio_of t' = portfolio_of t
      /\ In m (risk_measures_of t)
      /\ forall (fuel' : nat) (h' : store),
           tree_getitem (S fuel') h' t' (KMeasure m) = Ok (VTree t').
Proof.
  intros fuel h t m v H. destruct fuel as [|n]; [discriminate|].
  cbn [tree_getitem existsb] in H.
  destruct (mem m (risk_measures_of t)) eqn:Hm; cbn [negb orb] in H;
    [|discriminate].
  assert (Hin : In m (risk_measures_of t)) by now apply mem_in.
  assert (Hagain : forall t', risk_measures_of t' = [m] ->
            forall fuel' h', tree_getitem (S fuel') h' t' (KMeasure m)
                             = Ok (VTree t')).
  { intros t' Hr fuel' h'. cbn [tree_getitem existsb]. rewrite Hr.
    unfold mem. cbn [existsb]. rewrite Nat.eqb_refl. reflexivity. }
  destruct (risk_measures_of t) as [|m0 [|m1 rest]] eqn:Er.
  - destruct Hin.
  - injection H as <-. destruct Hin as [->|[]].
    exists t. repeat split; auto. now left.
  - match type of H with
    | bind ?c _ = _ => destruct c as [fs|]; cbn [bind] in H; [|discriminate]
    end.
    injection H as <-. eexists. split; [reflexivity|].
    split; [reflexivity|]. split; [reflexivity|]. split; [exact Hin|].
    apply Hagain. reflexivity.
Qed.

Lemma measure_slice_is_idempotent_witness :
  exists t',
    tree_getitem 2 [] ex_calc (KMeasure DollarPrice) = Ok (VTree t')
    /\ risk_measures_of t' = [DollarPrice]
    /\ tree_getitem 1 [] t' (KMeasure DollarPrice) = Ok (VTree t').
Proof.
  destruct (tree_getitem 2 [] ex_calc (KMeasure DollarPrice)) as [v|] eqn:E;
    [|discriminate E].
  destruct (measure_slice_is_idempotent 2 [] ex_calc DollarPrice v E)
    as (t' & -> & Hr & _ & _ & Hagain).
  exists t'. split; [reflexivity|]. split; [exact Hr | apply Hagain].
Defined.

Lemma mapM_Forall (A B : Type) (f : A -> res B) (P : B -> Prop) (l : list A) :
  (forall x y, f x = Ok y -> P y) ->
  forall l', mapM f l = Ok l' -> Forall P l'.
Proof.
  intros Hf. induction l as [|x t IH]; intros l' H; cbn [mapM] in H.
  - injection H as <-. constructor.
  - destruct (f x) as [y|] eqn:Ey; cbn [bind] in H; [|discriminate].
    destruct (mapM f t) as [ys|]; cbn [bind] in H; [|discriminate].
    injection H as <-. constructor; [eapply Hf; eauto | now apply IH].
Qed.



(** ** The sum of two trees over two portfolios *)

Lemma tree_getitem_int (n : nat) (h : store) (t : tree) (i : nat) (f : future) :
  nth_error (futures_of t) i = Some f ->
  tree_getitem (S n) h t (KInt i)
  = match risk_measures_of t, result_of f with
    | [m], VMulti o => multi_getitem h o (KMeasure m)
    | [m], VTree sub => tree_getitem n h sub (KMeasure m)
    | _, r => Ok r
    end.
Proof.
  intros Hf. cbn [tree_getitem]. unfold tree_results_item, tree_paths.
  cbn [bind]. unfold tree_result, path_result. cbn [path_call].
  unfold path_step, nth_future. rewrite Hf. cbn [bind].
  destruct (risk_measures_of t) as [|m [|m' rest]]; try reflexivity.
  destruct (result_of f); reflexivity.
Qed.

Lemma zip_length (A B : Type) (a : list A) (b : list B) :
  List.length a = List.length b -> List.length (zip a b) = List.length a.
Proof.
  revert b. induction a as [|x a IH]; intros [|y b] H; simpl in *;
    try discriminate; [reflexivity|].
  f_equal. apply IH. lia.
Qed.

Lemma zip_nth_error (A B : Type) (a : list A) (b : list B) (i : nat) (y : B) :
  List.length a = List.length b ->
  nth_error b i = Some y ->
  exists x, nth_error (zip a b) i = Some (x, y).
Proof.
  revert b i. induction a as [|x a IH]; intros [|y0 b] i H Hy; simpl in *;
    try discriminate.
  - destruct i; discriminate.
  - destruct i as [|i]; simpl in *.
    + injection Hy as ->. eauto.
    + apply IH; [lia | exact Hy].
Qed.

Lemma wrap_plain_leaves (n : nat) (p : list Priceable) (m : RiskMeasure)
      (fs : list future) :
  forallb plain_leaf fs = true ->
  as_multiple_result_futures (S n) (PortfolioRiskResult p [m] fs)
  = Ok (PortfolioRiskResult p [m] (map (wrapped m) (zip p fs))).
Proof.
  intros Hpl. cbn [as_multiple_result_futures risk_measures_of portfolio_of futures_of].
  rewrite (mapM_ok_map _ _ _ (wrapped m)); [reflexivity|].
  intros [q f] Hin. cbn [snd fst].
  assert (Hf : plain_leaf f = true).
  { rewrite forallb_forall in Hpl. apply Hpl.
    clear - Hin. revert fs Hin. induction p as [|q0 p IH]; intros [|f0 fs] Hin;
      simpl in Hin; try contradiction.
    destruct Hin as [E|Hin]; [injection E as _ ->; now left | right; eauto]. }
  destruct f; try discriminate. reflexivity.
Qed.

Lemma set_iter_one (py : Interp) (m : RiskMeasure) :
  iterates_sets py -> set_iter py ([m] ++ [m]) = [m].
Proof.
  intros Hpy. destruct (Hpy ([m] ++ [m])) as [Hnd Hin].
  assert (Hall : forall x, In x (set_iter py ([m] ++ [m])) -> x = m).
  { intros x Hx. apply Hin in Hx. simpl in Hx. intuition. }
  assert (Hm : In m (set_iter py ([m] ++ [m]))) by (apply Hin; now left).
  destruct (set_iter py ([m] ++ [m])) as [|a r]; [destruct Hm|].
  assert (a = m) by (apply Hall; now left). subst a.
  destruct r as [|b r]; [reflexivity|].
  assert (b = m) by (apply Hall; right; now left). subst b.
  inversion Hnd as [|? ? Hni _]; subst. exfalso. apply Hni. now left.
Qed.

Lemma read_wrapped (n : nat) (h : store) (p : list Priceable) (m : RiskMeasure)
      (fs : list future) (i : nat) (q : Priceable) (f : future) :
  nth_error fs i = Some (wrapped m (q, f)) ->
  plain_leaf f = true ->
  tree_getitem (S n) h (PortfolioRiskResult p [m] fs) (KInt i) = Ok (result_of f).
Proof.
  intros Hf Hpl. rewrite (tree_getitem_int n h (PortfolioRiskResult p [m] fs) i _ Hf).
  cbn [risk_measures_of wrapped new_MultipleRiskMeasureFuture result_of fst snd map].
  unfold multi_getitem. cbn [contents bind snd dict_of fold_left dict_set fst dict_get].
  rewrite Nat.eqb_refl. reflexivity.
Qed.

Lemma read_plain (n : nat) (h : store) (p : list Priceable) (m : RiskMeasure)
      (fs : list future) (i : nat) (f : future) :
  nth_error fs i = Some f ->
  plain_leaf f = true ->
  tree_getitem (S n) h (PortfolioRiskResult p [m] fs) (KInt i) = Ok (result_of f).
Proof.
  intros Hf Hpl. rewrite (tree_getitem_int n h (PortfolioRiskResult p [m] fs) i _ Hf).
  cbn [risk_measures_of]. destruct f as [v| | |]; try discriminate.
  cbn [result_of]. destruct v; try discriminate; reflexivity.
Qed.

(** X19.  The sum of two trees of the same single measure over two
    different portfolios, each with one plain future for every entry, on
    an interpreter that iterates a set over each of its elements once and
    when the guard against overlaps lets the sum through: it is a tree of
    that measure over the concatenation of the portfolios, with a future
    for every entry of both; read at a position of the left operand it
    gives what the left operand gives there, and read behind them what
    the right operand gives; the store is as before. *)
Theorem sum_over_two_portfolios :
  forall (n : nat) (py : Interp) (h : store) (pA pB : list Priceable)
         (m : RiskMeasure) (fsA fsB : list future),
    iterates_sets py ->
    forallb plain_leaf fsA = true -> forallb plain_leaf fsB = true ->
    List.length pA = List.length fsA -> List.length pB = List.length fsB ->
    same_portfolio (PortfolioRiskResult pA [m] fsA)
                   (PortfolioRiskResult pB [m] fsB) = false ->
    is_ok (provenance_check (S n) h (PortfolioRiskResult pA [m] fsA)) = true ->
    results_overlap (S n) h (PortfolioRiskResult pA [m] fsA)
                    (PortfolioRiskResult pB [m] fsB) = Ok false ->
    exists fs,
      tree_add (S (S n)) py (PortfolioRiskResult pA [m] fsA)
               (VTree (PortfolioRiskResult pB [m] fsB)) h
      = (Ok (VTree (PortfolioRiskResult (pA ++ pB) [m] fs)), h)
      /\ List.length fs = List.length pA + List.length pB
      /\ (forall i, i < List.length fsA ->
            tree_getitem 1 h (PortfolioRiskResult (pA ++ pB) [m] fs) (KInt i)
            = tree_getitem 1 h (PortfolioRiskResult pA [m] fsA) (KInt i))
      /\ (forall j, j < List.length fsB ->
            tree_getitem 1 h (PortfolioRiskResult (pA ++ pB) [m] fs)
                         (KInt (List.length fsA + j))
            = tree_getitem 1 h (PortfolioRiskResult pB [m] fsB) (KInt j)).
Proof.
  intros n py h pA pB m fsA fsB Hpy HplA HplB HlA HlB Hdiff Hprov Hov.
  exists (map (wrapped m) (zip pA fsA) ++ map (wrapped m) (zip pB fsB)).
  assert (HzA : List.length (zip pA fsA) = List.length fsA)
    by (rewrite zip_length; auto).
  assert (HzB : List.length (zip pB fsB) = List.length fsB)
    by (rewrite zip_length; auto).
  split; [|split; [|split]].
  - cbn [tree_add]. unfold bindS at 1. unfold reading at 1.
    destruct (provenance_check (S n) h (PortfolioRiskResult pA [m] fsA))
      as [b|] eqn:Ep; [|discriminate].
    rewrite (provenance_check_true _ _ _ _ Ep). cbn [negb].
    unfold bindS at 1. unfold reading at 1. rewrite Hov.
    unfold bindS at 1. unfold reading at 1.
    rewrite (wrap_plain_leaves n pA m fsA HplA).
    unfold bindS at 1. unfold reading at 1.
    rewrite (wrap_plain_leaves n pB m fsB HplB).
    rewrite Hdiff. cbn [risk_measures_of futures_of portfolio_of].
    rewrite (set_iter_one py m Hpy). reflexivity.
  - rewrite length_app, !length_map, HzA, HzB. lia.
  - intros i Hi.
    destruct (nth_error fsA i) as [f|] eqn:Ef;
      [|apply nth_error_None in Ef; lia].
    destruct (zip_nth_error _ _ pA fsA i f HlA Ef) as (q & Eq).
    assert (Hf : plain_leaf f = true).
    { rewrite forallb_forall in HplA. apply HplA. eapply nth_error_In; eauto. }
    rewrite (read_wrapped 0 h _ m _ i q f); [|  | exact Hf].
    + symmetry. now apply read_plain.
    + rewrite nth_error_app1 by (rewrite length_map; lia).
      rewrite nth_error_map, Eq. reflexivity.
  - intros j Hj.
    destruct (nth_error fsB j) as [f|] eqn:Ef;
      [|apply nth_error_None in Ef; lia].
    destruct (zip_nth_error _ _ pB fsB j f HlB Ef) as (q & Eq).
    assert (Hf : plain_leaf f = true).
    { rewrite forallb_forall in HplB. apply HplB. eapply nth_error_In; eauto. }
    rewrite (read_wrapped 0 h _ m _ (List.length fsA + j) q f); [|  | exact Hf].
    + symmetry. now apply read_plain.
    + rewrite nth_error_app2 by (rewrite length_map; lia).
      rewrite length_map, HzA.
      replace (List.length fsA + j - List.length fsA) with j by lia.
      rewrite nth_error_map, Eq. reflexivity.
Qed.

Lemma sum_over_two_portfolios_witness :
  exists fs,
    tree_add 2 (python true) ex_prices (VTree ex_more_prices) []
    = (Ok (VTree (PortfolioRiskResult [swap1; swap2; swap3; swap4]
                    [DollarPrice] fs)), [])
    /\ List.length fs = 4
    /\ tree_getitem 1 [] (PortfolioRiskResult [swap1; swap2; swap3; swap4]
                            [DollarPrice] fs) (KInt 3)
       = Ok (VFloat (ex_float 1 DollarPrice 44)).
Proof.
  destruct (sum_over_two_portfolios 0 (python true) [] [swap1; swap2; swap3]
              [swap4] DollarPrice (futures_of ex_prices) (futures_of ex_more_prices)
              (python_iterates_sets true) eq_refl eq_refl eq_refl eq_refl
              eq_refl eq_refl eq_refl) as (fs & E & Hlen & _ & HB).
  exists fs. split; [exact E|]. split; [exact Hlen|].
  apply (HB 0). simpl. lia.
Defined.

(** ** A scalar composed with a series *)

(** X20.  Whenever [ScalarWithInfo.compose] of one scalar gives the
    series of its one date, the composition of the scalar and a series is
    the same series whichever of the two is the left operand: its dates
    are the date of the scalar and those of the series, each once, in
    strictly ascending order; on its date the scalar wins, unless it is
    missing (NaN); on the other dates the series gives the value. *)
Theorem compose_scalar_series :
  forall (fuel : nat) (py : Interp) (h : store) (x : FloatWithInfo)
         (s s0 : SeriesWithInfo) (d : date),
    compose [VFloat x] = Ok s0 ->
    s_data s0 = [(d, raw_value x)] ->
    exists r : SeriesWithInfo,
      _compose fuel py h (VFloat x) (VSeries s) = Ok (VSeries r)
      /\ _compose fuel py h (VSeries s) (VFloat x) = Ok (VSeries r)
      /\ StronglySorted Z.lt (index (s_data r))
      /\ (forall d', In d' (index (s_data r))
                     <-> d' = d \/ In d' (index (s_data s)))
      /\ (notna (raw_value x) = true ->
          series_get (s_data r) d = Some (raw_value x))
      /\ (raw_value x = NaN ->
          series_get (s_data r) d = Some (reindexed (s_data s) d))
      /\ (forall d' v, d' <> d -> series_get (s_data s) d' = Some v ->
                       series_get (s_data r) d' = Some v).
Proof.
  intros fuel py h x s s0 d Hc Hd.
  exists (series_sort_index (series_combine_first s0 s)).
  split; [destruct fuel; cbn [_compose]; rewrite Hc; reflexivity|].
  split; [destruct fuel; cbn [_compose]; rewrite Hc; reflexivity|].
  cbn [series_sort_index series_combine_first s_data]. rewrite Hd.
  assert (Hat : reindexed [(d, raw_value x)] d = raw_value x).
  { unfold reindexed. cbn [series_get]. now rewrite Z.eqb_refl. }
  split; [apply combine_first_sorted|].
  split; [intros d'; rewrite combine_first_index; cbn [index map fst];
          simpl; intuition|].
  split; [|split].
  - intros Hv. rewrite combine_first_get by (left; now left).
    now rewrite Hat, Hv.
  - intros Hv. rewrite combine_first_get by (left; now left).
    now rewrite Hat, Hv.
  - intros d' v Hne Hget. rewrite combine_first_get.
    + unfold reindexed at 1. cbn [series_get].
      destruct (Z.eqb_spec d d') as [E|_]; [congruence|].
      cbn [notna]. unfold reindexed. now rewrite Hget.
    + right. apply series_get_in in Hget.
      change d' with (fst (d', v)). now apply in_map.
Qed.

Lemma compose_scalar_series_witness :
  exists r : SeriesWithInfo,
    _compose 0 (python true) [] (VFloat (ex_float 1 DollarPrice 10)) (VSeries ex_s1)
    = Ok (VSeries r)
    /\ _compose 0 (python true) [] (VSeries ex_s1) (VFloat (ex_float 1 DollarPrice 10))
       = Ok (VSeries r)
    /\ series_get (s_data r) 1%Z = Some (Num (inject_Z 10))
    /\ series_get (s_data r) 3%Z = Some (Num (inject_Z 7)).
Proof.
  destruct (compose_scalar_series 0 (python true) [] (ex_float 1 DollarPrice 10)
              ex_s1 _ 1%Z eq_refl eq_refl)
    as (r & E1 & E2 & _ & _ & H1 & _ & H3).
  exists r. split; [exact E1|]. split; [exact E2|].
  split; [apply H1; reflexivity|].
  apply H3; [discriminate | reflexivity].
Defined.

(** ** The historical result of several measures *)

Lemma mapM_keys (B : Type) (F : RiskMeasure -> res (RiskMeasure * B))
      (ks : list RiskMeasure) :
  (forall k y, F k = Ok y -> fst y = k) ->
  forall l, mapM F ks = Ok l -> keys l = ks.
Proof.
  intros HF. induction ks as [|k ks IH]; intros l H; cbn [mapM] in H.
  - injection H as <-. reflexivity.
  - destruct (F k) as [y|] eqn:Ey; cbn [bind] in H; [|discriminate].
    destruct (mapM F ks) as [ys|]; cbn [bind] in H; [|discriminate].
    injection H as <-. cbn [keys map]. f_equal; [exact (HF k y Ey)|].
    exact (IH ys eq_refl).
Qed.



(** ** The sum of two trees over one portfolio *)

Lemma MultipleRiskMeasureFuture_add_single_shot (fuel : nat) (py : Interp)
      (inst : Priceable) (r : value) (g : future) (h : store) :
  single_shot py = true ->
  is_ok (fst (MultipleRiskMeasureFuture_add fuel py inst r g h)) = false.
Proof.
  intros Hss. destruct g as [v|i m2f v|gs v|t]; try reflexivity.
  cbn [MultipleRiskMeasureFuture_add]. unfold reading. cbn [fst].
  rewrite Hss.
  match goal with
  | |- is_ok (bind ?c _) = false => destruct c as [x|]; [|reflexivity]
  end.
  cbn [bind].
  match goal with
  | |- is_ok (bind ?c _) = false => destruct c as [y|]; reflexivity
  end.
Qed.

Lemma as_multiple_result_futures_first (n : nat) (t t' : tree) (q : Priceable)
      (p : list Priceable) (f : future) (fs : list future) :
  portfolio_of t = q :: p ->
  futures_of t = f :: fs ->
  is_MultipleRiskMeasureFuture f = true
  \/ (List.length (risk_measures_of t) < 2 /\ is_nested f = false) ->
  as_multiple_result_futures n t = Ok t' ->
  exists f' fs', futures_of t' = f' :: fs'
                 /\ is_MultipleRiskMeasureFuture f' = true.
Proof.
  intros Hp Hf Hcase H. destruct n as [|n]; [discriminate|].
  cbn [as_multiple_result_futures] in H. rewrite Hp, Hf in H.
  assert (Hnn : is_nested f = false).
  { destruct Hcase as [Hm|[_ Hn]]; [destruct f; try discriminate; reflexivity|].
    exact Hn. }
  destruct (risk_measures_of t) as [|m [|m' rest]] eqn:Er.
  - cbn [zip mapM snd] in H. destruct f; try discriminate.
  - cbn [zip mapM snd fst] in H.
    destruct f as [v|i m2f v|gs v|sub]; try discriminate;
      cbn [bind] in H;
      match type of H with
      | bind (bind ?c _) _ = _ => destruct c; cbn [bind] in H; [|discriminate]
      end;
      injection H as <-; eexists; eexists; split; reflexivity.
  - injection H as <-. rewrite Hf. exists f, fs. split; [reflexivity|].
    destruct Hcase as [Hm|[Hlen _]]; [exact Hm|]. cbn [List.length] in Hlen. lia.
Qed.

Lemma as_multiple_result_futures_nonempty (n : nat) (t t' : tree) :
  portfolio_of t <> [] -> futures_of t <> [] ->
  as_multiple_result_futures n t = Ok t' ->
  futures_of t' <> [].
Proof.
  intros Hp Hf H. destruct n as [|n]; [discriminate|].
  cbn [as_multiple_result_futures] in H.
  destruct (risk_measures_of t) as [|m [|m' rest]];
    try (injection H as <-; exact Hf);
    destruct (portfolio_of t) as [|q p]; try congruence;
    destruct (futures_of t) as [|f fs]; try congruence;
    cbn [zip mapM] in H;
    match type of H with
    | bind (bind ?c _) _ = _ => destruct c; cbn [bind] in H; [|discriminate]
    end;
    match type of H with
    | bind (bind ?c _) _ = _ => destruct c; cbn [bind] in H; [|discriminate]
    end;
    injection H as <-; discriminate.
Qed.

(** X22.  Where [set_result] is single-shot, [MultipleRiskMeasureFuture.__add__]
    never returns: it calls [_set_result] on the future that it has built,
    whose constructor has set the result, which raises [InvalidStateError]
    when the sum of the two results was made.  So the sum of two trees over
    one portfolio is never returned when the portfolio has an entry, the
    other tree has a future, and the first future of the tree is a
    [MultipleRiskMeasureFuture], or the tree has fewer than two measures
    and its first future is no tree. *)
Theorem sum_over_one_portfolio_never_returns :
  forall (fuel : nat) (py : Interp) (h : store) (self other : tree)
         (q : Priceable) (p : list Priceable) (f : future) (fs : list future),
    single_shot py = true ->
    (forall (inst : Priceable) (r : value) (g : future),
        is_ok (fst (MultipleRiskMeasureFuture_add fuel py inst r g h)) = false)
    /\ (forall (inst i : Priceable) (o sum : multi)
               (m2f : list (RiskMeasure * future)) (v : value),
          multi_add fuel py h o v = Ok (VMulti sum) ->
          is_ok (contents h sum) = true ->
          fst (MultipleRiskMeasureFuture_add fuel py inst (VMulti o)
                 (MultipleRiskMeasureFuture i m2f v) h)
          = Raise InvalidStateError)
    /\ (same_portfolio self other = true ->
        portfolio_of self = q :: p ->
        futures_of self = f :: fs ->
        futures_of other <> [] ->
        is_MultipleRiskMeasureFuture f = true
        \/ (List.length (risk_measures_of self) < 2 /\ is_nested f = false) ->
        is_ok (fst (tree_add fuel py self (VTree other) h)) = false).
Proof.
  intros fuel py h self other q p f fs Hss. split; [|split].
  - intros inst r g. now apply MultipleRiskMeasureFuture_add_single_shot.
  - intros inst i o sum m2f v Hsum Hc.
    cbn [MultipleRiskMeasureFuture_add]. unfold reading. cbn [fst].
    rewrite Hsum, Hss. cbn [bind].
    destruct (contents h sum); [reflexivity | discriminate].
  - intros Hsame Hp Hf Hfo Hcase.
    destruct fuel as [|n]; [reflexivity|].
    cbn [tree_add]. unfold bindS at 1. unfold reading at 1.
    destruct (provenance_check n h self) as [b|] eqn:Ep; [|reflexivity].
    rewrite (provenance_check_true _ _ _ _ Ep). cbn [negb].
    unfold bindS at 1. unfold reading at 1.
    destruct (results_overlap n h self other) as [[|]|]; try reflexivity.
    unfold bindS at 1. unfold reading at 1.
    destruct (as_multiple_result_futures n self) as [self_mr|] eqn:Es;
      [|reflexivity].
    unfold bindS at 1. unfold reading at 1.
    destruct (as_multiple_result_futures n other) as [other_mr|] eqn:Eo;
      [|reflexivity].
    rewrite Hsame.
    destruct (as_multiple_result_futures_first n self self_mr q p f fs
                Hp Hf Hcase Es) as (f' & fs' & Ef' & Hm).
    assert (Hpo : portfolio_of other <> []).
    { unfold same_portfolio in Hsame. apply Priceable_eqb_eq in Hsame.
      injection Hsame as E. rewrite <- E, Hp. discriminate. }
    pose proof (as_multiple_result_futures_nonempty n other other_mr Hpo Hfo Eo)
      as Hne.
    rewrite Ef'. destruct (futures_of other_mr) as [|g gs]; [congruence|].
    cbn [zip mapS fst snd]. unfold bindS at 1. unfold bindS at 1.
    destruct f' as [v|inst m2f v|hs v|sub]; try discriminate.
    cbn [future_add].
    pose proof (MultipleRiskMeasureFuture_add_single_shot n py inst v g h Hss)
      as Hadd.
    destruct (MultipleRiskMeasureFuture_add n py inst v g h) as [[x|e] h'];
      [discriminate | reflexivity].
Qed.

Lemma sum_over_one_portfolio_never_returns_witness :
  is_ok (fst (MultipleRiskMeasureFuture_add 1 (python true) swap1
                (VMulti ex_multi_floats)
                (new_MultipleRiskMeasureFuture swap1
                   [(Price, PricingFuture (VFloat (ex_float 1 Price 11)))]) []))
  = false
  /\ is_ok (fst (tree_add 5 (python true) ex_dollar_prices
                   (VTree ex_third_measure) [])) = false
  /\ is_ok (fst (tree_add 5 (python true) ex_calc (VTree ex_third_measure) []))
     = false.
Proof.
  split; [|split].
  - apply (proj1 (sum_over_one_portfolio_never_returns 1 (python true) []
                    ex_calc ex_calc swap1 [] (PricingFuture (VNum NaN)) []
                    eq_refl)).
  - apply (proj2 (proj2 (sum_over_one_portfolio_never_returns 5 (python true) []
                    ex_dollar_prices ex_third_measure swap1 [swap2]
                    (PricingFuture (VFloat (ex_float 1 DollarPrice 10)))
                    [PricingFuture (VFloat (ex_float 1 DollarPrice 30))]
                    eq_refl))); try reflexivity.
    + discriminate.
    + right. split; [simpl; lia | reflexivity].
  - apply (proj2 (proj2 (sum_over_one_portfolio_never_returns 5 (python true) []
                    ex_calc ex_third_measure swap1 [swap2]
                    (hd (PricingFuture (VNum NaN)) (futures_of ex_calc))
                    (tl (futures_of ex_calc)) eq_refl)));
      try reflexivity.
    + discriminate.
    + left. reflexivity.
Defined.

(** ** The sum of two trees over one portfolio where [set_result] overwrites *)

Lemma dict_set_keys_nodup (V : Type) (d : list (RiskMeasure * V)) (k : RiskMeasure)
      (v : V) :
  NoDup (keys d) -> NoDup (keys (dict_set d k v)).
Proof.
  intros Hnd. destruct (in_dec Nat.eq_dec k (keys d)) as [Hin|Hout].
  - assert (E : keys (dict_set d k v) = keys d); [|now rewrite E].
    clear Hnd. induction d as [|[k0 v0] t IH]; [destruct Hin|].
    cbn [dict_set]. destruct (Nat.eqb_spec k0 k) as [->|Hne]; [reflexivity|].
    cbn [keys map fst]. f_equal. apply IH.
    destruct Hin as [E|Hin]; [cbn [fst] in E; congruence | exact Hin].
  - rewrite dict_set_fresh by exact Hout. unfold keys in *.
    rewrite map_app. cbn [map fst]. apply NoDup_app; auto.
    + repeat constructor. intros [].
    + intros x Hx [<-|[]]. contradiction.
Qed.

Lemma merge_keys_nodup (c : value -> value -> res value)
      (result : list (RiskMeasure * value)) (ks : list RiskMeasure) :
  forall acc r : list (RiskMeasure * value),
    NoDup (keys acc) -> merge_keys c result ks acc = Ok r -> NoDup (keys r).
Proof.
  induction ks as [|k ks IH]; intros acc r Hnd H; cbn [merge_keys] in H.
  - injection H as <-. exact Hnd.
  - destruct (dict_get result k) as [v|]; [|now apply (IH acc)].
    destruct (dict_get acc k) as [old|].
    + destruct (c old v) as [v'|]; cbn [bind] in H; [|discriminate].
      apply (IH _ _ (dict_set_keys_nodup _ acc k v' Hnd) H).
    + apply (IH _ _ (dict_set_keys_nodup _ acc k v Hnd) H).
Qed.

Lemma mapS_Forall2 (A B : Type) (f : A -> M B) (R : A -> B -> Prop)
      (l : list A) (h : store) :
  (forall x, In x l -> exists y, f x h = (Ok y, h) /\ R x y) ->
  exists ys, mapS f l h = (Ok ys, h) /\ Forall2 R l ys.
Proof.
  induction l as [|x t IH]; intros H.
  - exists []. split; [reflexivity | constructor].
  - destruct (H x (or_introl eq_refl)) as (y & Ey & Hy).
    destruct IH as (ys & Eys & Hys); [intros z Hz; apply H; now right|].
    exists (y :: ys). split; [|now constructor].
    cbn [mapS]. unfold bindS. rewrite Ey, Eys. reflexivity.
Qed.

(** The sum of the two futures that stand for one entry. *)
Lemma sum_of_wrapped (rec : tree -> value -> M value) (b : nat) (py : Interp)
      (h : store) (q : Priceable) (mA mB : RiskMeasure) (fA fB : future) :
  single_shot py = false -> iterates_sets py -> mA <> mB ->
  priced_leaf fA = true -> priced_leaf fB = true ->
  compatible_leaves (fA, fB) = true ->
  exists m2f r,
    future_add rec (S b) py (wrapped mA (q, fA)) (wrapped mB (q, fB)) h
    = (Ok (MultipleRiskMeasureFuture q m2f (VMulti (Own q r))), h)
    /\ dict_get r mA = Some (result_of fA)
    /\ dict_get r mB = Some (result_of fB).
Proof.
  intros Hss Hpy Hne HA HB Hcompat.
  destruct (Hpy (keys [(mA, result_of fA)] ++ keys [(mB, result_of fB)]))
    as [Hnd Hall].
  set (ks := set_iter py (keys [(mA, result_of fA)] ++ keys [(mB, result_of fB)]))
    in *.
  destruct (merge_keys_total (_compose (S b) py h) [(mA, result_of fA)] ks Hnd [])
    as (r1 & E1); [intros k _ _ []|].
  assert (G1 : forall k, dict_get r1 k = dict_get [(mA, result_of fA)] k).
  { intros k. destruct (merge_keys_get _ _ _ Hnd _ _ k E1) as [Hout Hin].
    destruct (in_dec Nat.eq_dec k ks) as [Hk|Hk].
    - specialize (Hin Hk).
      destruct (dict_get [(mA, result_of fA)] k); exact Hin.
    - rewrite (Hout Hk). cbn [dict_get].
      destruct (Nat.eqb_spec mA k) as [<-|]; [|reflexivity].
      exfalso. apply Hk. apply Hall. now left. }
  destruct (merge_keys_total (_compose (S b) py h) [(mB, result_of fB)] ks Hnd r1)
    as (r2 & E2).
  { intros k _ HkB HkA. destruct HkB as [E|[]]. cbn [fst] in E. subst k.
    destruct (dict_get_in_keys _ _ _ HkA) as (x & Hx).
    rewrite G1 in Hx. cbn [dict_get] in Hx.
    destruct (Nat.eqb_spec mA mB); [congruence | discriminate Hx]. }
  assert (Hnd2 : NoDup (keys r2)).
  { eapply merge_keys_nodup; [|exact E2].
    eapply merge_keys_nodup; [|exact E1]. constructor. }
  assert (G2 : forall k, In k ks ->
             dict_get r2 k = match dict_get [(mB, result_of fB)] k with
                             | Some v => Some v
                             | None => dict_get r1 k
                             end).
  { intros k Hk. destruct (merge_keys_get _ _ _ Hnd _ _ k E2) as [_ Hin].
    specialize (Hin Hk).
    destruct (dict_get [(mB, result_of fB)] k) as [v|] eqn:Ek; [|exact Hin].
    destruct (dict_get r1 k) as [old|] eqn:Eo; [|exact Hin].
    exfalso. rewrite G1 in Eo. cbn [dict_get] in Ek, Eo.
    destruct (Nat.eqb_spec mB k); [|discriminate Ek].
    destruct (Nat.eqb_spec mA k); [congruence | discriminate Eo]. }
  exists (map (fun kv => (fst kv, PricingFuture (snd kv))) r2), r2.
  split; [|split].
  - cbn [wrapped new_MultipleRiskMeasureFuture fst snd map future_add
           MultipleRiskMeasureFuture_add].
    unfold reading. f_equal.
    cbn [dict_of fold_left dict_set fst snd].
    unfold multi_add, multi_add_multi. cbn [contents bind fst snd].
    unfold _risk_keys_compatible. cbn [first_leaf contents bind snd values map].
    unfold compatible_leaves in Hcompat. cbn [fst snd] in Hcompat.
    assert (LA : first_leaf b h (result_of fA) = Ok (result_of fA)).
    { destruct fA as [[]| | |]; try discriminate; destruct b; reflexivity. }
    assert (LB : first_leaf b h (result_of fB) = Ok (result_of fB)).
    { destruct fB as [[]| | |]; try discriminate; destruct b; reflexivity. }
    rewrite LA, LB. cbn [bind].
    destruct (risk_key_of (result_of fA)) as [kA|]; [|discriminate].
    destruct (risk_key_of (result_of fB)) as [kB|]; [|discriminate].
    cbn [bind]. unfold keys_compatible in Hcompat. rewrite Hcompat. cbn [negb].
    rewrite Priceable_eqb_refl.
    assert (Hdis : isdisjoint (keys [(mA, result_of fA)]) (keys [(mB, result_of fB)])
                   = true).
    { unfold isdisjoint, mem. cbn [keys map fst existsb].
      destruct (Nat.eqb_spec mA mB); [congruence | reflexivity]. }
    rewrite Hdis. cbn [negb andb bind].
    fold ks. rewrite E1. cbn [bind]. rewrite E2. cbn [bind snd].
    rewrite Hss. cbn [contents bind snd].
    unfold new_MultipleRiskMeasureFuture. do 4 f_equal.
    rewrite map_map. cbn [fst snd result_of]. rewrite map_pair_id.
    now apply dict_of_nodup.
  - rewrite G2 by (apply Hall; now left). cbn [dict_get].
    destruct (Nat.eqb_spec mB mA); [congruence|].
    rewrite G1. cbn [dict_get]. now rewrite Nat.eqb_refl.
  - rewrite G2 by (apply Hall; right; now left). cbn [dict_get].
    now rewrite Nat.eqb_refl.
Qed.

Lemma priced_is_plain (fs : list future) :
  forallb priced_leaf fs = true -> forallb plain_leaf fs = true.
Proof.
  intros H. rewrite forallb_forall in *. intros f Hf. specialize (H f Hf).
  destruct f as [[]| | |]; try discriminate; reflexivity.
Qed.

Lemma sum_of_wrapped_lists (rec : tree -> value -> M value) (b : nat)
      (py : Interp) (h : store) (mA mB : RiskMeasure) :
  single_shot py = false -> iterates_sets py -> mA <> mB ->
  forall (p : list Priceable) (fsA fsB : list future),
    forallb priced_leaf fsA = true -> forallb priced_leaf fsB = true ->
    List.length fsA = List.length p -> List.length fsB = List.length p ->
    forallb compatible_leaves (zip fsA fsB) = true ->
    exists ys,
      mapS (fun fg => future_add rec (S b) py (fst fg) (snd fg))
           (zip (map (wrapped mA) (zip p fsA)) (map (wrapped mB) (zip p fsB))) h
      = (Ok ys, h)
      /\ List.length ys = List.length p
      /\ forall i fA fB,
           nth_error fsA i = Some fA -> nth_error fsB i = Some fB ->
           exists f' o,
             nth_error ys i = Some f' /\ result_of f' = VMulti o
             /\ multi_getitem h o (KMeasure mA) = Ok (result_of fA)
             /\ multi_getitem h o (KMeasure mB) = Ok (result_of fB).
Proof.
  intros Hss Hpy Hne. induction p as [|q p IH]; intros fsA fsB HA HB LA LB Hc.
  - destruct fsA; [|discriminate]. destruct fsB; [|discriminate].
    exists []. split; [reflexivity|]. split; [reflexivity|].
    intros [|i] fA fB H; discriminate.
  - destruct fsA as [|fA fsA]; [discriminate|].
    destruct fsB as [|fB fsB]; [discriminate|].
    cbn [forallb] in HA, HB. apply andb_prop in HA, HB.
    destruct HA as [HA HA']. destruct HB as [HB HB'].
    cbn [zip forallb] in Hc. apply andb_prop in Hc. destruct Hc as [Hc Hc'].
    cbn [List.length] in LA, LB.
    destruct (IH fsA fsB HA' HB' ltac:(lia) ltac:(lia) Hc')
      as (ys & E & Hlen & Hread).
    destruct (sum_of_wrapped rec b py h q mA mB fA fB Hss Hpy Hne HA HB Hc)
      as (m2f & r & E0 & GA & GB).
    exists (MultipleRiskMeasureFuture q m2f (VMulti (Own q r)) :: ys).
    split; [|split].
    + cbn [zip map mapS fst snd]. unfold bindS at 1. rewrite E0.
      unfold bindS at 1. rewrite E. reflexivity.
    + cbn [List.length]. now rewrite Hlen.
    + intros [|i] fA0 fB0 H1 H2; cbn [nth_error] in *.
      * injection H1 as <-. injection H2 as <-.
        eexists. eexists. split; [reflexivity|]. split; [reflexivity|].
        unfold multi_getitem. cbn [contents bind snd]. now rewrite GA, GB.
      * now apply Hread.
Qed.

Lemma two_measures (py : Interp) (mA mB : RiskMeasure) :
  iterates_sets py -> mA <> mB ->
  exists x y rest, set_iter py ([mA] ++ [mB]) = x :: y :: rest.
Proof.
  intros Hpy Hne. destruct (Hpy ([mA] ++ [mB])) as [_ Hin].
  assert (HA : In mA (set_iter py ([mA] ++ [mB]))) by (apply Hin; now left).
  assert (HB : In mB (set_iter py ([mA] ++ [mB])))
    by (apply Hin; right; now left).
  destruct (set_iter py ([mA] ++ [mB])) as [|x [|y rest]].
  - destruct HA.
  - destruct HA as [<-|[]]. destruct HB as [E|[]]. congruence.
  - eauto.
Qed.

(** X23.  Where [set_result] overwrites, on an interpreter that iterates
    a set over each of its elements once: the sum of two trees over one
    portfolio, of one measure each and of two different measures, whose
    futures hold one scalar or series for every entry, with compatible
    keys, is a tree over that portfolio of the two measures with one
    future for every entry; read at a position it gives a result of
    several measures that holds, at the measure of each operand, what
    that operand holds at the position.  The guard against overlaps does
    not read the dates, and the store is as before. *)
Theorem sum_over_one_portfolio_where_overwritten :
  forall (b : nat) (py : Interp) (h : store) (p : list Priceable)
         (mA mB : RiskMeasure) (fsA fsB : list future),
    single_shot py = false -> iterates_sets py -> mA <> mB ->
    forallb priced_leaf fsA = true -> forallb priced_leaf fsB = true ->
    List.length fsA = List.length p -> List.length fsB = List.length p ->
    forallb compatible_leaves (zip fsA fsB) = true ->
    is_ok (provenance_check (S b) h (PortfolioRiskResult p [mA] fsA)) = true ->
    exists fs,
      tree_add (S (S b)) py (PortfolioRiskResult p [mA] fsA)
               (VTree (PortfolioRiskResult p [mB] fsB)) h
      = (Ok (VTree (PortfolioRiskResult p (set_iter py ([mA] ++ [mB])) fs)), h)
      /\ List.length fs = List.length p
      /\ forall i fA fB,
           nth_error fsA i = Some fA -> nth_error fsB i = Some fB ->
           exists o,
             tree_getitem 1 h
               (PortfolioRiskResult p (set_iter py ([mA] ++ [mB])) fs) (KInt i)
             = Ok (VMulti o)
             /\ multi_getitem h o (KMeasure mA) = Ok (result_of fA)
             /\ multi_getitem h o (KMeasure mB) = Ok (result_of fB).
Proof.
  intros b py h p mA mB fsA fsB Hss Hpy Hne HA HB LA LB Hc Hprov.
  destruct (sum_of_wrapped_lists (tree_add (S b) py) b py h mA mB Hss Hpy Hne
              p fsA fsB HA HB LA LB Hc) as (ys & E & Hlen & Hread).
  exists ys. split; [|split; [exact Hlen|]].
  - remember (S b) as n eqn:En. cbn [tree_add]. subst n.
    unfold bindS at 1. unfold reading at 1.
    destruct (provenance_check (S b) h (PortfolioRiskResult p [mA] fsA))
      as [c|] eqn:Ep; [|discriminate].
    rewrite (provenance_check_true _ _ _ _ Ep). cbn [negb].
    unfold bindS at 1. unfold reading at 1.
    assert (Hov : results_overlap (S b) h (PortfolioRiskResult p [mA] fsA)
                                  (PortfolioRiskResult p [mB] fsB) = Ok false).
    { unfold results_overlap, isdisjoint, mem. cbn [risk_measures_of existsb].
      destruct (Nat.eqb_spec mA mB); [congruence | reflexivity]. }
    rewrite Hov.
    unfold bindS at 1. unfold reading at 1.
    rewrite (wrap_plain_leaves b p mA fsA (priced_is_plain _ HA)).
    unfold bindS at 1. unfold reading at 1.
    rewrite (wrap_plain_leaves b p mB fsB (priced_is_plain _ HB)).
    unfold same_portfolio. cbn [portfolio_of risk_measures_of futures_of].
    rewrite Priceable_eqb_refl.
    unfold bindS at 1. rewrite E. reflexivity.
  - intros i fA fB H1 H2.
    destruct (Hread i fA fB H1 H2) as (f' & o & Hn & Hr & GA & GB).
    exists o. split; [|split; assumption].
    rewrite (tree_getitem_int 0 h
               (PortfolioRiskResult p (set_iter py ([mA] ++ [mB])) ys) i f' Hn).
    cbn [risk_measures_of].
    destruct (two_measures py mA mB Hpy Hne) as (x & y & rest & ->).
    rewrite Hr. reflexivity.
Qed.

Lemma sum_over_one_portfolio_where_overwritten_witness :
  exists fs o,
    tree_add 2 (python false) ex_dollar_prices (VTree ex_third_measure) []
    = (Ok (VTree (PortfolioRiskResult [swap1; swap2] [DollarPrice; Price] fs)), [])
    /\ tree_getitem 1 [] (PortfolioRiskResult [swap1; swap2] [DollarPrice; Price] fs)
                    (KInt 1)
       = Ok (VMulti o)
    /\ multi_getitem [] o (KMeasure DollarPrice)
       = Ok (VFloat (ex_float 1 DollarPrice 30))
    /\ multi_getitem [] o (KMeasure Price) = Ok (VFloat (ex_float 1 Price 22)).
Proof.
  destruct (sum_over_one_portfolio_where_overwritten 0 (python false) []
              [swap1; swap2] DollarPrice Price (futures_of ex_dollar_prices)
              (futures_of ex_third_measure) eq_refl (python_iterates_sets false)
              ltac:(discriminate) eq_refl eq_refl eq_refl eq_refl eq_refl eq_refl)
    as (fs & E & _ & Hread).
  destruct (Hread 1 (PricingFuture (VFloat (ex_float 1 DollarPrice 30)))
              (PricingFuture (VFloat (ex_float 1 Price 22))) eq_refl eq_refl)
    as (o & E1 & GA & GB).
  exists fs, o. split; [exact E|]. split; [exact E1|]. split; assumption.
Defined.

(** ** The sum of two trees of two measures over two portfolios *)

Lemma nested_paths_flat (key : Priceable) (ps : list Priceable) (i : nat) :
  flat ps = true -> nested_paths key i ps = [].
Proof.
  revert i. induction ps as [|q t IH]; intros i H; [reflexivity|].
  cbn [flat forallb] in H. apply andb_prop in H. destruct H as [Hq Ht].
  cbn [nested_paths]. destruct q as [j|qs]; [|discriminate].
  cbn [paths map app]. now apply IH.
Qed.

Lemma first_index_lt (key : Priceable) (ps : list Priceable) (j : nat) :
  first_index key 0 ps = Some j -> j < List.length ps.
Proof.
  intros H. apply first_index_nth in H. rewrite Nat.sub_0_r in H.
  apply nth_error_Some. congruence.
Qed.

(** A tree of one measure over instruments, read at a priceable: the
    result of the future at the first position of the priceable. *)
Lemma flat_lookup (c : nat) (h : store) (ps : list Priceable) (m : RiskMeasure)
      (fs : list future) (x : Priceable) :
  flat ps = true -> forallb priced_leaf fs = true ->
  List.length fs = List.length ps ->
  (exists j f, first_index x 0 ps = Some j /\ nth_error fs j = Some f
               /\ is_priced (result_of f) = true
               /\ tree_getitem (S c) h (PortfolioRiskResult ps [m] fs) (KPriceable x)
                  = Ok (result_of f))
  \/ (first_index x 0 ps = None
      /\ tree_getitem (S c) h (PortfolioRiskResult ps [m] fs) (KPriceable x)
         = Raise KeyError).
Proof.
  intros Hflat Hpr Hlen.
  cbn [tree_getitem]. unfold tree_results_item, tree_paths.
  cbn [bind portfolio_of]. rewrite paths_portfolio.
  rewrite (nested_paths_flat x ps 0 Hflat), app_nil_r.
  pose proof (top_matches_first x ps 0) as Hhd.
  destruct (first_index x 0 ps) as [j|] eqn:Ej.
  - left. destruct (top_matches x 0 ps) as [|path rest]; [discriminate|].
    cbn [hd_error option_map] in Hhd. injection Hhd as ->.
    pose proof (first_index_lt _ _ _ Ej) as Hj.
    destruct (nth_error fs j) as [f|] eqn:Ef;
      [|apply nth_error_None in Ef; lia].
    assert (Hf : priced_leaf f = true).
    { rewrite forallb_forall in Hpr. apply Hpr. eapply nth_error_In; eauto. }
    exists j, f. split; [reflexivity|]. split; [exact Ef|].
    split; [destruct f as [[]| | |]; try discriminate; reflexivity|].
    unfold tree_result, path_result. cbn [path_call].
    unfold path_step, nth_future. cbn [futures_of]. rewrite Ef. cbn [bind].
    cbn [risk_measures_of].
    destruct f as [[]| | |]; try discriminate; reflexivity.
  - right. split; [reflexivity|].
    destruct (top_matches x 0 ps); [reflexivity | discriminate].
Qed.

Lemma set_value_leaf_held (n : nat) (src : tree) (m : RiskMeasure) (x : Priceable)
      (f : future) (d : list (RiskMeasure * value)) (h : store) :
  (exists v, tree_getitem n h src (KPriceable x) = Ok v /\ is_priced v = true)
  \/ tree_getitem n h src (KPriceable x) = Raise KeyError ->
  held f = Some d ->
  exists f', set_value_leaf n src m x f h = (Ok f', h)
             /\ held f' = Some (written d m (tree_getitem n h src (KPriceable x))).
Proof.
  intros Hsrc Hheld. unfold set_value_leaf.
  destruct Hsrc as [(v & E & Hv)|E]; rewrite E.
  - assert (Hpick : match v with
                    | VMulti o => multi_getitem h o (KMeasure m)
                    | _ => Ok v
                    end = Ok v) by (destruct v; try discriminate; reflexivity).
    rewrite Hpick. cbn [written]. unfold set_result_item, held in *.
    destruct f as [r|i m2f r|gs r|t]; cbn [result_of] in *; try discriminate;
      destruct r as [| | | | | | |[i0 d0|a]|]; try discriminate;
      injection Hheld as ->; eexists; split; reflexivity.
  - exists f. split; [reflexivity | exact Hheld].
Qed.

Lemma set_value_flat (n : nat) (src : tree) (m : RiskMeasure) (h : store)
      (rms : list RiskMeasure) :
  forall (pd : list Priceable) (fsd : list future),
    List.length fsd = List.length pd ->
    (forall f, In f fsd -> held f <> None) ->
    (forall x, In x pd ->
       (exists v, tree_getitem n h src (KPriceable x) = Ok v /\ is_priced v = true)
       \/ tree_getitem n h src (KPriceable x) = Raise KeyError) ->
    exists fsd',
      set_value (S n) (PortfolioRiskResult pd rms fsd) src m h
      = (Ok (PortfolioRiskResult pd rms fsd'), h)
      /\ List.length fsd' = List.length pd
      /\ (forall f, In f fsd' -> held f <> None)
      /\ forall k x f d,
           nth_error pd k = Some x -> nth_error fsd k = Some f ->
           held f = Some d ->
           exists f', nth_error fsd' k = Some f'
                      /\ held f' = Some (written d m
                                           (tree_getitem n h src (KPriceable x))).
Proof.
  intros pd fsd Hlen Hheld Hsrc.
  assert (Hmap : exists fsd',
             mapS (fun pf : Priceable * future =>
                     match snd pf with
                     | Nested t' =>
                         r <~ set_value n t' src m ;; retS (Nested r)
                     | f => set_value_leaf n src m (fst pf) f
                     end) (zip pd fsd) h = (Ok fsd', h)
             /\ List.length fsd' = List.length pd
             /\ (forall f, In f fsd' -> held f <> None)
             /\ forall k x f d,
                  nth_error pd k = Some x -> nth_error fsd k = Some f ->
                  held f = Some d ->
                  exists f', nth_error fsd' k = Some f'
                             /\ held f' = Some (written d m
                                                  (tree_getitem n h src (KPriceable x)))).
  { clear rms. revert fsd Hlen Hheld.
    induction pd as [|x pd IH]; intros fsd Hlen Hheld.
    - destruct fsd; [|discriminate]. exists [].
      split; [reflexivity|]. split; [reflexivity|]. split; [intros f []|].
      intros [|k] x f d H; discriminate.
    - destruct fsd as [|f fsd]; [discriminate|].
      destruct (held f) as [d|] eqn:Ed;
        [|exfalso; apply (Hheld f); [now left | exact Ed]].
      destruct (set_value_leaf_held n src m x f d h
                  (Hsrc x (or_introl eq_refl)) Ed) as (f' & E & Hf').
      destruct (IH (fun y Hy => Hsrc y (or_intror Hy)) fsd
                  ltac:(cbn [List.length] in Hlen; lia)
                  (fun g Hg => Hheld g (or_intror Hg)))
        as (fsd' & E' & Hlen' & Hheld' & Hread).
      exists (f' :: fsd'). split; [|split; [|split]].
      + cbn [zip mapS snd fst]. unfold bindS at 1.
        destruct f; try discriminate Ed;
          rewrite E; unfold bindS at 1; rewrite E'; reflexivity.
      + cbn [List.length]. now rewrite Hlen'.
      + intros g [<-|Hg]; [congruence | now apply Hheld'].
      + intros [|k] x0 f0 d0 H1 H2 H3; cbn [nth_error] in *.
        * injection H1 as <-. injection H2 as <-.
          rewrite Ed in H3. injection H3 as <-.
          exists f'. split; [reflexivity | exact Hf'].
        * now apply (Hread k x0 f0 d0). }
  destruct Hmap as (fsd' & E & Hlen' & Hheld' & Hread).
  exists fsd'. split; [|split; [exact Hlen'|split; [exact Hheld' | exact Hread]]].
  cbn [set_value portfolio_of futures_of risk_measures_of].
  unfold bindS at 1. rewrite E. unfold retS. do 3 f_equal.
  rewrite zip_length by (symmetry; exact Hlen).
  rewrite <- Hlen. rewrite skipn_all. apply app_nil_r.
Qed.

Lemma held_wrapped (m : RiskMeasure) (q : Priceable) (f : future) :
  held (wrapped m (q, f)) = Some [(m, result_of f)].
Proof. reflexivity. Qed.

Lemma flat_lookup_shape (c : nat) (h : store) (ps : list Priceable)
      (m : RiskMeasure) (fs : list future) (x : Priceable) :
  flat ps = true -> forallb priced_leaf fs = true ->
  List.length fs = List.length ps ->
  (exists v, tree_getitem (S c) h (PortfolioRiskResult ps [m] fs) (KPriceable x)
             = Ok v /\ is_priced v = true)
  \/ tree_getitem (S c) h (PortfolioRiskResult ps [m] fs) (KPriceable x)
     = Raise KeyError.
Proof.
  intros Hf Hp Hl.
  destruct (flat_lookup c h ps m fs x Hf Hp Hl)
    as [(j & f & _ & _ & Hv & E)|[_ E]]; [left | right; exact E].
  exists (result_of f). auto.
Qed.

Lemma flat_lookup_member (c : nat) (h : store) (ps : list Priceable)
      (m : RiskMeasure) (fs : list future) (x : Priceable) :
  flat ps = true -> forallb priced_leaf fs = true ->
  List.length fs = List.length ps -> In x ps ->
  tree_getitem (S c) h (PortfolioRiskResult ps [m] fs) (KPriceable x)
  <> Raise KeyError.
Proof.
  intros Hf Hp Hl Hin.
  destruct (flat_lookup c h ps m fs x Hf Hp Hl)
    as [(j & f & _ & _ & _ & E)|[Hn _]]; [rewrite E; discriminate|].
  destruct (first_index_in x ps 0 Hin) as (j & Hj). congruence.
Qed.

Lemma wrapped_nth (m : RiskMeasure) (p : list Priceable) (fs : list future)
      (k : nat) (x : Priceable) :
  List.length fs = List.length p ->
  nth_error p k = Some x ->
  exists f, nth_error fs k = Some f
            /\ nth_error (map (wrapped m) (zip p fs)) k = Some (wrapped m (x, f)).
Proof.
  revert fs k. induction p as [|q p IH]; intros [|f fs] k Hl Hx;
    cbn [List.length] in Hl; try discriminate.
  - destruct k; discriminate.
  - destruct k as [|k]; cbn [nth_error] in *.
    + injection Hx as ->. exists f. split; reflexivity.
    + apply IH; [lia | exact Hx].
Qed.

(** X24.  The sum of two trees of one measure each, of two different
    measures, over two different portfolios of instruments, whose futures
    hold one scalar or series for every entry, on an interpreter that
    iterates a set over each of its elements once: it is a tree of the
    two measures over the concatenation of the portfolios with a future
    for every entry of both; read at a position, it gives a result of
    several measures that answers at the measure of each operand what
    that operand answers for the priceable of the position: its value,
    or [KeyError] when the operand has not got the priceable.  The store
    is as before. *)
Theorem sum_of_two_measures_over_two_portfolios :
  forall (c : nat) (py : Interp) (h : store) (pA pB : list Priceable)
         (mA mB : RiskMeasure) (fsA fsB : list future),
    iterates_sets py -> mA <> mB ->
    flat pA = true -> flat pB = true ->
    forallb priced_leaf fsA = true -> forallb priced_leaf fsB = true ->
    List.length fsA = List.length pA -> List.length fsB = List.length pB ->
    same_portfolio (PortfolioRiskResult pA [mA] fsA)
                   (PortfolioRiskResult pB [mB] fsB) = false ->
    is_ok (provenance_check (S (S c)) h (PortfolioRiskResult pA [mA] fsA)) = true ->
    exists fs,
      tree_add (S (S (S c))) py (PortfolioRiskResult pA [mA] fsA)
               (VTree (PortfolioRiskResult pB [mB] fsB)) h
      = (Ok (VTree (PortfolioRiskResult (pA ++ pB)
                      (set_iter py ([mA] ++ [mB])) fs)), h)
      /\ List.length fs = List.length pA + List.length pB
      /\ forall k x,
           nth_error (pA ++ pB) k = Some x ->
           exists o,
             tree_getitem 1 h
               (PortfolioRiskResult (pA ++ pB) (set_iter py ([mA] ++ [mB])) fs)
               (KInt k)
             = Ok (VMulti o)
             /\ multi_getitem h o (KMeasure mA)
                = tree_getitem (S c) h (PortfolioRiskResult pA [mA] fsA)
                               (KPriceable x)
             /\ multi_getitem h o (KMeasure mB)
                = tree_getitem (S c) h (PortfolioRiskResult pB [mB] fsB)
                               (KPriceable x).
Proof.
  intros c py h pA pB mA mB fsA fsB Hpy Hne HfA HfB HA HB LA LB Hdiff Hprov.
  set (A := PortfolioRiskResult pA [mA] fsA) in *.
  set (B := PortfolioRiskResult pB [mB] fsB) in *.
  set (rms := set_iter py ([mA] ++ [mB])).
  set (fs0 := map (wrapped mA) (zip pA fsA) ++ map (wrapped mB) (zip pB fsB)).
  assert (Hlen0 : List.length fs0 = List.length (pA ++ pB)).
  { unfold fs0. rewrite !length_app, !length_map, !zip_length by congruence.
    reflexivity. }
  assert (Hheld0 : forall f, In f fs0 -> held f <> None).
  { intros f Hf. unfold fs0 in Hf. apply in_app_or in Hf.
    destruct Hf as [Hf|Hf]; apply in_map_iff in Hf;
      destruct Hf as ([q g] & <- & _); rewrite held_wrapped; discriminate. }
  (* the values of the right operand are written, then those of the left *)
  destruct (set_value_flat (S c) B mB h rms (pA ++ pB) fs0 Hlen0 Hheld0)
    as (fs1 & E1 & Hlen1 & Hheld1 & Hread1).
  { intros x _. apply flat_lookup_shape; assumption. }
  destruct (set_value_flat (S c) A mA h rms (pA ++ pB) fs1 Hlen1 Hheld1)
    as (fs2 & E2 & Hlen2 & _ & Hread2).
  { intros x _. apply flat_lookup_shape; assumption. }
  exists fs2. split; [|split].
  - remember (S (S c)) as n eqn:En. cbn [tree_add]. subst n.
    unfold bindS at 1. unfold reading at 1.
    destruct (provenance_check (S (S c)) h A) as [b|] eqn:Ep; [|discriminate].
    rewrite (provenance_check_true _ _ _ _ Ep). cbn [negb].
    unfold bindS at 1. unfold reading at 1.
    assert (Hov : results_overlap (S (S c)) h A B = Ok false).
    { unfold results_overlap, isdisjoint, mem. cbn [A B risk_measures_of existsb].
      destruct (Nat.eqb_spec mA mB); [congruence | reflexivity]. }
    rewrite Hov.
    unfold bindS at 1. unfold reading at 1. unfold A at 1.
    rewrite (wrap_plain_leaves (S c) pA mA fsA (priced_is_plain _ HA)).
    unfold bindS at 1. unfold reading at 1. unfold B at 1.
    rewrite (wrap_plain_leaves (S c) pB mB fsB (priced_is_plain _ HB)).
    rewrite Hdiff.
    cbn [A B portfolio_of risk_measures_of futures_of]. fold rms. fold fs0.
    unfold portfolio_add.
    destruct (two_measures py mA mB Hpy Hne) as (m1 & m2 & rest & Erms).
    fold rms in Erms. rewrite Erms. rewrite <- Erms.
    assert (Hfilter : filter (fun m => negb (mem m [mB])) [mA] = [mA]).
    { unfold mem. cbn [filter existsb].
      destruct (Nat.eqb_spec mA mB); [congruence | reflexivity]. }
    rewrite Hfilter. cbn [set_values]. fold A. fold B.
    unfold bindS at 1. unfold bindS at 1. rewrite E1. unfold retS at 1.
    unfold bindS at 1. unfold bindS at 1. rewrite E2. reflexivity.
  - rewrite Hlen2. apply length_app.
  - intros k x Hx.
    (* the future of the position, as wrapped, after one and after two passes *)
    assert (H0 : exists f0 d0,
               nth_error fs0 k = Some f0 /\ held f0 = Some d0
               /\ ((k < List.length pA /\ exists v, d0 = [(mA, v)])
                   \/ (List.length pA <= k /\ exists v, d0 = [(mB, v)]))).
    { destruct (Nat.lt_ge_cases k (List.length pA)) as [Hk|Hk].
      - rewrite nth_error_app1 in Hx by exact Hk.
        destruct (wrapped_nth mA pA fsA k x LA Hx) as (f & _ & Ef).
        exists (wrapped mA (x, f)), [(mA, result_of f)].
        split; [|split; [apply held_wrapped | left; eauto]].
        unfold fs0. rewrite nth_error_app1; [exact Ef|].
        rewrite length_map, zip_length by congruence. exact Hk.
      - rewrite nth_error_app2 in Hx by exact Hk.
        destruct (wrapped_nth mB pB fsB _ x LB Hx) as (f & _ & Ef).
        exists (wrapped mB (x, f)), [(mB, result_of f)].
        split; [|split; [apply held_wrapped | right; eauto]].
        unfold fs0. rewrite nth_error_app2;
          rewrite length_map, zip_length by congruence; [exact Ef | exact Hk]. }
    destruct H0 as (f0 & d0 & Ef0 & Hd0 & Hside).
    destruct (Hread1 k x f0 d0 Hx Ef0 Hd0) as (f1 & Ef1 & Hd1).
    destruct (Hread2 k x f1 _ Hx Ef1 Hd1) as (f2 & Ef2 & Hd2).
    assert (Hres : exists i, result_of f2
                             = VMulti (Own i (written (written d0 mB
                                 (tree_getitem (S c) h B (KPriceable x))) mA
                                 (tree_getitem (S c) h A (KPriceable x))))).
    { unfold held in Hd2.
      destruct f2 as [r|i m2f r|gs r|t]; cbn [result_of] in *; try discriminate;
        destruct r as [| | | | | | |[i0 d|a]|]; try discriminate;
        injection Hd2 as ->; eexists; reflexivity. }
    destruct Hres as (i & Hres).
    eexists. split; [|split].
    + rewrite (tree_getitem_int 0 h (PortfolioRiskResult (pA ++ pB) rms fs2)
                 k f2 Ef2).
      cbn [risk_measures_of].
      destruct (two_measures py mA mB Hpy Hne) as (m1 & m2 & rest & Erms).
      fold rms in Erms. rewrite Erms, Hres. reflexivity.
    + unfold multi_getitem. cbn [contents bind snd].
      destruct (flat_lookup_shape c h pA mA fsA x HfA HA LA) as [(v & E & _)|E];
        fold A in E; rewrite E; cbn [written].
      * rewrite dict_get_set, Nat.eqb_refl. reflexivity.
      * assert (Hnone : dict_get (written d0 mB
                                    (tree_getitem (S c) h B (KPriceable x))) mA
                        = None).
        { assert (Hside' : exists v, d0 = [(mB, v)]).
          { destruct Hside as [[Hk _]|[_ Hv]]; [|exact Hv].
            exfalso. rewrite nth_error_app1 in Hx by exact Hk.
            apply (flat_lookup_member c h pA mA fsA x HfA HA LA);
              [eapply nth_error_In; eauto | exact E]. }
          destruct Hside' as (v & ->).
          destruct (tree_getitem (S c) h B (KPriceable x)); cbn [written];
            rewrite ?dict_get_set; cbn [dict_get];
            destruct (Nat.eqb_spec mB mA); congruence. }
        now rewrite Hnone.
    + unfold multi_getitem. cbn [contents bind snd].
      assert (Hskip : forall d r, dict_get (written d mA r) mB = dict_get d mB).
      { intros d [v|e]; cbn [written]; [|reflexivity].
        rewrite dict_get_set. destruct (Nat.eqb_spec mA mB); congruence. }
      rewrite Hskip.
      destruct (flat_lookup_shape c h pB mB fsB x HfB HB LB) as [(v & E & _)|E];
        fold B in E; rewrite E; cbn [written].
      * rewrite dict_get_set, Nat.eqb_refl. reflexivity.
      * assert (Hside' : exists v, d0 = [(mA, v)]).
        { destruct Hside as [[_ Hv]|[Hk _]]; [exact Hv|].
          exfalso. rewrite nth_error_app2 in Hx by exact Hk.
          apply (flat_lookup_member c h pB mB fsB x HfB HB LB);
            [eapply nth_error_In; eauto | exact E]. }
        destruct Hside' as (v & ->). cbn [dict_get].
        destruct (Nat.eqb_spec mA mB); [congruence | reflexivity].
Qed.

Lemma sum_of_two_measures_over_two_portfolios_witness :
  exists fs o0 o1,
    tree_add 3 (python true) ex_prices (VTree ex_other_prices) []
    = (Ok (VTree (PortfolioRiskResult [swap1; swap2; swap3; swap1; swap4]
                    [DollarPrice; Price] fs)), [])
    /\ tree_getitem 1 [] (PortfolioRiskResult [swap1; swap2; swap3; swap1; swap4]
                            [DollarPrice; Price] fs) (KInt 0)
       = Ok (VMulti o0)
    /\ multi_getitem [] o0 (KMeasure DollarPrice)
       = Ok (VFloat (ex_float 1 DollarPrice 6407332))
    /\ multi_getitem [] o0 (KMeasure Price) = Ok (VFloat (ex_float 1 Price 11))
    /\ tree_getitem 1 [] (PortfolioRiskResult [swap1; swap2; swap3; swap1; swap4]
                            [DollarPrice; Price] fs) (KInt 1)
       = Ok (VMulti o1)
    /\ multi_getitem [] o1 (KMeasure Price) = Raise KeyError.
Proof.
  destruct (sum_of_two_measures_over_two_portfolios 0 (python true) []
              [swap1; swap2; swap3] [swap1; swap4] DollarPrice Price
              (futures_of ex_prices) (futures_of ex_other_prices)
              (python_iterates_sets true) ltac:(discriminate)
              eq_refl eq_refl eq_refl eq_refl eq_refl eq_refl eq_refl eq_refl)
    as (fs & E & _ & Hread).
  destruct (Hread 0 swap1 eq_refl) as (o0 & E0 & GA0 & GB0).
  destruct (Hread 1 swap2 eq_refl) as (o1 & E1 & _ & GB1).
  exists fs, o0, o1.
  split; [exact E|]. split; [exact E0|]. split; [exact GA0|].
  split; [exact GB0|]. split; [exact E1 | exact GB1].
Defined.
